(** * The reference-service task queue: statuses, flags, statistics, worker pool

    A shallow embedding of the Go package [taskqueue]
    (plugins/golang/reference-service): the task entity and its bit flags,
    the status transition check, the atomic statistics counters and the
    worker pool (admission, per-task processing, shutdown).

    Conventions.
    - A Go [uintN] is a [Z] kept in [0, 2^N) with the wrap-around of every
      addition written out; [time.Duration] is an [int64] count of
      nanoseconds.
    - A Go [error] is [option string]: [None] is [nil], [Some s] an error whose
      [Error()] text is [s].
    - A [select] statement picks one of its ready cases; the pick of the Go
      runtime is a parameter of the functions that contain one.
    - The collaborators (repository, executor, publisher) are records of
      functions over an abstract world state; every call is appended to a
      call log so that "is (not) invoked" can be stated.
    - Logging has no effect on any of the modelled state and is left out. *)

From Stdlib Require Import ZArith List String Bool Lia.
Import ListNotations.
Local Open Scope string_scope.
Local Open Scope Z_scope.

Set Implicit Arguments.

(** ** Machine integers *)

Definition u8_max  : Z := 2 ^ 8.
Definition u32_max : Z := 2 ^ 32.
Definition u64_max : Z := 2 ^ 64.
Definition i64_max : Z := 2 ^ 63.

(** [uint64(x)] and [uint32(x)]: keep the low bits. *)
Definition to_u64 (x : Z) : Z := x mod u64_max.
Definition to_u32 (x : Z) : Z := x mod u32_max.

(** [int64(x)] of a [uint64]: same bits, read in two's complement. *)
Definition to_i64 (x : Z) : Z :=
  let r := x mod u64_max in
  if r <? i64_max then r else r - u64_max.

(** A Go [error] value. *)
Definition error := option string.

(** [fmt.Errorf(prefix + ": %w", err)]: the text of the wrapping error. *)
Definition wrapf (prefix : string) (err : string) : string :=
  (prefix ++ ": " ++ err)%string.

(** ** constants.go *)

Definition DefaultWorkerCount : Z := 5.
Definition DefaultBufferSize : Z := 100.
Definition DefaultShutdownTimeout : Z := 30 * 1000000000.
Definition DefaultProcessTimeout : Z := 60 * 1000000000.

Definition TaskFlagNone      : Z := 0.
Definition TaskFlagUrgent    : Z := Z.shiftl 1 0.
Definition TaskFlagRetryable : Z := Z.shiftl 1 1.
Definition TaskFlagLogged    : Z := Z.shiftl 1 2.
Definition TaskFlagMetrics   : Z := Z.shiftl 1 3.

Definition TaskFlagDefault : Z := Z.lor TaskFlagRetryable TaskFlagLogged.
Definition TaskFlagUrgentWithLogs : Z :=
  Z.lor (Z.lor TaskFlagUrgent TaskFlagLogged) TaskFlagMetrics.

(** The four defined flag constants. *)
Definition definedFlags : list Z :=
  [TaskFlagUrgent; TaskFlagRetryable; TaskFlagLogged; TaskFlagMetrics].

(** ** errors.go: the texts of the errors the worker builds *)

Definition ErrWorkerNotRunning : string := "worker not running".
Definition ErrWorkerRunning    : string := "worker already running".
Definition ErrTaskQueueFull    : string := "task queue full".

(** ** Task status (a string type with four named values) *)

Definition TaskStatus := string.

Definition TaskStatusPending    : TaskStatus := "pending".
Definition TaskStatusProcessing : TaskStatus := "processing".
Definition TaskStatusCompleted  : TaskStatus := "completed".
Definition TaskStatusFailed     : TaskStatus := "failed".

(** The keys of the [validStatuses] set. *)
Definition validStatuses : list TaskStatus :=
  [TaskStatusPending; TaskStatusProcessing; TaskStatusCompleted; TaskStatusFailed].

Definition IsValidStatus (status : TaskStatus) : bool :=
  existsb (String.eqb status) validStatuses.

(** ** The task entity *)

(** [Data] is an open key/value map whose values are opaque here; times are
    nanoseconds since the epoch. *)
Record Task : Type := mkTask {
  Data       : list (string * string);
  CreatedAt  : Z;
  UpdatedAt  : Z;
  ID         : string;
  Type_      : string;
  Status     : TaskStatus;
  Retries    : Z;
  MaxRetries : Z;
  Flags      : Z
}.

Definition withFlags (t : Task) (f : Z) : Task :=
  mkTask (Data t) (CreatedAt t) (UpdatedAt t) (ID t) (Type_ t) (Status t)
         (Retries t) (MaxRetries t) f.

(** [t.Flags&flag != 0] *)
Definition HasFlag (t : Task) (flag : Z) : bool :=
  negb (Z.land (Flags t) flag =? 0).

(** [t.Flags |= flag] *)
Definition SetFlag (t : Task) (flag : Z) : Task :=
  withFlags t (Z.lor (Flags t) flag).

(** [t.Flags &^= flag] (AND NOT) *)
Definition ClearFlag (t : Task) (flag : Z) : Task :=
  withFlags t (Z.ldiff (Flags t) flag).

(** [t.Flags ^= flag] *)
Definition ToggleFlag (t : Task) (flag : Z) : Task :=
  withFlags t (Z.lxor (Flags t) flag).

Definition IsUrgent (t : Task) : bool := HasFlag t TaskFlagUrgent.
Definition IsRetryable (t : Task) : bool := HasFlag t TaskFlagRetryable.
Definition ShouldLogMetrics (t : Task) : bool := HasFlag t TaskFlagMetrics.

(** The [switch] on [t.Status]; the cases are tried in order and the last
    one is the [default]. *)
Definition CanTransition (t : Task) (newStatus : TaskStatus) : bool :=
  if String.eqb (Status t) TaskStatusPending then
    String.eqb newStatus TaskStatusProcessing
  else if String.eqb (Status t) TaskStatusProcessing then
    String.eqb newStatus TaskStatusCompleted || String.eqb newStatus TaskStatusFailed
  else if String.eqb (Status t) TaskStatusCompleted
          || String.eqb (Status t) TaskStatusFailed then
    false
  else
    false.

(** The legal edges the specification lists. *)
Definition legalTransitions : list (TaskStatus * TaskStatus) :=
  [ (TaskStatusPending, TaskStatusProcessing);
    (TaskStatusProcessing, TaskStatusCompleted);
    (TaskStatusProcessing, TaskStatusFailed) ].

(** ** Task result *)

Record TaskResult : Type := mkTaskResult {
  Output    : list (string * string);
  Timestamp : Z;
  TaskID    : string;
  Error     : string;
  Duration  : Z;
  Success   : bool
}.

Definition withDuration (r : TaskResult) (d : Z) : TaskResult :=
  mkTaskResult (Output r) (Timestamp r) (TaskID r) (Error r) d (Success r).

(** ** stats.go: the atomic counters *)

Module Stats.

Record WorkerStats : Type := mkStats {
  tasksSubmitted   : Z;   (* atomic.Uint64 *)
  tasksProcessed   : Z;   (* atomic.Uint64 *)
  tasksFailed      : Z;   (* atomic.Uint64 *)
  tasksRetried     : Z;   (* atomic.Uint64 *)
  totalProcessTime : Z;   (* atomic.Uint64, nanoseconds *)
  activeWorkers    : Z;   (* atomic.Uint32 *)
  running          : bool (* atomic.Bool *)
}.

Definition NewWorkerStats : WorkerStats := mkStats 0 0 0 0 0 0 true.

Definition RecordSubmission (s : WorkerStats) : WorkerStats :=
  mkStats (to_u64 (tasksSubmitted s + 1)) (tasksProcessed s) (tasksFailed s)
          (tasksRetried s) (totalProcessTime s) (activeWorkers s) (running s).

(** [duration] is the [int64] nanosecond count of the [time.Duration]. *)
Definition RecordProcessed (duration : Z) (s : WorkerStats) : WorkerStats :=
  mkStats (tasksSubmitted s) (to_u64 (tasksProcessed s + 1)) (tasksFailed s)
          (tasksRetried s) (to_u64 (totalProcessTime s + to_u64 duration))
          (activeWorkers s) (running s).

Definition RecordFailed (s : WorkerStats) : WorkerStats :=
  mkStats (tasksSubmitted s) (tasksProcessed s) (to_u64 (tasksFailed s + 1))
          (tasksRetried s) (totalProcessTime s) (activeWorkers s) (running s).

Definition RecordRetry (s : WorkerStats) : WorkerStats :=
  mkStats (tasksSubmitted s) (tasksProcessed s) (tasksFailed s)
          (to_u64 (tasksRetried s + 1)) (totalProcessTime s) (activeWorkers s)
          (running s).

Definition IncrementActive (s : WorkerStats) : WorkerStats :=
  mkStats (tasksSubmitted s) (tasksProcessed s) (tasksFailed s)
          (tasksRetried s) (totalProcessTime s) (to_u32 (activeWorkers s + 1))
          (running s).

(** [Add(^uint32(0))]: adding [2^32 - 1] subtracts one modulo [2^32]. *)
Definition DecrementActive (s : WorkerStats) : WorkerStats :=
  mkStats (tasksSubmitted s) (tasksProcessed s) (tasksFailed s)
          (tasksRetried s) (totalProcessTime s)
          (to_u32 (activeWorkers s + (u32_max - 1))) (running s).

Definition GetSubmitted (s : WorkerStats) : Z := tasksSubmitted s.
Definition GetProcessed (s : WorkerStats) : Z := tasksProcessed s.
Definition GetFailed (s : WorkerStats) : Z := tasksFailed s.
Definition GetRetried (s : WorkerStats) : Z := tasksRetried s.
Definition GetActive (s : WorkerStats) : Z := activeWorkers s.

(** The result is a [time.Duration]: the [uint64] quotient converted to
    [int64]. *)
Definition GetAverageProcessTime (s : WorkerStats) : Z :=
  let processed := tasksProcessed s in
  if processed =? 0 then 0
  else
    let totalNanos := totalProcessTime s in
    let avgNanos := totalNanos / processed in
    to_i64 avgNanos.

Definition Reset (s : WorkerStats) : WorkerStats :=
  mkStats 0 0 0 0 0 0 (running s).

(** [GetSuccessRate] and [GetSnapshot] compute with [float64] and are not
    modelled. *)

Definition IsRunning (s : WorkerStats) : bool := running s.

Definition Stop (s : WorkerStats) : WorkerStats :=
  mkStats (tasksSubmitted s) (tasksProcessed s) (tasksFailed s)
          (tasksRetried s) (totalProcessTime s) (activeWorkers s) false.

End Stats.

(** ** Contexts, channels and [select] *)

(** What a call can do besides returning: a Go panic (send on a closed
    channel, close of a closed channel, nil dereference). *)
Inductive Outcome (A : Type) : Type :=
| Returns (a : A)
| Panics (msg : string).

Arguments Returns {A} a.
Arguments Panics {A} msg.

(** A [context.Context] as the worker observes it: [Err ctx] is what
    [ctx.Err()] returns, and [ctx.Done()] is readable exactly when it is not
    [nil]. *)
Record Context : Type := mkContext { Err : error }.

Definition ctxDone (ctx : Context) : bool :=
  match Err ctx with Some _ => true | None => false end.

Definition Background : Context := mkContext None.
Definition Canceled : Context := mkContext (Some "context canceled").

Module Chan.

(** A buffered channel: the queued elements (oldest first), the capacity
    given to [make], and whether [close] was called. *)
Record t (A : Type) : Type := mk {
  buf    : list A;
  cap    : Z;
  closed : bool
}.

Arguments mk {A} buf cap closed.

Definition make {A : Type} (n : Z) : t A := mk [] n false.

Definition len {A : Type} (c : t A) : Z := Z.of_nat (List.length (buf c)).

(** A send case of a [select] can proceed when the buffer has room, and also
    on a closed channel, where proceeding is a panic. *)
Definition sendReady {A : Type} (c : t A) : bool :=
  closed c || (len c <? cap c).

Definition send {A : Type} (c : t A) (x : A) : Outcome (t A) :=
  if closed c then Panics "send on closed channel"
  else Returns (mk (buf c ++ [x])%list (cap c) false).

(** A receive can proceed on a non-empty buffer and on a closed channel. *)
Definition recvReady {A : Type} (c : t A) : bool :=
  match buf c with
  | [] => closed c
  | _ :: _ => true
  end.

(** [x, ok := <-c] for a receive that proceeds: the oldest element, or
    [ok = false] (here [None]) on a closed and drained channel. *)
Definition recv {A : Type} (c : t A) : option A * t A :=
  match buf c with
  | [] => (None, c)
  | x :: rest => (Some x, mk rest (cap c) (closed c))
  end.

Definition close {A : Type} (c : t A) : Outcome (t A) :=
  if closed c then Panics "close of closed channel"
  else Returns (mk (buf c) (cap c) true).

End Chan.

(** The indices of the cases that can proceed. *)
Fixpoint readyFrom (i : nat) (cases : list bool) : list nat :=
  match cases with
  | [] => []
  | b :: rest => ((if b then [i] else []) ++ readyFrom (S i) rest)%list
  end.

(** A [select] over communication cases whose readiness is [cases]: one of
    the ready cases is chosen ([pick] stands for the runtime's pseudo-random
    choice); [None] when none is ready, which runs the [default] case when
    there is one. *)
Definition selectCase (cases : list bool) (pick : nat) : option nat :=
  match readyFrom 0 cases with
  | [] => None
  | r :: rs => Some (nth (Nat.modulo pick (List.length (r :: rs))) (r :: rs) r)
  end.

(** ** The collaborators *)

(** Each call of a collaborator, in the order made. *)
Inductive Call : Type :=
| CallUpdateStatus (id : string) (status : TaskStatus)
| CallExecute (task : Task)
| CallPublish (topic : string) (message : string).

Section WorkerPool.

(** The state of everything outside the pool that the collaborators read
    and write, including what they see of the context passed to them. *)
Variable W : Type.

Record TaskRepository : Type := mkRepository {
  UpdateStatus : string -> TaskStatus -> W -> error * W
}.

(** [Execute] returns a Go pair: a result pointer (maybe [nil]) and an
    error. *)
Record TaskExecutor : Type := mkExecutor {
  Execute : Task -> W -> (option TaskResult * error) * W
}.

Record MessagePublisher : Type := mkPublisher {
  Publish : string -> string -> W -> error * W
}.

Record Env : Type := mkEnv {
  world : W;
  calls : list Call
}.

(** Computations that call collaborators. *)
Definition M (A : Type) : Type := Env -> A * Env.

Definition ret {A : Type} (a : A) : M A := fun e => (a, e).

Definition bind {A B : Type} (m : M A) (k : A -> M B) : M B :=
  fun e => let (a, e') := m e in k a e'.

Definition call {A : Type} (c : Call) (f : W -> A * W) : M A :=
  fun e => let (a, wd) := f (world e) in (a, mkEnv wd (calls e ++ [c])%list).

Notation "x <- m ;; k" := (bind m (fun x => k))
  (at level 61, m at next level, right associativity).

(** ** worker.go *)

Record WorkerConfig : Type := mkConfig {
  cfgRepository      : option TaskRepository;
  cfgExecutor        : option TaskExecutor;
  cfgPublisher       : option MessagePublisher;
  cfgStats           : option Stats.WorkerStats;
  cfgWorkerCount     : Z;
  cfgBufferSize      : Z;
  cfgShutdownTimeout : Z;
  cfgProcessTimeout  : Z
}.

(** The wait group, the mutex and the logger carry no data of their own;
    the goroutines the wait group counts are part of [Pool] below. *)
Record Worker : Type := mkWorker {
  repo            : TaskRepository;
  executor        : TaskExecutor;
  publisher       : MessagePublisher;
  stats           : Stats.WorkerStats;
  workerCount     : Z;
  taskChan        : Chan.t Task;
  resultChan      : Chan.t TaskResult;
  shutdownTimeout : Z;
  processTimeout  : Z;
  running         : bool
}.

Definition withStats (w : Worker) (s : Stats.WorkerStats) : Worker :=
  mkWorker (repo w) (executor w) (publisher w) s (workerCount w)
           (taskChan w) (resultChan w) (shutdownTimeout w)
           (processTimeout w) (running w).

Definition withTaskChan (w : Worker) (c : Chan.t Task) : Worker :=
  mkWorker (repo w) (executor w) (publisher w) (stats w) (workerCount w)
           c (resultChan w) (shutdownTimeout w) (processTimeout w)
           (running w).

Definition withResultChan (w : Worker) (c : Chan.t TaskResult) : Worker :=
  mkWorker (repo w) (executor w) (publisher w) (stats w) (workerCount w)
           (taskChan w) c (shutdownTimeout w) (processTimeout w)
           (running w).

Definition withRunning (w : Worker) (b : bool) : Worker :=
  mkWorker (repo w) (executor w) (publisher w) (stats w) (workerCount w)
           (taskChan w) (resultChan w) (shutdownTimeout w)
           (processTimeout w) b.

Definition orDefault (x : Z) (zero : Z -> bool) (d : Z) : Z :=
  if zero x then d else x.

(** [validateWorkerConfig], then [applyWorkerDefaults], then the struct. *)
Definition NewWorker (cfg : WorkerConfig) : string + Worker :=
  match cfgRepository cfg with
  | None => inl "repository is required"
  | Some r =>
    match cfgExecutor cfg with
    | None => inl "executor is required"
    | Some x =>
      match cfgPublisher cfg with
      | None => inl "publisher is required"
      | Some p =>
        let st := match cfgStats cfg with
                  | None => Stats.NewWorkerStats
                  | Some s => s
                  end in
        let n := orDefault (cfgWorkerCount cfg) (fun v => v <=? 0)
                           DefaultWorkerCount in
        let b := orDefault (cfgBufferSize cfg) (fun v => v <=? 0)
                           DefaultBufferSize in
        let sd := orDefault (cfgShutdownTimeout cfg) (fun v => v =? 0)
                            DefaultShutdownTimeout in
        let pt := orDefault (cfgProcessTimeout cfg) (fun v => v =? 0)
                            DefaultProcessTimeout in
        inr (mkWorker r x p st n (Chan.make b) (Chan.make b) sd pt false)
      end
    end
  end.

(** [Start]: the flag flips under the mutex; the goroutines it spawns are
    the [idle] loops of [Pool]. *)
Definition Start (w : Worker) : error * Worker :=
  if running w then (Some ErrWorkerRunning, w)
  else (None, withRunning w true).

(** [updateTaskStatus]: one [UpdateStatus] call, its error wrapped. *)
Definition updateTaskStatus (w : Worker) (taskID : string)
           (status : TaskStatus) : M error :=
  err <- call (CallUpdateStatus taskID status)
              (UpdateStatus (repo w) taskID status) ;;
  match err with
  | Some m => ret (Some (wrapf "update status" m))
  | None => ret None
  end.

(** [executeTask]: status to Processing, [Execute], status to Failed or
    Completed. *)
Definition executeTask (w : Worker) (task : Task)
  : M (option TaskResult * error) :=
  err <- updateTaskStatus w (ID task) TaskStatusProcessing ;;
  match err with
  | Some m => ret (None, Some (wrapf "update status" m))
  | None =>
    re <- call (CallExecute task) (Execute (executor w) task) ;;
    match snd re with
    | Some m =>
      updateErr <- updateTaskStatus w (ID task) TaskStatusFailed ;;
      ret (None, Some (wrapf "execute task" m))
    | None =>
      err' <- updateTaskStatus w (ID task) TaskStatusCompleted ;;
      match err' with
      | Some m' => ret (None, Some (wrapf "update completed status" m'))
      | None => ret (fst re, None)
      end
    end
  end.

(** [sendResult]: a [select] over [ctx.Done()] and the send, with a
    [default] that drops the result. *)
Definition sendResult (w : Worker) (ctx : Context) (result : TaskResult)
           (pick : nat) : Outcome unit * Worker :=
  match selectCase [ctxDone ctx; Chan.sendReady (resultChan w)] pick with
  | Some O => (Returns tt, w)
  | Some (S _) =>
    match Chan.send (resultChan w) result with
    | Returns c => (Returns tt, withResultChan w c)
    | Panics msg => (Panics msg, w)
    end
  | None => (Returns tt, w)
  end.

(** [handleTaskError]; [now] is the [time.Now()] of the result. *)
Definition handleTaskError (w : Worker) (ctx : Context) (task : Task)
           (err : string) (now : Z) (pick : nat) : Outcome unit * Worker :=
  let w1 := withStats w (Stats.RecordFailed (stats w)) in
  let w2 := if Retries task >? 0
            then withStats w1 (Stats.RecordRetry (stats w1))
            else w1 in
  let result := mkTaskResult [] now (ID task) err 0 false in
  sendResult w2 ctx result pick.

(** [processTask]; [duration] is [time.Since(start)]. The deferred
    [DecrementActive] runs on every exit, a panic included. *)
Definition processTask (w : Worker) (ctx : Context) (task : Task)
           (duration now : Z) (pick : nat) (e : Env)
  : Outcome unit * Worker * Env :=
  let w1 := withStats w (Stats.IncrementActive (stats w)) in
  let '(result, err, e1) := executeTask w1 task e in
  let '(out, w2) :=
    match err with
    | Some m => handleTaskError w1 ctx task m now pick
    | None =>
      match result with
      | None => (Panics "nil pointer dereference", w1)
      | Some r =>
        let r' := withDuration r duration in
        let w' := withStats w1 (Stats.RecordProcessed duration (stats w1)) in
        sendResult w' ctx r' pick
      end
    end in
  (out, withStats w2 (Stats.DecrementActive (stats w2)), e1).

(** The [select] of [SubmitTask], after the running check and the
    [RecordSubmission]. *)
Definition submitSelect (w : Worker) (ctx : Context) (task : Task)
           (pick : nat) : Outcome error * Worker :=
  match selectCase [ctxDone ctx; Chan.sendReady (taskChan w)] pick with
  | Some O => (Returns (Err ctx), w)
  | Some (S _) =>
    match Chan.send (taskChan w) task with
    | Returns c => (Returns None, withTaskChan w c)
    | Panics msg => (Panics msg, w)
    end
  | None => (Returns (Some ErrTaskQueueFull), w)
  end.

Definition SubmitTask (w : Worker) (ctx : Context) (task : Task)
           (pick : nat) : Outcome error * Worker :=
  if negb (running w) then (Returns (Some ErrWorkerNotRunning), w)
  else
    let w1 := withStats w (Stats.RecordSubmission (stats w)) in
    submitSelect w1 ctx task pick.

(** [Shutdown]. [wait] is the outcome of its final [select]: [None] when
    the goroutines finished first (the helper goroutine has then closed the
    result channel), [Some e] when the shutdown context was done first, [e]
    being the text of its error. After a timeout the goroutines go on
    detached; that later part of the run is not part of the call. *)
Definition Shutdown (w : Worker) (wait : option string)
  : Outcome error * Worker :=
  if negb (running w) then (Returns (Some ErrWorkerNotRunning), w)
  else
    let w1 := withRunning w false in
    match Chan.close (taskChan w1) with
    | Panics msg => (Panics msg, w1)
    | Returns tc =>
      let w2 := withTaskChan w1 tc in
      match wait with
      | Some e => (Returns (Some (wrapf "shutdown timeout" e)), w2)
      | None =>
        match Chan.close (resultChan w2) with
        | Panics msg => (Panics msg, w2)
        | Returns rc =>
          let w3 := withResultChan w2 rc in
          (Returns None, withStats w3 (Stats.Stop (stats w3)))
        end
      end
    end.

Definition IsRunning (w : Worker) : bool := running w.

(** [formatResultMessage]: the JSON text with the task id and the success
    flag. *)
Definition dquote : string := String (Ascii.ascii_of_nat 34) EmptyString.

Definition formatResultMessage (result : TaskResult) : string :=
  ("{" ++ dquote ++ "task_id" ++ dquote ++ ":" ++ dquote ++ TaskID result
       ++ dquote ++ "," ++ dquote ++ "success" ++ dquote ++ ":"
       ++ (if Success result then "true" else "false") ++ "}")%string.

(** [publishResult]: a publish failure is logged and dropped. *)
Definition publishResult (w : Worker) (result : TaskResult) : M unit :=
  err <- call (CallPublish "task.results" (formatResultMessage result))
              (Publish (publisher w) "task.results"
                       (formatResultMessage result)) ;;
  ret tt.

(** One turn of the [select] of [processTasksLoop]: [None] when the loop
    stays blocked, [Some (None, w)] when it returns (context done, or
    channel closed and drained), [Some (Some task, w')] when it received
    [task] and goes on to [processTask]. *)
Definition processTasksLoopSelect (w : Worker) (ctx : Context) (pick : nat)
  : option (option Task * Worker) :=
  match selectCase [ctxDone ctx; Chan.recvReady (taskChan w)] pick with
  | None => None
  | Some O => Some (None, w)
  | Some (S _) =>
    match Chan.recv (taskChan w) with
    | (None, _) => Some (None, w)
    | (Some task, c) => Some (Some task, withTaskChan w c)
    end
  end.

(** The same for [processResultsLoop]. *)
Definition processResultsLoopSelect (w : Worker) (ctx : Context)
           (pick : nat) : option (option TaskResult * Worker) :=
  match selectCase [ctxDone ctx; Chan.recvReady (resultChan w)] pick with
  | None => None
  | Some O => Some (None, w)
  | Some (S _) =>
    match Chan.recv (resultChan w) with
    | (None, _) => Some (None, w)
    | (Some result, c) => Some (Some result, withResultChan w c)
    end
  end.

(** ** The pool with its goroutines

    The shared [Worker], the collaborators' world, and where every
    goroutine and every caller inside [SubmitTask] stands:
    - [idle]: worker loops at their [select];
    - [holding]: tasks received by a loop whose [processTask] has not run;
    - [drains]: result loops at their [select];
    - [checked]: [SubmitTask] calls past the running check;
    - [submitting]: [SubmitTask] calls past [RecordSubmission], at their
      [select];
    - [crashed]: a goroutine panicked, which ends the program.

    A [SubmitTask] call that finds the pool not running returns at once,
    changes nothing and is not a step.

    What a goroutine observes of its context at a [select] is a parameter
    of the step, so the steps cover every cancellation timing. The body of
    [processTask] is one step: it changes each counter by at most one
    atomic add, so every counter value seen between its atomic operations
    is the value before or after the step. *)
Record Pool : Type := mkPool {
  worker     : Worker;
  env        : Env;
  idle       : nat;
  drains     : nat;
  holding    : list Task;
  checked    : list (Context * Task);
  submitting : list (Context * Task);
  crashed    : bool
}.

Definition isPanic {A : Type} (o : Outcome A) : bool :=
  match o with Panics _ => true | Returns _ => false end.

Inductive Label : Type :=
| LStart
| LSubmitCheck (ctx : Context) (task : Task)
| LSubmitRecord (ctx : Context) (task : Task)
| LSubmitSelect (ctx : Context) (task : Task)
| LLoopExit
| LLoopRecv (task : Task)
| LProcess (task : Task)
| LDrainExit
| LPublish (result : TaskResult)
| LShutdownClose
| LShutdownDone.

Inductive step : Pool -> Label -> Pool -> Prop :=
| step_start : forall p w',
    crashed p = false ->
    Start (worker p) = (None, w') ->
    step p LStart
         (mkPool w' (env p) (idle p + Z.to_nat (workerCount w'))
                 (drains p + 1) (holding p) (checked p) (submitting p)
                 false)
| step_submit_check : forall p ctx task,
    crashed p = false ->
    running (worker p) = true ->
    step p (LSubmitCheck ctx task)
         (mkPool (worker p) (env p) (idle p) (drains p) (holding p)
                 ((ctx, task) :: checked p) (submitting p) false)
| step_submit_record : forall p ctx task l1 l2,
    crashed p = false ->
    checked p = (l1 ++ (ctx, task) :: l2)%list ->
    step p (LSubmitRecord ctx task)
         (mkPool (withStats (worker p)
                            (Stats.RecordSubmission (stats (worker p))))
                 (env p) (idle p) (drains p) (holding p)
                 (l1 ++ l2)%list ((ctx, task) :: submitting p) false)
| step_submit_select : forall p ctx task l1 l2 pick out w',
    crashed p = false ->
    submitting p = (l1 ++ (ctx, task) :: l2)%list ->
    submitSelect (worker p) ctx task pick = (out, w') ->
    step p (LSubmitSelect ctx task)
         (mkPool w' (env p) (idle p) (drains p) (holding p) (checked p)
                 (l1 ++ l2)%list (isPanic out))
| step_loop_exit : forall p n ctx pick w',
    crashed p = false ->
    idle p = S n ->
    processTasksLoopSelect (worker p) ctx pick = Some (None, w') ->
    step p LLoopExit
         (mkPool w' (env p) n (drains p) (holding p) (checked p)
                 (submitting p) false)
| step_loop_recv : forall p n ctx pick task w',
    crashed p = false ->
    idle p = S n ->
    processTasksLoopSelect (worker p) ctx pick = Some (Some task, w') ->
    step p (LLoopRecv task)
         (mkPool w' (env p) n (drains p) (task :: holding p) (checked p)
                 (submitting p) false)
| step_process : forall p task l1 l2 ctx duration now pick out w' e',
    crashed p = false ->
    holding p = (l1 ++ task :: l2)%list ->
    processTask (worker p) ctx task duration now pick (env p)
      = (out, w', e') ->
    step p (LProcess task)
         (mkPool w' e' (S (idle p)) (drains p) (l1 ++ l2)%list (checked p)
                 (submitting p) (isPanic out))
| step_drain_exit : forall p n ctx pick w',
    crashed p = false ->
    drains p = S n ->
    processResultsLoopSelect (worker p) ctx pick = Some (None, w') ->
    step p LDrainExit
         (mkPool w' (env p) (idle p) n (holding p) (checked p)
                 (submitting p) false)
| step_publish : forall p ctx pick result w',
    crashed p = false ->
    (0 < drains p)%nat ->
    processResultsLoopSelect (worker p) ctx pick = Some (Some result, w') ->
    step p (LPublish result)
         (mkPool w' (snd (publishResult w' result (env p))) (idle p)
                 (drains p) (holding p) (checked p) (submitting p) false)
| step_shutdown_close : forall p out,
    crashed p = false ->
    running (worker p) = true ->
    Chan.close (taskChan (worker p)) = out ->
    step p LShutdownClose
         (mkPool (match out with
                  | Returns c =>
                    withTaskChan (withRunning (worker p) false) c
                  | Panics _ => withRunning (worker p) false
                  end)
                 (env p) (idle p) (drains p) (holding p) (checked p)
                 (submitting p) (isPanic out))
| step_shutdown_done : forall p out,
    crashed p = false ->
    idle p = O -> drains p = O -> holding p = [] ->
    Chan.close (resultChan (worker p)) = out ->
    step p LShutdownDone
         (mkPool (match out with
                  | Returns c =>
                    withStats (withResultChan (worker p) c)
                              (Stats.Stop (stats (worker p)))
                  | Panics _ => worker p
                  end)
                 (env p) (idle p) (drains p) (holding p) (checked p)
                 (submitting p) (isPanic out)).

(** The pool right after [NewWorker]: no goroutine, no call in progress. *)
Definition newPool (w : Worker) (e : Env) : Pool :=
  mkPool w e O O [] [] [] false.

(** [run p0 tr p]: [p] is reached from [p0] by the steps [tr], the latest
    first. *)
Inductive run (p0 : Pool) : list Label -> Pool -> Prop :=
| run_nil : run p0 [] p0
| run_step : forall tr p l p',
    run p0 tr p -> step p l p' -> run p0 (l :: tr) p'.

(** How many [RecordSubmission] steps a trace has. *)
Fixpoint submissions (tr : list Label) : Z :=
  match tr with
  | [] => 0
  | LSubmitRecord _ _ :: rest => submissions rest + 1
  | _ :: rest => submissions rest
  end.

End WorkerPool.

Arguments newPool {W} w e.
Arguments step {W} _ _ _.
Arguments run {W} p0 _ _.

(** [t'] differs from [t] in its [Flags] field at most. *)
Definition sameButFlags (t t' : Task) : Prop :=
  Data t' = Data t /\ CreatedAt t' = CreatedAt t /\ UpdatedAt t' = UpdatedAt t /\
  ID t' = ID t /\ Type_ t' = Type_ t /\ Status t' = Status t /\
  Retries t' = Retries t /\ MaxRetries t' = MaxRetries t.

(** [Flags] holds a [uint8]. *)
Definition flagsInRange (t : Task) : Prop := 0 <= Flags t < u8_max.

(** The collaborator calls made between two environments. *)
Definition newCalls {W : Type} (e e' : Env W) : list Call :=
  skipn (List.length (calls e)) (calls e').

(** ** Concrete pools

    Stub collaborators in the manner of the package's test mocks: the world
    is [unit], the repository fails on the statuses listed in [failOn]. *)

Definition stubRepository (failOn : list TaskStatus) : TaskRepository unit :=
  mkRepository
    (fun _ status u =>
       (if existsb (String.eqb status) failOn then Some "db down" else None, u)).

Definition stubExecutor : TaskExecutor unit :=
  mkExecutor
    (fun task u => ((Some (mkTaskResult [] 0 (ID task) "" 0 true), None), u)).

Definition stubPublisher : MessagePublisher unit :=
  mkPublisher (fun _ _ u => (None, u)).

Definition stubConfig (failOn : list TaskStatus) (buffer : Z)
  : WorkerConfig unit :=
  mkConfig (Some (stubRepository failOn)) (Some stubExecutor)
           (Some stubPublisher) None 2 buffer 0 0.

(** What [NewWorker (stubConfig failOn buffer)] returns for a positive
    [buffer]. *)
Definition stubWorker (failOn : list TaskStatus) (buffer : Z) : Worker unit :=
  mkWorker (stubRepository failOn) stubExecutor stubPublisher
           Stats.NewWorkerStats 2 (Chan.make buffer) (Chan.make buffer)
           DefaultShutdownTimeout DefaultProcessTimeout false.

(** The same after [Start]. *)
Definition startedWorker (failOn : list TaskStatus) (buffer : Z)
  : Worker unit :=
  withRunning (stubWorker failOn buffer) true.

Definition task1 : Task :=
  mkTask [] 0 0 "task-1" "email" TaskStatusPending 0 3 TaskFlagDefault.

Definition task2 : Task :=
  mkTask [] 0 0 "task-2" "sms" TaskStatusPending 0 3 TaskFlagDefault.

Definition env0 : Env unit := mkEnv tt [].

(** A running pool of capacity one whose queue already holds [task1]. *)
Definition fullWorker : Worker unit :=
  withTaskChan (startedWorker [] 1) (Chan.mk [task1] 1 false).

(** The counting invariant of the pool after [n] [RecordSubmission] steps:
    the counters are the true counts modulo 2^64, and every task counted as
    processed or failed, held by a loop, queued, or about to be offered to
    the queue was counted as submitted. *)
Definition counted {W : Type} (n : Z) (p : Pool W) : Prop :=
  exists np nf : Z,
    0 <= np /\ 0 <= nf /\
    Stats.tasksSubmitted (stats (worker p)) = to_u64 n /\
    Stats.tasksProcessed (stats (worker p)) = to_u64 np /\
    Stats.tasksFailed (stats (worker p)) = to_u64 nf /\
    np + nf + Z.of_nat (List.length (holding p))
    + Z.of_nat (List.length (Chan.buf (taskChan (worker p))))
    + Z.of_nat (List.length (submitting p)) <= n.

(** What a step adds to the number of recorded submissions. *)
Definition stepCount (l : Label) (n : Z) : Z :=
  match l with
  | LSubmitRecord _ _ => n + 1
  | _ => n
  end.

(** A short run of the pool of capacity one: [Start], one [SubmitTask] of
    [task1] in its three steps, a loop receiving the task and processing
    it. The pools are the states after each step. *)
Definition demoPool1 : Pool unit :=
  mkPool (startedWorker [] 1) env0 2 1 [] [] [] false.

Definition demoPool2 : Pool unit :=
  mkPool (startedWorker [] 1) env0 2 1 [] [(Background, task1)] [] false.

Definition demoPool3 : Pool unit :=
  mkPool (withStats (startedWorker [] 1)
                    (Stats.RecordSubmission (stats (startedWorker [] 1))))
         env0 2 1 [] [] [(Background, task1)] false.

Definition demoPool4 : Pool unit :=
  mkPool (snd (submitSelect (worker demoPool3) Background task1 0))
         env0 2 1 [] [] [] false.

Definition demoPool5 : Pool unit :=
  mkPool (withTaskChan (worker demoPool4) (Chan.mk [] 1 false))
         env0 1 1 [task1] [] [] false.

Definition demoPool6 : Pool unit :=
  let r := processTask (worker demoPool5) Background task1 5 7 0 env0 in
  mkPool (snd (fst r)) (snd r) 2 1 [] [] [] false.

Definition demoTrace : list Label :=
  [ LProcess task1; LLoopRecv task1; LSubmitSelect Background task1;
    LSubmitRecord Background task1; LSubmitCheck Background task1; LStart ].

(** ** Helpers for statements about several calls *)

(** [RecordProcessed] once per duration, in order. *)
Definition recordAll (durations : list Z) (s : Stats.WorkerStats)
  : Stats.WorkerStats :=
  fold_left (fun acc d => Stats.RecordProcessed d acc) durations s.

Definition sumZ (l : list Z) : Z := fold_right Z.add 0 l.

(** [SubmitTask] once per task, in order, by one caller; [picks] are the
    choices of the successive [select]s. The worker after a call that
    panics is where the program stops. *)
Fixpoint submitAll {W : Type} (w : Worker W) (ctx : Context)
         (tasks : list Task) (picks : list nat)
  : list (Outcome error) * Worker W :=
  match tasks with
  | [] => ([], w)
  | task :: rest =>
    let pick := hd O picks in
    let '(out, w1) := SubmitTask w ctx task pick in
    match out with
    | Panics _ => ([out], w1)
    | Returns _ =>
      let '(outs, w2) := submitAll w1 ctx rest (tl picks) in
      (out :: outs, w2)
    end
  end.

(** A stub executor that always fails, and a running pool that uses it. *)
Definition failingExecutor : TaskExecutor unit :=
  mkExecutor (fun _ u => ((None, Some "boom"), u)).

Definition failingWorker (failOn : list TaskStatus) (buffer : Z)
  : Worker unit :=
  mkWorker (stubRepository failOn) failingExecutor stubPublisher
           Stats.NewWorkerStats 2 (Chan.make buffer) (Chan.make buffer)
           DefaultShutdownTimeout DefaultProcessTimeout true.

(** A task on its second attempt. *)
Definition retriedTask : Task :=
  mkTask [] 0 0 "task-3" "email" TaskStatusPending 1 3 TaskFlagDefault.

(** ** One worker loop, run in sequence

    [processTasksLoop] as one goroutine runs it while no other goroutine
    touches the pool and the context stays as it is: each turn is the
    [select], then [processTask] on the task received. A turn needs the
    runtime's two [select] choices and the two clock readings. The loop ends
    by returning, by blocking on an empty open channel, or with a panic of
    [processTask]; [LoopRunning] only says that [fuel] turns were not
    enough. The tasks taken are listed in order. *)
Inductive LoopEnd : Type :=
| LoopReturned
| LoopBlocked
| LoopPanicked (msg : string)
| LoopRunning.

Record Turn : Type := mkTurn {
  selectPick : nat;
  sinceStart : Z;
  clockNow   : Z;
  sendPick   : nat
}.

Definition turn0 : Turn := mkTurn 0 0 0 0.

Fixpoint processTasksLoop {W : Type} (fuel : nat) (w : Worker W)
         (ctx : Context) (turns : list Turn) (e : Env W)
  : LoopEnd * list Task * Worker W * Env W :=
  match fuel with
  | O => (LoopRunning, [], w, e)
  | S fuel' =>
    let t := hd turn0 turns in
    match processTasksLoopSelect w ctx (selectPick t) with
    | None => (LoopBlocked, [], w, e)
    | Some (None, w1) => (LoopReturned, [], w1, e)
    | Some (Some task, w1) =>
      let '(out, w2, e2) :=
        processTask w1 ctx task (sinceStart t) (clockNow t) (sendPick t) e in
      match out with
      | Panics msg => (LoopPanicked msg, [task], w2, e2)
      | Returns _ =>
        let '(ending, taken, w3, e3) :=
          processTasksLoop fuel' w2 ctx (tl turns) e2 in
        (ending, task :: taken, w3, e3)
      end
    end
  end.

(** Both channels keep the capacity [cap0] and never hold more than it. *)
Definition wBounded {W : Type} (cap0 : Z) (w : Worker W) : Prop :=
  Chan.cap (taskChan w) = cap0 /\
  Chan.cap (resultChan w) = cap0 /\
  Chan.len (taskChan w) <= cap0 /\
  Chan.len (resultChan w) <= cap0.

Definition chansBounded {W : Type} (cap0 : Z) (p : Pool W) : Prop :=
  wBounded cap0 (worker p).

(** A pool after [Shutdown] with two tasks still queued. *)
Definition drainingWorker : Worker unit :=
  withRunning
    (withTaskChan (startedWorker [] 10) (Chan.mk [task1; task2] 10 true))
    false.

(** How many [processTask] steps a trace has. *)
Fixpoint processings (tr : list Label) : Z :=
  match tr with
  | [] => 0
  | LProcess _ :: rest => processings rest + 1
  | _ :: rest => processings rest
  end.

Definition processCount (l : Label) (n : Z) : Z :=
  match l with
  | LProcess _ => n + 1
  | _ => n
  end.

(** After [n] [processTask] steps the failed and retried counters are true
    counts modulo 2^64, of at most [n] failures and no more retries than
    failures. *)
Definition failuresCounted {W : Type} (n : Z) (p : Pool W) : Prop :=
  exists nf nr : Z,
    0 <= nr /\ nr <= nf /\ nf <= n /\
    Stats.tasksFailed (stats (worker p)) = to_u64 nf /\
    Stats.tasksRetried (stats (worker p)) = to_u64 nr.

(** ** Status order

    The stage of a status in the life of a task; statuses that are not
    defined have none. *)
Definition statusRank (s : TaskStatus) : option Z :=
  if String.eqb s TaskStatusPending then Some 0
  else if String.eqb s TaskStatusProcessing then Some 1
  else if String.eqb s TaskStatusCompleted then Some 2
  else if String.eqb s TaskStatusFailed then Some 2
  else None.

Definition withStatus (t : Task) (s : TaskStatus) : Task :=
  mkTask (Data t) (CreatedAt t) (UpdatedAt t) (ID t) (Type_ t) s
         (Retries t) (MaxRetries t) (Flags t).

(** ** task_request.go *)

Definition DefaultMaxRetries : Z := 3.
Definition MaxRetryLimit : Z := 10.

Definition ErrInvalidTaskType : string := "task type is required".
Definition ErrInvalidTaskData : string := "task data is required".

(** [reqData] is [None] for a nil map, which differs from an empty one. *)
Record CreateTaskRequest : Type := mkRequest {
  reqData       : option (list (string * string));
  reqType       : string;
  reqMaxRetries : Z;
  reqFlags      : Z
}.

Definition Validate (r : CreateTaskRequest) : error :=
  if String.eqb (reqType r) "" then Some ErrInvalidTaskType
  else match reqData r with
       | None => Some ErrInvalidTaskData
       | Some _ =>
         if reqMaxRetries r <? 0 then Some "max retries cannot be negative"
         else if reqMaxRetries r >? MaxRetryLimit
              then Some "max retries exceeds limit"
              else None
       end.

(** ** iterators.go

    A Go iterator [iter.Seq[V]] is a function that calls [yield] on each
    element and must stop as soon as [yield] returns false. Here the loop
    body of the consumer is a function [V -> S -> bool * S] on the consumer's
    state [S], and the iterator maps the state before the loop to the state
    after it. Predicates and mappers are pure functions. *)

Definition Seq (V : Type) : Type :=
  forall S : Type, (V -> S -> bool * S) -> S -> S.

Definition Seq2 (K V : Type) : Type :=
  forall S : Type, (K -> V -> S -> bool * S) -> S -> S.

Definition TaskIterator : Type := Seq Task.
Definition TaskPairIterator : Type := Seq2 Z Task.

(** [for _, x := range l { if !yield(x) { return } }]: the flag tells
    whether the loop ran to its end. *)
Fixpoint forEach {V S : Type} (l : list V) (yield : V -> S -> bool * S)
         (s : S) : bool * S :=
  match l with
  | [] => (true, s)
  | x :: rest =>
    let (continue, s') := yield x s in
    if continue then forEach rest yield s' else (false, s')
  end.

Definition IterateTasks (tasks : list Task) : TaskIterator :=
  fun S yield s => snd (forEach tasks yield s).

Fixpoint indexLoop {S : Type} (tasks : list Task) (i : Z)
         (yield : Z -> Task -> S -> bool * S) (s : S) : S :=
  match tasks with
  | [] => s
  | task :: rest =>
    let (continue, s') := yield i task s in
    if continue then indexLoop rest (i + 1) yield s' else s'
  end.

Definition IterateTasksWithIndex (tasks : list Task) : TaskPairIterator :=
  fun S yield s => indexLoop tasks 0 yield s.

(** The loop of [slices.Backward] over the reversed slice: the index counts
    down from [len - 1]. *)
Fixpoint backwardLoop {S : Type} (reversed : list Task) (i : Z)
         (yield : Z -> Task -> S -> bool * S) (s : S) : S :=
  match reversed with
  | [] => s
  | task :: rest =>
    let (continue, s') := yield i task s in
    if continue then backwardLoop rest (i - 1) yield s' else s'
  end.

Definition IterateBackward (tasks : list Task) : TaskPairIterator :=
  fun S yield s =>
    backwardLoop (rev tasks) (Z.of_nat (List.length tasks) - 1) yield s.

Fixpoint filterLoop {S : Type} (tasks : list Task) (predicate : Task -> bool)
         (yield : Task -> S -> bool * S) (s : S) : S :=
  match tasks with
  | [] => s
  | task :: rest =>
    if predicate task then
      let (continue, s') := yield task s in
      if continue then filterLoop rest predicate yield s' else s'
    else filterLoop rest predicate yield s
  end.

Definition FilterTasks (tasks : list Task) (predicate : Task -> bool)
  : TaskIterator :=
  fun S yield s => filterLoop tasks predicate yield s.

Definition FilterByStatus (tasks : list Task) (status : TaskStatus)
  : TaskIterator :=
  FilterTasks tasks (fun t => String.eqb (Status t) status).

Definition FilterByType (tasks : list Task) (taskType : string)
  : TaskIterator :=
  FilterTasks tasks (fun t => String.eqb (Type_ t) taskType).

Definition MapTasks {T : Type} (tasks : list Task) (mapper : Task -> T)
  : Seq T :=
  fun S yield s => snd (forEach tasks (fun task => yield (mapper task)) s).

Definition TaskIDs (tasks : list Task) : Seq string := MapTasks tasks ID.
Definition TaskTypes (tasks : list Task) : Seq string := MapTasks tasks Type_.

Fixpoint takeLoop {S : Type} (tasks : list Task) (n count : Z)
         (yield : Task -> S -> bool * S) (s : S) : S :=
  match tasks with
  | [] => s
  | task :: rest =>
    if count >=? n then s
    else
      let (continue, s') := yield task s in
      if continue then takeLoop rest n (count + 1) yield s' else s'
  end.

Definition TakeTasks (tasks : list Task) (n : Z) : TaskIterator :=
  fun S yield s => takeLoop tasks n 0 yield s.

Fixpoint skipLoop {S : Type} (tasks : list Task) (n i : Z)
         (yield : Task -> S -> bool * S) (s : S) : S :=
  match tasks with
  | [] => s
  | task :: rest =>
    if i <? n then skipLoop rest n (i + 1) yield s
    else
      let (continue, s') := yield task s in
      if continue then skipLoop rest n (i + 1) yield s' else s'
  end.

Definition SkipTasks (tasks : list Task) (n : Z) : TaskIterator :=
  fun S yield s => skipLoop tasks n 0 yield s.

Fixpoint chainLoop {S : Type} (taskSlices : list (list Task))
         (yield : Task -> S -> bool * S) (s : S) : S :=
  match taskSlices with
  | [] => s
  | tasks :: more =>
    let (finished, s') := forEach tasks yield s in
    if finished then chainLoop more yield s' else s'
  end.

Definition ChainTasks (taskSlices : list (list Task)) : TaskIterator :=
  fun S yield s => chainLoop taskSlices yield s.

Definition IteratePending (tasks : list Task) : TaskIterator :=
  FilterByStatus tasks TaskStatusPending.
Definition IterateProcessing (tasks : list Task) : TaskIterator :=
  FilterByStatus tasks TaskStatusProcessing.
Definition IterateCompleted (tasks : list Task) : TaskIterator :=
  FilterByStatus tasks TaskStatusCompleted.
Definition IterateFailed (tasks : list Task) : TaskIterator :=
  FilterByStatus tasks TaskStatusFailed.

Arguments IterateTasks : clear implicits.
Arguments IterateTasksWithIndex : clear implicits.
Arguments IterateBackward : clear implicits.
Arguments FilterTasks : clear implicits.
Arguments FilterByStatus : clear implicits.
Arguments FilterByType : clear implicits.
Arguments TakeTasks : clear implicits.
Arguments SkipTasks : clear implicits.
Arguments ChainTasks : clear implicits.
Arguments TaskIDs : clear implicits.
Arguments TaskTypes : clear implicits.
Arguments IteratePending : clear implicits.
Arguments IterateProcessing : clear implicits.
Arguments IterateCompleted : clear implicits.
Arguments IterateFailed : clear implicits.

(** [tasks[i:j]] for indices already checked to satisfy [0 <= i <= j <= len]. *)
Definition slice {V : Type} (l : list V) (i j : Z) : list V :=
  firstn (Z.to_nat (j - i)) (skipn (Z.to_nat i) l).

(** [ChunkTasks]: the loop [for i := 0; i < len(tasks); i += chunkSize].
    With a chunk size that is not positive it need not end, so the loop
    takes [fuel], one unit per turn: [None] says the loop is still running
    when the fuel is spent. A slice expression whose bounds are out of order
    panics. The additions stay far inside the [int] range: [i] is below the
    length of a slice whenever [chunkSize] is added to it. *)
Fixpoint chunkLoop {S : Type} (fuel : nat) (tasks : list Task)
         (chunkSize i : Z) (yield : list Task -> S -> bool * S) (s : S)
  : option (Outcome S) :=
  let len := Z.of_nat (List.length tasks) in
  if i <? len then
    match fuel with
    | O => None
    | S fuel' =>
      let stop := if i + chunkSize >? len then len else i + chunkSize in
      if (0 <=? i) && (i <=? stop) then
        let (continue, s') := yield (slice tasks i stop) s in
        if continue then chunkLoop fuel' tasks chunkSize (i + chunkSize) yield s'
        else Some (Returns s')
      else Some (Panics "slice bounds out of range")
    end
  else Some (Returns s).

Definition ChunkTasks (fuel : nat) (tasks : list Task) (chunkSize : Z)
           {S : Type} (yield : list Task -> S -> bool * S) (s : S)
  : option (Outcome S) :=
  chunkLoop fuel tasks chunkSize 0 yield s.

(** The consumers. *)
Definition collectBody {V : Type} (x : V) (acc : list V) : bool * list V :=
  (true, (acc ++ [x])%list).

Definition CollectIterator (it : TaskIterator) : list Task :=
  it (list Task) collectBody [].

Definition CountIterator (it : TaskIterator) : Z :=
  it Z (fun _ count => (true, count + 1)) 0.

Definition AnyMatch (it : TaskIterator) (predicate : Task -> bool) : bool :=
  it bool (fun task _ => if predicate task then (false, true)
                         else (true, false)) false.

Definition AllMatch (it : TaskIterator) (predicate : Task -> bool) : bool :=
  it bool (fun task _ => if negb (predicate task) then (false, false)
                         else (true, true)) true.

Definition FirstMatch (it : TaskIterator) (predicate : Task -> bool)
  : option Task :=
  it (option Task) (fun task _ => if predicate task then (false, Some task)
                                  else (true, None)) None.

(** A loop body that counts its runs and breaks at the first element
    satisfying [stop]: how far an iterator was driven. *)
Definition countUntil {V : Type} (stop : V -> bool) (x : V) (runs : nat)
  : bool * nat :=
  (negb (stop x), S runs).

(** How many elements of [l] a loop that breaks at the first element
    satisfying [stop] runs on. *)
Fixpoint runsUntil {V : Type} (stop : V -> bool) (l : list V) : nat :=
  match l with
  | [] => O
  | x :: rest => if stop x then 1%nat else S (runsUntil stop rest)
  end.

(** The loop body that collects (index, task) pairs. *)
Definition collectPair (i : Z) (task : Task) (acc : list (Z * Task))
  : bool * list (Z * Task) :=
  (true, (acc ++ [(i, task)])%list).

(** The (index, task) pairs of a slice from index [i] on. *)
Fixpoint indexedFrom (i : Z) (tasks : list Task) : list (Z * Task) :=
  match tasks with
  | [] => []
  | task :: rest => (i, task) :: indexedFrom (i + 1) rest
  end.

(** ** sync.Map, as one goroutine sees it

    The entries in the order they were first stored; a key occurs once.
    [Range] visits the entries in an order Go leaves open, so nothing below
    depends on the order. [eqb] compares keys. *)
Module SyncMap.

Section Ops.

Variables (K V : Type) (eqb : K -> K -> bool).

Definition t : Type := list (K * V).

Definition empty : t := [].

Fixpoint Load (m : t) (key : K) : option V :=
  match m with
  | [] => None
  | (k, v) :: rest => if eqb k key then Some v else Load rest key
  end.

Fixpoint Store (m : t) (key : K) (value : V) : t :=
  match m with
  | [] => [(key, value)]
  | (k, v) :: rest =>
    if eqb k key then (k, value) :: rest else (k, v) :: Store rest key value
  end.

(** The value now in the map, and whether it was there before. *)
Definition LoadOrStore (m : t) (key : K) (value : V) : (V * bool) * t :=
  match Load m key with
  | Some actual => ((actual, true), m)
  | None => ((value, false), Store m key value)
  end.

Fixpoint Delete (m : t) (key : K) : t :=
  match m with
  | [] => []
  | (k, v) :: rest => if eqb k key then rest else (k, v) :: Delete rest key
  end.

End Ops.

End SyncMap.

(** ** StatusIndex (sync_map.go): a counter per status

    The map holds pointers to [atomic.Uint64] counters; updating a counter
    in place is storing its new value under the same key. *)
Definition StatusIndex : Type := SyncMap.t TaskStatus Z.

Definition NewStatusIndex : StatusIndex := SyncMap.empty TaskStatus Z.

Definition StatusIndex_Increment (s : StatusIndex) (status : TaskStatus)
  : StatusIndex :=
  let '((counter, _), m) := SyncMap.LoadOrStore String.eqb s status 0 in
  SyncMap.Store String.eqb m status (to_u64 (counter + 1)).

(** [Add(^uint64(0))] adds 2^64 - 1. *)
Definition StatusIndex_Decrement (s : StatusIndex) (status : TaskStatus)
  : StatusIndex :=
  match SyncMap.Load String.eqb s status with
  | None => s
  | Some counter =>
    SyncMap.Store String.eqb s status (to_u64 (counter + (u64_max - 1)))
  end.

Definition StatusIndex_Get (s : StatusIndex) (status : TaskStatus) : Z :=
  match SyncMap.Load String.eqb s status with
  | None => 0
  | Some counter => counter
  end.

(** ** RouteCache (sync_map.go)

    [compute] may have effects of its own: it is a function on a state [St]
    of the caller. *)
Definition RouteCache : Type := SyncMap.t string Z.

Definition NewRouteCache : RouteCache := SyncMap.empty string Z.

Definition GetOrCompute {St : Type} (c : RouteCache) (taskType : string)
           (compute : St -> Z * St) (st : St) : Z * RouteCache * St :=
  match SyncMap.Load String.eqb c taskType with
  | Some value => (value, c, st)
  | None =>
    let (workerID, st') := compute st in
    let '((actual, _), c') := SyncMap.LoadOrStore String.eqb c taskType workerID in
    (actual, c', st')
  end.

Definition Invalidate (c : RouteCache) (taskType : string) : RouteCache :=
  SyncMap.Delete String.eqb c taskType.

Definition InvalidateAll (c : RouteCache) : RouteCache :=
  SyncMap.empty string Z.

(** ** SessionStore (sync_map.go); [now] is the reading of [time.Now()]. *)
Record Session : Type := mkSession {
  UserID      : string;
  ExpiresAt   : Z;
  SessionData : list (string * string)
}.

Definition SessionStore : Type := SyncMap.t string Session.

Definition NewSessionStore : SessionStore := SyncMap.empty string Session.

Definition SessionStore_Store (s : SessionStore) (sessionID : string)
           (session : Session) : SessionStore :=
  SyncMap.Store String.eqb s sessionID session.

(** [time.Now().After(ExpiresAt)]: strictly later. *)
Definition expired (now : Z) (session : Session) : bool :=
  ExpiresAt session <? now.

Definition SessionStore_Load (s : SessionStore) (sessionID : string) (now : Z)
  : option Session * SessionStore :=
  match SyncMap.Load String.eqb s sessionID with
  | None => (None, s)
  | Some session =>
    if expired now session
    then (None, SyncMap.Delete String.eqb s sessionID)
    else (Some session, s)
  end.

(** [CleanExpired]: one [Range] that deletes the expired entries and counts
    them. *)
Fixpoint cleanLoop (entries : list (string * Session)) (now : Z)
         (s : SessionStore) (removed : Z) : Z * SessionStore :=
  match entries with
  | [] => (removed, s)
  | (key, session) :: rest =>
    if expired now session
    then cleanLoop rest now (SyncMap.Delete String.eqb s key) (removed + 1)
    else cleanLoop rest now s removed
  end.

Definition CleanExpired (s : SessionStore) (now : Z) : Z * SessionStore :=
  cleanLoop s now s 0.

(** ** MetricsCollector (metrics_collector.go)

    [mcStats] is the [stats] pointer, nil before the first [Init];
    [mcInitDone] is the state of the [sync.Once]. The sample rate is a
    [float64] that no method reads and is left out. *)
Record MetricsCollector : Type := mkCollector {
  mcStats    : option Stats.WorkerStats;
  mcInitDone : bool;
  mcEnabled  : bool
}.

Definition NewMetricsCollector : MetricsCollector :=
  mkCollector None false false.

Definition MetricsCollector_Init (m : MetricsCollector)
  : option Stats.WorkerStats * MetricsCollector :=
  if mcInitDone m then (mcStats m, m)
  else (Some Stats.NewWorkerStats,
        mkCollector (Some Stats.NewWorkerStats) true true).

(** [Record]; calling a method on a nil [stats] would panic. *)
Definition MetricsCollector_Record (m : MetricsCollector)
  : Outcome MetricsCollector :=
  let (stats, m1) := MetricsCollector_Init m in
  if mcEnabled m1 then
    match stats with
    | None => Panics "nil pointer dereference"
    | Some s =>
      Returns (mkCollector (Some (Stats.RecordSubmission s))
                           (mcInitDone m1) (mcEnabled m1))
    end
  else Returns m1.

Fixpoint recordTimes (n : nat) (m : MetricsCollector)
  : Outcome MetricsCollector :=
  match n with
  | O => Returns m
  | S n' =>
    match MetricsCollector_Record m with
    | Returns m1 => recordTimes n' m1
    | Panics msg => Panics msg
    end
  end.

(** * Properties *)

(** ** Status transitions *)

Ltac status_cases H :=
  repeat (destruct H as [H | H]; [symmetry in H | ]); try contradiction.

(** C2. On the four defined statuses, [CanTransition] on a task whose status
    is [from] returns true for [to] exactly for the three edges
    pending->processing, processing->completed and processing->failed, and
    false for the thirteen other pairs. *)
Theorem CanTransition_four_by_four :
  forall (t : Task) (from to : TaskStatus),
    In from validStatuses -> In to validStatuses ->
    Status t = from ->
    (CanTransition t to = true <-> In (from, to) legalTransitions).
Proof.
  intros t from to Hf Ht Hs.
  unfold CanTransition. rewrite Hs. clear Hs t.
  simpl in Hf, Ht.
  status_cases Hf; status_cases Ht; subst from to; simpl;
    (split;
     [ intro H; first [ discriminate H | tauto ]
     | intro H; first [ reflexivity
                      | exfalso;
                        repeat (destruct H as [H | H]; [ inversion H | ]);
                        exact H ] ]).
Qed.

Lemma CanTransition_four_by_four_witness :
  CanTransition (mkTask [] 0 0 "t1" "email" TaskStatusProcessing 0 3 0)
                TaskStatusFailed = true
  <-> In (TaskStatusProcessing, TaskStatusFailed) legalTransitions.
Proof.
  apply (@CanTransition_four_by_four
           (mkTask [] 0 0 "t1" "email" TaskStatusProcessing 0 3 0)
           TaskStatusProcessing TaskStatusFailed).
  - simpl. tauto.
  - simpl. tauto.
  - reflexivity.
Defined.

(** C10. The status is an open string: on a task whose status is none of the
    four defined values, [CanTransition] returns false for every proposed
    status. *)
Theorem CanTransition_unknown_status :
  forall (t : Task) (newStatus : TaskStatus),
    ~ In (Status t) validStatuses ->
    CanTransition t newStatus = false.
Proof.
  intros t newStatus Hout.
  unfold CanTransition.
  destruct (String.eqb_spec (Status t) TaskStatusPending) as [E | _].
  { exfalso. apply Hout. rewrite E. simpl. tauto. }
  destruct (String.eqb_spec (Status t) TaskStatusProcessing) as [E | _].
  { exfalso. apply Hout. rewrite E. simpl. tauto. }
  destruct (String.eqb (Status t) TaskStatusCompleted
            || String.eqb (Status t) TaskStatusFailed); reflexivity.
Qed.

Lemma CanTransition_unknown_status_witness :
  CanTransition (mkTask [] 0 0 "t1" "email" "archived" 0 3 0)
                TaskStatusProcessing = false.
Proof.
  apply CanTransition_unknown_status.
  simpl. intros [H | [H | [H | [H | []]]]]; discriminate H.
Defined.

(** ** Bit flags *)

Lemma u8_bits_high (x : Z) :
  0 <= x < u8_max -> forall k, 8 <= k -> Z.testbit x k = false.
Proof.
  intros [Hlo Hhi] k Hk.
  destruct (Z.eq_dec x 0) as [-> | Hnz]; [apply Z.bits_0 | ].
  apply Z.bits_above_log2; [exact Hlo | ].
  assert (Z.log2 x < 8); [ | lia].
  apply Z.log2_lt_pow2; [lia | exact Hhi].
Qed.

Lemma u8_of_bits (x : Z) :
  0 <= x -> (forall k, 8 <= k -> Z.testbit x k = false) -> 0 <= x < u8_max.
Proof.
  intros Hlo Hbits. split; [exact Hlo | ].
  destruct (Z_lt_le_dec x u8_max) as [Hlt | Hge]; [exact Hlt | exfalso].
  assert (Hpos : 0 < x) by (unfold u8_max in Hge; lia).
  assert (H8 : 8 <= Z.log2 x) by (apply Z.log2_le_pow2; [exact Hpos | exact Hge]).
  specialize (Hbits (Z.log2 x) H8).
  rewrite (Z.bit_log2 x Hpos) in Hbits. discriminate Hbits.
Qed.

Lemma definedFlags_range (f : Z) : In f definedFlags -> 0 < f < u8_max.
Proof.
  unfold definedFlags, u8_max. simpl.
  intros [H | [H | [H | [H | []]]]]; subst f; vm_compute; split; reflexivity.
Qed.

(** The three updates keep [Flags] a [uint8], so no truncation is lost by
    computing them on [Z]. *)
Lemma flag_ops_in_range (t : Task) (f : Z) :
  flagsInRange t -> 0 <= f < u8_max ->
  flagsInRange (SetFlag t f) /\ flagsInRange (ClearFlag t f) /\
  flagsInRange (ToggleFlag t f).
Proof.
  unfold flagsInRange. simpl. intros Ht Hf.
  pose proof (u8_bits_high Ht) as Bt. pose proof (u8_bits_high Hf) as Bf.
  split; [ | split]; apply u8_of_bits.
  - apply Z.lor_nonneg. lia.
  - intros k Hk. rewrite Z.lor_spec, Bt, Bf by assumption. reflexivity.
  - apply Z.ldiff_nonneg. lia.
  - intros k Hk. rewrite Z.ldiff_spec, Bt by assumption. reflexivity.
  - apply Z.lxor_nonneg. lia.
  - intros k Hk. rewrite Z.lxor_spec, Bt, Bf by assumption. reflexivity.
Qed.

(** C8. For each of the four flag constants, [SetFlag], [ClearFlag] and
    [ToggleFlag] change no field but [Flags]; [HasFlag] is true after
    [SetFlag] and false after [ClearFlag]; two [ToggleFlag] restore [Flags].
    The operations are total functions, and on a [uint8] flag field their
    results are again [uint8] values: there is no failing case. *)
Theorem flag_operations :
  forall (t : Task) (f : Z),
    In f definedFlags ->
    sameButFlags t (SetFlag t f) /\
    sameButFlags t (ClearFlag t f) /\
    sameButFlags t (ToggleFlag t f) /\
    HasFlag (SetFlag t f) f = true /\
    HasFlag (ClearFlag t f) f = false /\
    Flags (ToggleFlag (ToggleFlag t f) f) = Flags t /\
    (flagsInRange t ->
     flagsInRange (SetFlag t f) /\ flagsInRange (ClearFlag t f) /\
     flagsInRange (ToggleFlag t f)).
Proof.
  intros t f Hf.
  pose proof (definedFlags_range Hf) as Hr.
  split; [repeat split | ].
  split; [repeat split | ].
  split; [repeat split | ].
  split; [ | split; [ | split]].
  - unfold HasFlag, SetFlag. simpl.
    assert (E : Z.land (Z.lor (Flags t) f) f = f).
    { apply Z.bits_inj'. intros k _.
      rewrite Z.land_spec, Z.lor_spec.
      destruct (Z.testbit (Flags t) k), (Z.testbit f k); reflexivity. }
    rewrite E.
    destruct (Z.eqb_spec f 0) as [E0 | _]; [lia | reflexivity].
  - unfold HasFlag, ClearFlag. simpl.
    rewrite Z.land_ldiff. reflexivity.
  - unfold ToggleFlag. simpl.
    rewrite Z.lxor_assoc, Z.lxor_nilpotent, Z.lxor_0_r. reflexivity.
  - intro Ht. apply flag_ops_in_range; [assumption | lia].
Qed.

Lemma flag_operations_witness :
  let t := mkTask [] 0 0 "t1" "email" TaskStatusPending 0 3 TaskFlagDefault in
  In TaskFlagUrgent definedFlags /\
  HasFlag (SetFlag t TaskFlagUrgent) TaskFlagUrgent = true /\
  HasFlag (ClearFlag t TaskFlagUrgent) TaskFlagUrgent = false /\
  Flags (ToggleFlag (ToggleFlag t TaskFlagUrgent) TaskFlagUrgent) = Flags t.
Proof.
  intro t.
  assert (Hin : In TaskFlagUrgent definedFlags) by (simpl; tauto).
  split; [exact Hin | ].
  destruct (@flag_operations t TaskFlagUrgent Hin)
    as (_ & _ & _ & Hset & Hclear & Htoggle & _).
  split; [exact Hset | split; [exact Hclear | exact Htoggle]].
Defined.

(** ** Statistics *)

Lemma to_u64_small (x : Z) : 0 <= x < u64_max -> to_u64 x = x.
Proof. intro H. unfold to_u64. apply Z.mod_small. exact H. Qed.

Lemma to_i64_small (x : Z) : 0 <= x < i64_max -> to_i64 x = x.
Proof.
  intro H. unfold to_i64.
  assert (Hm : x mod u64_max = x).
  { apply Z.mod_small. unfold i64_max, u64_max in *. lia. }
  rewrite Hm.
  destruct (Z.ltb_spec x i64_max) as [_ | Hge]; [reflexivity | lia].
Qed.

(** C7. [GetAverageProcessTime] is 0 when nothing was processed; otherwise it
    is the accumulated nanoseconds divided by the processed count, rounded
    down, whenever that quotient is a non-negative [time.Duration]. *)
Theorem GetAverageProcessTime_spec :
  forall s : Stats.WorkerStats,
    (Stats.GetProcessed s = 0 -> Stats.GetAverageProcessTime s = 0) /\
    (Stats.GetProcessed s <> 0 ->
     0 <= Stats.totalProcessTime s / Stats.GetProcessed s < i64_max ->
     Stats.GetAverageProcessTime s
     = Stats.totalProcessTime s / Stats.GetProcessed s).
Proof.
  intro s. unfold Stats.GetAverageProcessTime, Stats.GetProcessed. split.
  - intro H0. rewrite H0. reflexivity.
  - intros Hnz Hq.
    destruct (Z.eqb_spec (Stats.tasksProcessed s) 0) as [E | _];
      [contradiction | ].
    apply to_i64_small. exact Hq.
Qed.

Lemma GetAverageProcessTime_spec_witness :
  Stats.GetAverageProcessTime (Stats.mkStats 10 0 0 0 0 0 true) = 0 /\
  Stats.GetAverageProcessTime (Stats.mkStats 10 3 1 0 1000 0 true) = 333.
Proof.
  split.
  - apply (proj1 (GetAverageProcessTime_spec (Stats.mkStats 10 0 0 0 0 0 true))).
    reflexivity.
  - apply (proj2 (GetAverageProcessTime_spec
                    (Stats.mkStats 10 3 1 0 1000 0 true))).
    + simpl. discriminate.
    + vm_compute. split; [discriminate | reflexivity].
Defined.

(** ** The worker pool *)

Example stubWorker_is_NewWorker :
  NewWorker (stubConfig [] 1) = inr (stubWorker [] 1) /\
  Start (stubWorker [] 1) = (None, startedWorker [] 1).
Proof. split; reflexivity. Qed.

Section SubmitTaskFacts.

Context {W : Type}.
Implicit Types (w : Worker W) (ctx : Context) (task : Task) (pick : nat).

(** [submitSelect] leaves the statistics alone. *)
Lemma submitSelect_stats w ctx task pick :
  stats (snd (submitSelect w ctx task pick)) = stats w.
Proof.
  unfold submitSelect.
  destruct (selectCase _ pick) as [[ | n] | ]; try reflexivity.
  destruct (Chan.send (taskChan w) task); reflexivity.
Qed.

(** C1, as the code has it. A call made while the pool is running adds one
    to the submitted counter (modulo 2^64) whatever it then returns:
    success, the context's error or "task queue full". A call rejected
    because the pool is not running changes nothing. In particular a call
    that returns success has incremented the counter exactly once. *)
Theorem SubmitTask_submitted_counter :
  forall w ctx task pick,
    (running w = true ->
     stats (snd (SubmitTask w ctx task pick))
     = Stats.RecordSubmission (stats w) /\
     Stats.tasksSubmitted (stats (snd (SubmitTask w ctx task pick)))
     = to_u64 (Stats.tasksSubmitted (stats w) + 1)) /\
    (running w = false ->
     SubmitTask w ctx task pick = (Returns (Some ErrWorkerNotRunning), w)) /\
    (fst (SubmitTask w ctx task pick) = Returns None ->
     Stats.tasksSubmitted (stats (snd (SubmitTask w ctx task pick)))
     = to_u64 (Stats.tasksSubmitted (stats w) + 1)).
Proof.
  intros w ctx task pick.
  assert (Hrun : running w = true ->
                 stats (snd (SubmitTask w ctx task pick))
                 = Stats.RecordSubmission (stats w)).
  { intro Hr. unfold SubmitTask. rewrite Hr. simpl.
    rewrite submitSelect_stats. reflexivity. }
  split; [ | split].
  - intro Hr. split; [exact (Hrun Hr) | ].
    rewrite (Hrun Hr). reflexivity.
  - intro Hr. unfold SubmitTask. rewrite Hr. reflexivity.
  - intro Hok. destruct (running w) eqn:Hr.
    + rewrite (Hrun eq_refl). reflexivity.
    + unfold SubmitTask in Hok. rewrite Hr in Hok. simpl in Hok.
      discriminate Hok.
Qed.

End SubmitTaskFacts.

Lemma SubmitTask_submitted_counter_witness :
  Stats.tasksSubmitted (stats (snd (SubmitTask fullWorker Background task2 0)))
  = 1 /\
  SubmitTask (stubWorker [] 1) Background task2 0
  = (Returns (Some ErrWorkerNotRunning), stubWorker [] 1) /\
  Stats.tasksSubmitted
    (stats (snd (SubmitTask (startedWorker [] 1) Background task1 0))) = 1.
Proof.
  destruct (@SubmitTask_submitted_counter unit fullWorker Background task2 0%nat)
    as (Hrun & _ & _).
  destruct (@SubmitTask_submitted_counter unit (stubWorker [] 1) Background
                                          task2 0%nat)
    as (_ & Hstop & _).
  destruct (@SubmitTask_submitted_counter unit (startedWorker [] 1) Background
                                          task1 0%nat)
    as (_ & _ & Hok).
  split; [ | split].
  - exact (proj2 (Hrun eq_refl)).
  - exact (Hstop eq_refl).
  - exact (Hok eq_refl).
Defined.

(** C1, as stated, fails: a running pool with a full queue rejects the task
    with "task queue full" and has counted it as submitted all the same. *)
Lemma SubmitTask_counts_rejected_task :
  ~ (forall (w w' : Worker unit) ctx task pick e,
        SubmitTask w ctx task pick = (Returns (Some e), w') ->
        Stats.tasksSubmitted (stats w') = Stats.tasksSubmitted (stats w)).
Proof.
  intro H.
  specialize (H fullWorker (snd (SubmitTask fullWorker Background task2 0))
                Background task2 0%nat ErrTaskQueueFull eq_refl).
  vm_compute in H. discriminate H.
Qed.

(** C4 at the failing input: the pool runs, the queue has room and the
    context is already cancelled. Both cases of the [select] can proceed;
    when the runtime picks the send, the task is queued and the call returns
    no error. *)
Theorem SubmitTask_cancelled_context_can_enqueue :
  ctxDone Canceled = true /\
  SubmitTask (startedWorker [] 10) Canceled task1 0
  = (Returns (Err Canceled),
     withStats (startedWorker [] 10)
               (Stats.RecordSubmission (stats (startedWorker [] 10)))) /\
  SubmitTask (startedWorker [] 10) Canceled task1 1
  = (Returns None,
     withTaskChan
       (withStats (startedWorker [] 10)
                  (Stats.RecordSubmission (stats (startedWorker [] 10))))
       (Chan.mk [task1] 10 false)).
Proof. repeat split. Qed.

Section Admission.

Context {W : Type}.
Implicit Types (w : Worker W) (ctx : Context) (task : Task) (pick : nat).

Lemma selectCase_none (a b : bool) pick :
  selectCase [a; b] pick = None <-> a = false /\ b = false.
Proof.
  unfold selectCase. destruct a, b; simpl; split;
    try discriminate; try tauto; intros [H1 H2]; discriminate.
Qed.

Lemma selectCase_first_only pick :
  selectCase [true; false] pick = Some 0%nat.
Proof.
  unfold selectCase. simpl. destruct (Nat.modulo pick 1); [reflexivity | ].
  destruct n; reflexivity.
Qed.

Lemma selectCase_second_only pick :
  selectCase [false; true] pick = Some 1%nat.
Proof.
  unfold selectCase. simpl. destruct (Nat.modulo pick 1); [reflexivity | ].
  destruct n; reflexivity.
Qed.

(** What the [select] of [SubmitTask] decides where only one outcome is
    possible: a live context and room give the send, a live context and a
    full queue the [default], a done context and a full queue the
    context's error. With a done context and room both cases are ready. *)
Lemma submitSelect_determined w ctx task pick :
  Chan.closed (taskChan w) = false ->
  (ctxDone ctx = false -> Chan.sendReady (taskChan w) = true ->
   submitSelect w ctx task pick
   = (Returns None,
      withTaskChan w (Chan.mk (Chan.buf (taskChan w) ++ [task])%list
                              (Chan.cap (taskChan w)) false))) /\
  (ctxDone ctx = false -> Chan.sendReady (taskChan w) = false ->
   submitSelect w ctx task pick = (Returns (Some ErrTaskQueueFull), w)) /\
  (ctxDone ctx = true -> Chan.sendReady (taskChan w) = false ->
   submitSelect w ctx task pick = (Returns (Err ctx), w)).
Proof.
  intro Hopen. unfold submitSelect. repeat split; intros Hc Hs;
    rewrite Hc, Hs.
  - rewrite selectCase_second_only. unfold Chan.send. rewrite Hopen.
    reflexivity.
  - assert (E : selectCase [false; false] pick = None)
      by (apply selectCase_none; tauto).
    rewrite E. reflexivity.
  - rewrite selectCase_first_only. reflexivity.
Qed.

(** C6. [Shutdown] on a pool that is not running returns "worker not
    running" and changes nothing; so a [Shutdown] that follows a successful
    one is rejected in the same way. *)
Theorem Shutdown_not_running :
  forall w,
    (forall wait,
        running w = false ->
        Shutdown w wait = (Returns (Some ErrWorkerNotRunning), w)) /\
    (forall wait1 wait2 w1,
        Shutdown w wait1 = (Returns None, w1) ->
        Shutdown w1 wait2 = (Returns (Some ErrWorkerNotRunning), w1)).
Proof.
  intro w. split.
  - intros wait Hr. unfold Shutdown. rewrite Hr. reflexivity.
  - intros wait1 wait2 w1 H1.
    assert (Hr : running w1 = false).
    { unfold Shutdown in H1. destruct (running w) eqn:Hrw; cbn [negb] in H1.
      - destruct (Chan.close (taskChan (withRunning w false))) as [tc | msg];
          [ | discriminate H1].
        destruct wait1 as [e | ]; [discriminate H1 | ].
        match type of H1 with
        | context [Chan.close ?c] =>
          destruct (Chan.close c) as [rc | msg]; [ | discriminate H1]
        end.
        inversion H1. reflexivity.
      - discriminate H1. }
    unfold Shutdown. rewrite Hr. reflexivity.
Qed.

End Admission.

Lemma Shutdown_not_running_witness :
  Shutdown (stubWorker [] 1) None
  = (Returns (Some ErrWorkerNotRunning), stubWorker [] 1) /\
  Shutdown (snd (Shutdown (startedWorker [] 1) None)) None
  = (Returns (Some ErrWorkerNotRunning),
     snd (Shutdown (startedWorker [] 1) None)).
Proof.
  split.
  - apply (proj1 (@Shutdown_not_running unit (stubWorker [] 1))). reflexivity.
  - apply (proj2 (@Shutdown_not_running unit (startedWorker [] 1)) None None).
    reflexivity.
Defined.

(** ** Per-task processing *)

Section Processing.

Context {W : Type}.
Implicit Types (w : Worker W) (ctx : Context) (task : Task) (pick : nat)
         (e : Env W) (result : TaskResult).

Lemma newCalls_app e e' (l : list Call) :
  calls e' = (calls e ++ l)%list -> newCalls e e' = l.
Proof.
  intro H. unfold newCalls. rewrite H. clear H.
  induction (calls e) as [ | c cs IH]; [reflexivity | exact IH].
Qed.

Lemma sendResult_stats w ctx result pick :
  stats (snd (sendResult w ctx result pick)) = stats w.
Proof.
  unfold sendResult.
  destruct (selectCase _ pick) as [[ | n] | ]; try reflexivity.
  destruct (Chan.send (resultChan w) result); reflexivity.
Qed.

Lemma sendResult_taskChan w ctx result pick :
  taskChan (snd (sendResult w ctx result pick)) = taskChan w.
Proof.
  unfold sendResult.
  destruct (selectCase _ pick) as [[ | n] | ]; try reflexivity.
  destruct (Chan.send (resultChan w) result); reflexivity.
Qed.

(** The statistics do not influence [sendResult]. *)
Lemma sendResult_withStats_out w s ctx result pick :
  fst (sendResult (withStats w s) ctx result pick)
  = fst (sendResult w ctx result pick).
Proof.
  unfold sendResult. simpl.
  destruct (selectCase _ pick) as [[ | n] | ]; try reflexivity.
  destruct (Chan.send (resultChan w) result); reflexivity.
Qed.

Lemma sendResult_withStats_chan w s ctx result pick :
  resultChan (snd (sendResult (withStats w s) ctx result pick))
  = resultChan (snd (sendResult w ctx result pick)).
Proof.
  unfold sendResult. simpl.
  destruct (selectCase _ pick) as [[ | n] | ]; try reflexivity.
  destruct (Chan.send (resultChan w) result); reflexivity.
Qed.

(** With a live context and room in an open result channel the only ready
    case is the send. *)
Lemma sendResult_delivers w ctx result pick :
  ctxDone ctx = false ->
  Chan.closed (resultChan w) = false ->
  Chan.sendReady (resultChan w) = true ->
  fst (sendResult w ctx result pick) = Returns tt /\
  Chan.buf (resultChan (snd (sendResult w ctx result pick)))
  = (Chan.buf (resultChan w) ++ [result])%list.
Proof.
  intros Hc Hopen Hs. unfold sendResult. rewrite Hc, Hs.
  rewrite selectCase_second_only. unfold Chan.send. rewrite Hopen.
  split; reflexivity.
Qed.

Lemma handleTaskError_counters w ctx task err now pick :
  let w' := snd (handleTaskError w ctx task err now pick) in
  Stats.tasksSubmitted (stats w') = Stats.tasksSubmitted (stats w) /\
  Stats.tasksProcessed (stats w') = Stats.tasksProcessed (stats w) /\
  Stats.tasksFailed (stats w') = to_u64 (Stats.tasksFailed (stats w) + 1) /\
  taskChan w' = taskChan w.
Proof.
  unfold handleTaskError. cbv zeta.
  rewrite sendResult_stats, sendResult_taskChan.
  destruct (Retries task >? 0); repeat split; reflexivity.
Qed.

(** [executeTask] when the first status update fails: one call, no
    [Execute]. *)
Lemma executeTask_update_fails w task e m wd :
  UpdateStatus (repo w) (ID task) TaskStatusProcessing (world e)
  = (Some m, wd) ->
  executeTask w task e
  = ((None, Some (wrapf "update status" (wrapf "update status" m))),
     mkEnv wd (calls e
               ++ [CallUpdateStatus (ID task) TaskStatusProcessing])%list).
Proof.
  intro H. unfold executeTask, updateTaskStatus, bind, call, ret.
  rewrite H. reflexivity.
Qed.

(** C3. When the update to Processing fails, the only collaborator call of
    [processTask] is that update: [Execute] is not invoked, the processed
    counter keeps its value, and the task is counted once, as failed. *)
Theorem processTask_status_update_fails :
  forall w ctx task duration now pick e m wd out w' e',
    UpdateStatus (repo w) (ID task) TaskStatusProcessing (world e)
    = (Some m, wd) ->
    processTask w ctx task duration now pick e = (out, w', e') ->
    calls e'
    = (calls e ++ [CallUpdateStatus (ID task) TaskStatusProcessing])%list /\
    (forall t, ~ In (CallExecute t) (newCalls e e')) /\
    Stats.tasksProcessed (stats w') = Stats.tasksProcessed (stats w) /\
    Stats.tasksFailed (stats w') = to_u64 (Stats.tasksFailed (stats w) + 1).
Proof.
  intros w ctx task duration now pick e m wd out w' e' Hup Hp.
  unfold processTask in Hp. cbv zeta in Hp.
  rewrite (@executeTask_update_fails
             (withStats w (Stats.IncrementActive (stats w))) task e m wd Hup)
    in Hp.
  match type of Hp with
  | context [handleTaskError ?a ?b ?c ?d ?f ?g] =>
    pose proof (@handleTaskError_counters a b c d f g) as Hc;
    destruct (handleTaskError a b c d f g) as [o w2]
  end.
  cbv zeta in Hc. simpl in Hc. destruct Hc as (_ & Hproc & Hfail & _).
  inversion Hp; subst out w' e'; clear Hp. simpl.
  split; [reflexivity | ]. split; [ | split; assumption].
  intros t Hin.
  rewrite (@newCalls_app
             e (mkEnv wd (calls e ++ [CallUpdateStatus
                                        (ID task) TaskStatusProcessing])%list)
             [CallUpdateStatus (ID task) TaskStatusProcessing] eq_refl)
    in Hin.
  destruct Hin as [Hin | []]. discriminate Hin.
Qed.

End Processing.

Lemma processTask_status_update_fails_witness :
  let w := startedWorker [TaskStatusProcessing] 10 in
  let r := processTask w Background task1 5 7 0 env0 in
  calls (snd r) = [CallUpdateStatus "task-1" TaskStatusProcessing] /\
  (forall t, ~ In (CallExecute t) (newCalls env0 (snd r))) /\
  Stats.tasksProcessed (stats (snd (fst r))) = 0 /\
  Stats.tasksFailed (stats (snd (fst r))) = 1.
Proof.
  intros w r.
  exact (@processTask_status_update_fails
           unit w Background task1 5 7 0%nat env0 "db down" tt
           (fst (fst r)) (snd (fst r)) (snd r) eq_refl eq_refl).
Defined.

Section CompletedUpdate.

Context {W : Type}.
Implicit Types (w : Worker W) (ctx : Context) (task : Task) (pick : nat)
         (e : Env W).

(** [executeTask] when [Execute] succeeds and the update to Completed
    fails: three calls, and the error of the update comes back. *)
Lemma executeTask_completed_fails w task e wd1 res wd2 m wd3 :
  UpdateStatus (repo w) (ID task) TaskStatusProcessing (world e)
  = (None, wd1) ->
  Execute (executor w) task wd1 = ((res, None), wd2) ->
  UpdateStatus (repo w) (ID task) TaskStatusCompleted wd2 = (Some m, wd3) ->
  executeTask w task e
  = ((None,
      Some (wrapf "update completed status" (wrapf "update status" m))),
     mkEnv wd3 (calls e
                ++ [CallUpdateStatus (ID task) TaskStatusProcessing;
                    CallExecute task;
                    CallUpdateStatus (ID task) TaskStatusCompleted])%list).
Proof.
  intros H1 H2 H3. unfold executeTask, updateTaskStatus, bind, call, ret.
  rewrite H1. simpl. rewrite H2. simpl. rewrite H3. simpl.
  rewrite <- !app_assoc. reflexivity.
Qed.

(** C9. [Execute] succeeds, the update to Completed fails: the task is
    counted as failed and not as processed, and the result handed on by
    [sendResult] has [Success = false] and the text of the update error.
    [sendResult] queues it on the result channel when the context is live
    and the channel has room (it drops a result otherwise). *)
Theorem processTask_completed_update_fails :
  forall w ctx task duration now pick e wd1 res wd2 m wd3 out w' e',
    UpdateStatus (repo w) (ID task) TaskStatusProcessing (world e)
    = (None, wd1) ->
    Execute (executor w) task wd1 = ((res, None), wd2) ->
    UpdateStatus (repo w) (ID task) TaskStatusCompleted wd2 = (Some m, wd3) ->
    processTask w ctx task duration now pick e = (out, w', e') ->
    let failure :=
      mkTaskResult [] now (ID task)
                   (wrapf "update completed status" (wrapf "update status" m))
                   0 false in
    In (CallExecute task) (newCalls e e') /\
    Stats.tasksFailed (stats w') = to_u64 (Stats.tasksFailed (stats w) + 1) /\
    Stats.tasksProcessed (stats w') = Stats.tasksProcessed (stats w) /\
    out = fst (sendResult w ctx failure pick) /\
    resultChan w' = resultChan (snd (sendResult w ctx failure pick)) /\
    (ctxDone ctx = false ->
     Chan.closed (resultChan w) = false ->
     Chan.sendReady (resultChan w) = true ->
     Chan.buf (resultChan w') = (Chan.buf (resultChan w) ++ [failure])%list).
Proof.
  intros w ctx task duration now pick e wd1 res wd2 m wd3 out w' e'
         H1 H2 H3 Hp failure.
  unfold processTask in Hp. cbv zeta in Hp.
  rewrite (@executeTask_completed_fails
             (withStats w (Stats.IncrementActive (stats w)))
             task e wd1 res wd2 m wd3 H1 H2 H3) in Hp.
  match type of Hp with
  | context [handleTaskError ?a ?b ?c ?d ?f ?g] =>
    pose proof (@handleTaskError_counters _ a b c d f g) as Hc;
    assert (Hs : fst (handleTaskError a b c d f g)
                 = fst (sendResult w ctx failure pick) /\
                 resultChan (snd (handleTaskError a b c d f g))
                 = resultChan (snd (sendResult w ctx failure pick)));
    [ | destruct (handleTaskError a b c d f g) as [o w2] ]
  end.
  { unfold handleTaskError. cbv zeta.
    destruct (Retries task >? 0); fold failure;
      rewrite !sendResult_withStats_out, !sendResult_withStats_chan;
      split; reflexivity. }
  cbv zeta in Hc. simpl in Hc, Hs.
  destruct Hc as (_ & Hproc & Hfail & _). destruct Hs as [Ho Hr].
  inversion Hp; subst out w' e'; clear Hp. simpl.
  split.
  { erewrite newCalls_app by reflexivity. simpl. tauto. }
  split; [exact Hfail | ]. split; [exact Hproc | ].
  split; [exact Ho | ]. split; [exact Hr | ].
  intros Hc Hopen Hroom. rewrite Hr.
  apply sendResult_delivers; assumption.
Qed.

End CompletedUpdate.

Lemma processTask_completed_update_fails_witness :
  let w := startedWorker [TaskStatusCompleted] 10 in
  let r := processTask w Background task1 5 7 0 env0 in
  let failure :=
    mkTaskResult [] 7 "task-1"
                 "update completed status: update status: db down" 0 false in
  In (CallExecute task1) (newCalls env0 (snd r)) /\
  Stats.tasksFailed (stats (snd (fst r))) = 1 /\
  Stats.tasksProcessed (stats (snd (fst r))) = 0 /\
  Chan.buf (resultChan (snd (fst r))) = [failure].
Proof.
  intros w r failure.
  destruct (@processTask_completed_update_fails
              unit w Background task1 5 7 0%nat env0 tt
              (Some (mkTaskResult [] 0 "task-1" "" 0 true)) tt "db down" tt
              (fst (fst r)) (snd (fst r)) (snd r)
              eq_refl eq_refl eq_refl eq_refl)
    as (Hexec & Hfail & Hproc & _ & _ & Hbuf).
  split; [exact Hexec | ]. split; [exact Hfail | ]. split; [exact Hproc | ].
  exact (Hbuf eq_refl eq_refl eq_refl).
Defined.

(** ** The counters under interleaving *)

Section Interleaving.

Context {W : Type}.
Implicit Types (w : Worker W) (ctx : Context) (task : Task) (pick : nat)
         (e : Env W) (p : Pool W).

Lemma to_u64_succ (n : Z) : to_u64 (to_u64 n + 1) = to_u64 (n + 1).
Proof. unfold to_u64. apply Zplus_mod_idemp_l. Qed.

Lemma to_u64_le (n : Z) : 0 <= n -> to_u64 n <= n.
Proof.
  intro H. unfold to_u64. apply Z.mod_le; [exact H | reflexivity].
Qed.

Lemma submissions_nonneg (tr : list Label) : 0 <= submissions tr.
Proof.
  induction tr as [ | l tr IH]; [simpl; lia | ].
  destruct l; cbn [submissions]; lia.
Qed.

(** [processTask] leaves the submitted counter and the task queue alone
    and counts the task at most once: as processed, as failed, or (when it
    panics on a nil result) not at all. *)
Lemma processTask_counters w ctx task duration now pick e out w' e' :
  processTask w ctx task duration now pick e = (out, w', e') ->
  Stats.tasksSubmitted (stats w') = Stats.tasksSubmitted (stats w) /\
  taskChan w' = taskChan w /\
  ((Stats.tasksProcessed (stats w')
    = to_u64 (Stats.tasksProcessed (stats w) + 1) /\
    Stats.tasksFailed (stats w') = Stats.tasksFailed (stats w)) \/
   (Stats.tasksProcessed (stats w') = Stats.tasksProcessed (stats w) /\
    Stats.tasksFailed (stats w')
    = to_u64 (Stats.tasksFailed (stats w) + 1)) \/
   (Stats.tasksProcessed (stats w') = Stats.tasksProcessed (stats w) /\
    Stats.tasksFailed (stats w') = Stats.tasksFailed (stats w))).
Proof.
  unfold processTask. cbv zeta.
  destruct (executeTask _ task e) as [[result err] e1].
  destruct err as [m | ].
  - match goal with
    | |- context [handleTaskError ?a ?b ?c ?d ?f ?g] =>
      pose proof (@handleTaskError_counters _ a b c d f g) as Hc;
      destruct (handleTaskError a b c d f g) as [o w2]
    end.
    cbv zeta in Hc. simpl in Hc. destruct Hc as (Hs & Hp & Hf & Hq).
    intro H. inversion H; subst out w' e'; clear H. simpl.
    split; [exact Hs | ]. split; [exact Hq | ]. right. left. tauto.
  - destruct result as [r | ].
    + match goal with
      | |- context [sendResult ?a ?b ?c ?d] =>
        pose proof (sendResult_stats a b c d) as Hst;
        pose proof (sendResult_taskChan a b c d) as Hq;
        destruct (sendResult a b c d) as [o w2]
      end.
      simpl in Hst, Hq.
      intro H. inversion H; subst out w' e'; clear H. simpl.
      rewrite Hst, Hq. simpl. split; [reflexivity | ].
      split; [reflexivity | ]. left. tauto.
    + intro H. inversion H; subst out w' e'; clear H. simpl.
      split; [reflexivity | ]. split; [reflexivity | ]. right. right. tauto.
Qed.

(** The [select] of [SubmitTask] queues at most the one task. *)
Lemma submitSelect_queue w ctx task pick out w' :
  submitSelect w ctx task pick = (out, w') ->
  stats w' = stats w /\
  (List.length (Chan.buf (taskChan w'))
   <= S (List.length (Chan.buf (taskChan w))))%nat.
Proof.
  unfold submitSelect, Chan.send.
  destruct (selectCase _ pick) as [[ | k] | ];
    try (intro H; inversion H; subst; split; [reflexivity | lia]).
  destruct (Chan.closed (taskChan w));
    intro H; inversion H; subst; simpl; split; try reflexivity; try lia.
  rewrite length_app. simpl. lia.
Qed.

Lemma processTasksLoopSelect_spec w ctx pick r w' :
  processTasksLoopSelect w ctx pick = Some (r, w') ->
  stats w' = stats w /\
  match r with
  | None => taskChan w' = taskChan w
  | Some _ =>
    List.length (Chan.buf (taskChan w))
    = S (List.length (Chan.buf (taskChan w')))
  end.
Proof.
  unfold processTasksLoopSelect, Chan.recv.
  destruct (selectCase _ pick) as [[ | k] | ]; try discriminate.
  - intro H. inversion H; subst. split; reflexivity.
  - destruct (Chan.buf (taskChan w)) as [ | x rest] eqn:Hb;
      intro H; inversion H; subst; simpl; split; reflexivity.
Qed.

Lemma processResultsLoopSelect_spec w ctx pick r w' :
  processResultsLoopSelect w ctx pick = Some (r, w') ->
  stats w' = stats w /\ taskChan w' = taskChan w.
Proof.
  unfold processResultsLoopSelect, Chan.recv.
  destruct (selectCase _ pick) as [[ | k] | ]; try discriminate.
  - intro H. inversion H; subst. split; reflexivity.
  - destruct (Chan.buf (resultChan w)) as [ | x rest];
      intro H; inversion H; subst; simpl; split; reflexivity.
Qed.

Lemma length_remove_middle {A : Type} (l1 l2 : list A) (x : A) :
  List.length (l1 ++ x :: l2) = S (List.length (l1 ++ l2)).
Proof. rewrite !length_app. simpl. lia. Qed.

End Interleaving.

Section Invariant.

Context {W : Type}.
Implicit Types (w : Worker W) (p : Pool W).

Lemma submissions_cons (l : Label) (tr : list Label) :
  submissions (l :: tr) = stepCount l (submissions tr).
Proof. destruct l; reflexivity. Qed.

Local Arguments Z.of_nat : simpl never.

Ltac keep np nf := exists np, nf; simpl.

(** Every step keeps the counting invariant. *)
Lemma step_counted p l p' (n : Z) :
  counted n p -> step p l p' -> counted (stepCount l n) p'.
Proof.
  intros (np & nf & Hnp & Hnf & Hs & Hp & Hf & Hle) Hstep.
  inversion Hstep; subst; clear Hstep; unfold stepCount.
  - (* Start *)
    match goal with H : Start _ = _ |- _ => unfold Start in H end.
    destruct (running (worker p)); [discriminate | ].
    match goal with H : (_, _) = (_, _) |- _ => inversion H; subst; clear H end.
    keep np nf. tauto.
  - (* running check *)
    keep np nf. tauto.
  - (* RecordSubmission *)
    match goal with H : checked p = _ |- _ => clear H end.
    keep np nf. rewrite Hs, to_u64_succ.
    repeat split; try assumption. lia.
  - (* the select of SubmitTask *)
    match goal with
    | H : submitSelect _ _ _ _ = _ |- _ =>
      destruct (submitSelect_queue _ _ _ _ H) as [Hst Hq]
    end.
    match goal with
    | H : submitting p = _ |- _ =>
      rewrite H, length_remove_middle in Hle
    end.
    keep np nf. rewrite Hst. repeat split; try assumption. lia.
  - (* a loop returns *)
    match goal with
    | H : processTasksLoopSelect _ _ _ = _ |- _ =>
      destruct (processTasksLoopSelect_spec _ _ _ H) as [Hst Hq]
    end.
    keep np nf. rewrite Hst, Hq. tauto.
  - (* a loop receives a task *)
    match goal with
    | H : processTasksLoopSelect _ _ _ = _ |- _ =>
      destruct (processTasksLoopSelect_spec _ _ _ H) as [Hst Hq]
    end.
    keep np nf. rewrite Hst. repeat split; try assumption. lia.
  - (* processTask *)
    match goal with
    | H : processTask _ _ _ _ _ _ _ = _ |- _ =>
      destruct (processTask_counters _ _ _ _ _ _ _ H)
        as (Hsub & Hq & Hcases)
    end.
    match goal with
    | H : holding p = _ |- _ => rewrite H, length_remove_middle in Hle
    end.
    destruct Hcases as [[Hp' Hf'] | [[Hp' Hf'] | [Hp' Hf']]].
    + keep (np + 1) nf. rewrite Hsub, Hq, Hp', Hf', Hp, to_u64_succ.
      repeat split; try assumption; lia.
    + keep np (nf + 1). rewrite Hsub, Hq, Hp', Hf', Hf, to_u64_succ.
      repeat split; try assumption; lia.
    + keep np nf. rewrite Hsub, Hq, Hp', Hf'.
      repeat split; try assumption; lia.
  - (* the result loop returns *)
    match goal with
    | H : processResultsLoopSelect _ _ _ = _ |- _ =>
      destruct (processResultsLoopSelect_spec _ _ _ H) as [Hst Hq]
    end.
    keep np nf. rewrite Hst, Hq. tauto.
  - (* a result is published *)
    match goal with
    | H : processResultsLoopSelect _ _ _ = _ |- _ =>
      destruct (processResultsLoopSelect_spec _ _ _ H) as [Hst Hq]
    end.
    keep np nf. rewrite Hst, Hq. tauto.
  - (* Shutdown closes the task channel *)
    keep np nf. unfold Chan.close.
    destruct (Chan.closed (taskChan (worker p))); simpl; tauto.
  - (* the goroutines are done *)
    keep np nf. unfold Chan.close.
    destruct (Chan.closed (resultChan (worker p))); simpl; tauto.
Qed.

Lemma run_counted p0 (tr : list Label) p :
  counted 0 p0 -> run p0 tr p -> counted (submissions tr) p.
Proof.
  intros H0 Hrun. induction Hrun as [ | tr p l p' Hrun IH Hstep].
  - exact H0.
  - rewrite submissions_cons. exact (step_counted IH Hstep).
Qed.

(** A pool fresh from [NewWorker] with new statistics has counted nothing. *)
Lemma NewWorker_counted (cfg : WorkerConfig W) w (e : Env W) :
  cfgStats cfg = None -> NewWorker cfg = inr w -> counted 0 (newPool w e).
Proof.
  intros Hs Hn. unfold NewWorker in Hn. rewrite Hs in Hn.
  destruct (cfgRepository cfg); [ | discriminate].
  destruct (cfgExecutor cfg); [ | discriminate].
  destruct (cfgPublisher cfg); [ | discriminate].
  inversion Hn; subst w; clear Hn.
  exists 0, 0. simpl. repeat split; try reflexivity; lia.
Qed.

(** C5. Start from a pool built by [NewWorker] with fresh statistics and let
    [SubmitTask] calls, worker loops, the result loop, [Start] and
    [Shutdown] interleave in any way. As long as fewer than 2^64
    submissions were recorded (the [uint64] counter has not wrapped), in
    every state reached the processed and the failed counters together do
    not exceed the submitted counter. *)
Theorem processed_plus_failed_le_submitted :
  forall (cfg : WorkerConfig W) w (e : Env W) (tr : list Label) p,
    cfgStats cfg = None ->
    NewWorker cfg = inr w ->
    run (newPool w e) tr p ->
    submissions tr < u64_max ->
    Stats.tasksProcessed (stats (worker p))
    + Stats.tasksFailed (stats (worker p))
    <= Stats.tasksSubmitted (stats (worker p)).
Proof.
  intros cfg w e tr p Hfresh Hnew Hrun Hbound.
  destruct (run_counted (@NewWorker_counted cfg w e Hfresh Hnew) Hrun)
    as (np & nf & Hnp & Hnf & Hs & Hp & Hf & Hle).
  rewrite Hs, Hp, Hf.
  rewrite (to_u64_small (x := submissions tr))
    by (split; [apply submissions_nonneg | exact Hbound]).
  pose proof (to_u64_le Hnp). pose proof (to_u64_le Hnf). lia.
Qed.

End Invariant.

Lemma demo_run : run (newPool (stubWorker [] 1) env0) demoTrace demoPool6.
Proof.
  unfold demoTrace.
  apply run_step with (p := demoPool5).
  apply run_step with (p := demoPool4).
  apply run_step with (p := demoPool3).
  apply run_step with (p := demoPool2).
  apply run_step with (p := demoPool1).
  apply run_step with (p := newPool (stubWorker [] 1) env0).
  - apply run_nil.
  - exact (@step_start unit (newPool (stubWorker [] 1) env0)
                       (startedWorker [] 1) eq_refl eq_refl).
  - exact (@step_submit_check unit demoPool1 Background task1 eq_refl eq_refl).
  - exact (@step_submit_record unit demoPool2 Background task1 [] []
                               eq_refl eq_refl).
  - exact (@step_submit_select unit demoPool3 Background task1 [] [] 0%nat
                               (Returns None) (worker demoPool4)
                               eq_refl eq_refl eq_refl).
  - exact (@step_loop_recv unit demoPool4 1%nat Background 0%nat task1
                           (worker demoPool5) eq_refl eq_refl eq_refl).
  - exact (@step_process unit demoPool5 task1 [] [] Background 5 7 0%nat
                         (Returns tt) (worker demoPool6) (env demoPool6)
                         eq_refl eq_refl eq_refl).
Qed.

Lemma processed_plus_failed_le_submitted_witness :
  Stats.tasksProcessed (stats (worker demoPool6))
  + Stats.tasksFailed (stats (worker demoPool6))
  <= Stats.tasksSubmitted (stats (worker demoPool6)).
Proof.
  apply (@processed_plus_failed_le_submitted
           unit (stubConfig [] 1) (stubWorker [] 1) env0 demoTrace demoPool6).
  - reflexivity.
  - reflexivity.
  - exact demo_run.
  - reflexivity.
Defined.

(** * Further properties of the package *)

(** ** Construction and start *)

Section Construction.

Context {W : Type}.
Implicit Types (w : Worker W) (cfg : WorkerConfig W).

(** X1. [NewWorker] fails exactly when a collaborator is missing, naming the
    first missing one in the order repository, executor, publisher. The
    worker it builds is not running, has a positive worker count, two open
    empty channels of one positive capacity and non-zero timeouts; positive
    counts and non-zero timeouts of the configuration are kept as given
    (a negative timeout included). *)
Theorem NewWorker_validates_and_defaults :
  forall cfg,
    match NewWorker cfg with
    | inl msg =>
      (cfgRepository cfg = None /\ msg = "repository is required") \/
      (cfgRepository cfg <> None /\ cfgExecutor cfg = None /\
       msg = "executor is required") \/
      (cfgRepository cfg <> None /\ cfgExecutor cfg <> None /\
       cfgPublisher cfg = None /\ msg = "publisher is required")
    | inr w =>
      cfgRepository cfg = Some (repo w) /\
      cfgExecutor cfg = Some (executor w) /\
      cfgPublisher cfg = Some (publisher w) /\
      running w = false /\
      0 < workerCount w /\
      taskChan w = Chan.make (Chan.cap (taskChan w)) /\
      resultChan w = Chan.make (Chan.cap (taskChan w)) /\
      0 < Chan.cap (taskChan w) /\
      shutdownTimeout w <> 0 /\ processTimeout w <> 0 /\
      (0 < cfgWorkerCount cfg -> workerCount w = cfgWorkerCount cfg) /\
      (cfgWorkerCount cfg <= 0 -> workerCount w = DefaultWorkerCount) /\
      (0 < cfgBufferSize cfg -> Chan.cap (taskChan w) = cfgBufferSize cfg) /\
      (cfgBufferSize cfg <= 0 -> Chan.cap (taskChan w) = DefaultBufferSize) /\
      (cfgShutdownTimeout cfg <> 0 ->
       shutdownTimeout w = cfgShutdownTimeout cfg) /\
      (cfgProcessTimeout cfg <> 0 -> processTimeout w = cfgProcessTimeout cfg)
    end.
Proof.
  intro cfg. unfold NewWorker.
  destruct (cfgRepository cfg) as [r | ]; [ | left; split; reflexivity].
  destruct (cfgExecutor cfg) as [x | ];
    [ | right; left; repeat split; discriminate].
  destruct (cfgPublisher cfg) as [p | ];
    [ | right; right; repeat split; discriminate].
  cbv zeta. unfold orDefault. simpl.
  destruct (Z.leb_spec (cfgWorkerCount cfg) 0);
    destruct (Z.leb_spec (cfgBufferSize cfg) 0);
    destruct (Z.eqb_spec (cfgShutdownTimeout cfg) 0);
    destruct (Z.eqb_spec (cfgProcessTimeout cfg) 0);
    unfold DefaultWorkerCount, DefaultBufferSize, DefaultShutdownTimeout,
      DefaultProcessTimeout, Chan.make;
    simpl;
    repeat match goal with
           | |- _ /\ _ => split
           end;
    try reflexivity; try lia; try (intros; lia); try discriminate;
    try (intros; reflexivity); try (intro; contradiction).
Qed.

(** X2. [Start] on a running pool returns "worker already running" and
    changes nothing, so a second [Start] in a row is always rejected; and a
    running pool has no start step, so no further loops are spawned. *)
Theorem Start_twice_rejected :
  forall w,
    (running w = true -> Start w = (Some ErrWorkerRunning, w)) /\
    Start (snd (Start w)) = (Some ErrWorkerRunning, snd (Start w)) /\
    (forall (p p' : Pool W), running (worker p) = true -> ~ step p LStart p').
Proof.
  intro w. split; [ | split].
  - intro Hr. unfold Start. rewrite Hr. reflexivity.
  - unfold Start. destruct (running w) eqn:Hr; simpl.
    + rewrite Hr. reflexivity.
    + reflexivity.
  - intros p p' Hr Hstep. inversion Hstep; subst.
    match goal with H : Start _ = _ |- _ => unfold Start in H; rewrite Hr in H end.
    discriminate.
Qed.

End Construction.

Lemma Start_twice_rejected_witness :
  Start (startedWorker [] 1) = (Some ErrWorkerRunning, startedWorker [] 1).
Proof.
  apply (proj1 (@Start_twice_rejected unit (startedWorker [] 1))). reflexivity.
Defined.

Lemma NewWorker_validates_and_defaults_witness :
  workerCount (stubWorker [] 1) = 2 /\
  Chan.cap (taskChan (stubWorker [] 1)) = 1 /\
  shutdownTimeout (stubWorker [] 1) <> 0.
Proof.
  pose proof (@NewWorker_validates_and_defaults unit (stubConfig [] 1)) as H.
  change (NewWorker (stubConfig [] 1)) with
      (@inr string (Worker unit) (stubWorker [] 1)) in H.
  destruct H as (_ & _ & _ & _ & _ & _ & _ & _ & Hsd & _ & Hn & _ & Hb & _).
  split; [apply Hn; reflexivity | ].
  split; [apply Hb; reflexivity | exact Hsd].
Defined.

(** ** Statistics *)

Lemma to_u32_small (x : Z) : 0 <= x < u32_max -> to_u32 x = x.
Proof. intro H. unfold to_u32. apply Z.mod_small. exact H. Qed.

Lemma mod_inc_dec (M a : Z) :
  0 < M -> 0 <= a < M -> ((a + 1) mod M + (M - 1)) mod M = a.
Proof.
  intros HM Ha. rewrite Zplus_mod_idemp_l.
  replace (a + 1 + (M - 1)) with (a + 1 * M) by ring.
  rewrite Z_mod_plus_full. apply Z.mod_small. exact Ha.
Qed.

Lemma mod_dec (M a : Z) :
  0 < M -> 0 < a < M -> (a + (M - 1)) mod M = a - 1.
Proof.
  intros HM Ha.
  replace (a + (M - 1)) with (a - 1 + 1 * M) by ring.
  rewrite Z_mod_plus_full. apply Z.mod_small. lia.
Qed.

(** X3. The active-worker gauge: [DecrementActive] undoes
    [IncrementActive] (adding 2^32 - 1 subtracts one modulo 2^32), also at
    the top of the range; and nothing guards the bottom: [DecrementActive]
    on a gauge of 0 gives 4294967295. Neither touches another counter. *)
Theorem active_gauge_round_trip :
  forall s : Stats.WorkerStats,
    (0 <= Stats.activeWorkers s < u32_max ->
     Stats.DecrementActive (Stats.IncrementActive s) = s) /\
    (Stats.activeWorkers s = 0 ->
     Stats.GetActive (Stats.DecrementActive s) = 4294967295) /\
    (0 < Stats.activeWorkers s < u32_max ->
     Stats.GetActive (Stats.DecrementActive s) = Stats.activeWorkers s - 1).
Proof.
  intro s. destruct s as [sub proc fail retr total act run].
  cbn [Stats.activeWorkers].
  assert (HM : 0 < u32_max) by reflexivity.
  split; [ | split].
  - intro Hr. unfold Stats.DecrementActive, Stats.IncrementActive.
    cbn [Stats.tasksSubmitted Stats.tasksProcessed Stats.tasksFailed
         Stats.tasksRetried Stats.totalProcessTime Stats.activeWorkers
         Stats.running].
    f_equal. unfold to_u32. apply mod_inc_dec; assumption.
  - intro H0. subst act. reflexivity.
  - intro Hr. unfold Stats.GetActive, Stats.DecrementActive.
    cbn [Stats.activeWorkers]. unfold to_u32. apply mod_dec; assumption.
Qed.

Lemma active_gauge_round_trip_witness :
  Stats.DecrementActive (Stats.IncrementActive Stats.NewWorkerStats)
  = Stats.NewWorkerStats /\
  Stats.GetActive (Stats.DecrementActive Stats.NewWorkerStats) = 4294967295 /\
  Stats.GetActive
    (Stats.DecrementActive (Stats.mkStats 0 0 0 0 0 3 true)) = 2.
Proof.
  split; [ | split].
  - apply (proj1 (active_gauge_round_trip Stats.NewWorkerStats)).
    vm_compute. split; [discriminate | reflexivity].
  - apply (proj1 (proj2 (active_gauge_round_trip Stats.NewWorkerStats))).
    reflexivity.
  - apply (proj2 (proj2 (active_gauge_round_trip
                           (Stats.mkStats 0 0 0 0 0 3 true)))).
    vm_compute. split; reflexivity.
Defined.

Lemma recordAll_counters (durations : list Z) :
  forall s,
    Forall (fun d => 0 <= d) durations ->
    0 <= Stats.tasksProcessed s -> 0 <= Stats.totalProcessTime s ->
    Stats.tasksProcessed s + Z.of_nat (List.length durations) < u64_max ->
    Stats.totalProcessTime s + sumZ durations < u64_max ->
    Stats.tasksProcessed (recordAll durations s)
    = Stats.tasksProcessed s + Z.of_nat (List.length durations) /\
    Stats.totalProcessTime (recordAll durations s)
    = Stats.totalProcessTime s + sumZ durations.
Proof.
  induction durations as [ | d ds IH]; intros s Hpos Hp Ht Hn Hsum.
  - simpl. split; lia.
  - inversion Hpos as [ | ? ? Hd Hds]; subst.
    assert (Hsd : 0 <= sumZ ds).
    { clear - Hds. induction Hds; simpl; [lia | ]. unfold sumZ in *. simpl. lia. }
    change (sumZ (d :: ds)) with (d + sumZ ds) in *.
    change (List.length (d :: ds)) with (S (List.length ds)) in *.
    rewrite Nat2Z.inj_succ in *.
    unfold recordAll. simpl. fold (recordAll ds (Stats.RecordProcessed d s)).
    assert (E1 : Stats.tasksProcessed (Stats.RecordProcessed d s)
                 = Stats.tasksProcessed s + 1).
    { simpl. apply to_u64_small. lia. }
    assert (E2 : Stats.totalProcessTime (Stats.RecordProcessed d s)
                 = Stats.totalProcessTime s + d).
    { simpl. rewrite (to_u64_small (x := d)) by lia. apply to_u64_small. lia. }
    destruct (IH (Stats.RecordProcessed d s) Hds) as [Hp' Ht'];
      try rewrite E1; try rewrite E2; try lia.
Qed.

(** X4. Starting from fresh statistics, after [RecordProcessed] for each of
    a non-empty list of non-negative durations whose sum is below 2^63
    nanoseconds (and fewer than 2^64 records), [GetAverageProcessTime] is the
    sum of the durations divided by their number, rounded down; the processed
    counter is their number. *)
Theorem average_of_recorded_durations :
  forall durations : list Z,
    durations <> [] ->
    Forall (fun d => 0 <= d) durations ->
    sumZ durations < i64_max ->
    Z.of_nat (List.length durations) < u64_max ->
    Stats.GetProcessed (recordAll durations Stats.NewWorkerStats)
    = Z.of_nat (List.length durations) /\
    Stats.GetAverageProcessTime (recordAll durations Stats.NewWorkerStats)
    = sumZ durations / Z.of_nat (List.length durations).
Proof.
  intros durations Hne Hpos Hsum Hlen.
  destruct (@recordAll_counters durations Stats.NewWorkerStats Hpos)
    as [Hp Ht]; simpl; try lia.
  { unfold i64_max, u64_max in *. lia. }
  simpl in Hp, Ht.
  assert (Hn : 0 < Z.of_nat (List.length durations)).
  { destruct durations; [contradiction | simpl; lia]. }
  assert (Hs : 0 <= sumZ durations).
  { clear - Hpos. induction Hpos; simpl; [lia | ]. unfold sumZ in *. simpl. lia. }
  split; [exact Hp | ].
  unfold Stats.GetAverageProcessTime. rewrite Hp, Ht.
  destruct (Z.eqb_spec (Z.of_nat (List.length durations)) 0) as [E | _];
    [lia | ].
  apply to_i64_small. split.
  - apply Z.div_pos; lia.
  - apply Z.le_lt_trans with (m := sumZ durations); [ | exact Hsum].
    apply Z.div_le_upper_bound; [lia | nia].
Qed.

Lemma average_of_recorded_durations_witness :
  Stats.GetProcessed (recordAll [100; 200; 301] Stats.NewWorkerStats) = 3 /\
  Stats.GetAverageProcessTime (recordAll [100; 200; 301] Stats.NewWorkerStats)
  = 200.
Proof.
  apply (@average_of_recorded_durations [100; 200; 301]).
  - discriminate.
  - repeat constructor; discriminate.
  - reflexivity.
  - reflexivity.
Defined.

(** ** Per-task processing, the other paths *)

Section ProcessingPaths.

Context {W : Type}.
Implicit Types (w : Worker W) (ctx : Context) (task : Task) (pick : nat)
         (e : Env W).

Lemma handleTaskError_stats w ctx task err now pick :
  stats (snd (handleTaskError w ctx task err now pick))
  = if Retries task >? 0
    then Stats.RecordRetry (Stats.RecordFailed (stats w))
    else Stats.RecordFailed (stats w).
Proof.
  unfold handleTaskError. cbv zeta. rewrite sendResult_stats.
  destruct (Retries task >? 0); reflexivity.
Qed.

(** The statistics after [processTask], by the outcome of [executeTask]. *)
Lemma processTask_stats w ctx task duration now pick e :
  stats (snd (fst (processTask w ctx task duration now pick e)))
  = Stats.DecrementActive
      (match fst (executeTask w task e) with
       | (_, Some _) =>
         if Retries task >? 0
         then Stats.RecordRetry
                (Stats.RecordFailed (Stats.IncrementActive (stats w)))
         else Stats.RecordFailed (Stats.IncrementActive (stats w))
       | (Some _, None) =>
         Stats.RecordProcessed duration (Stats.IncrementActive (stats w))
       | (None, None) => Stats.IncrementActive (stats w)
       end).
Proof.
  unfold processTask. cbv zeta.
  change (executeTask (withStats w (Stats.IncrementActive (stats w))) task e)
    with (executeTask w task e).
  destruct (executeTask w task e) as [[result err] e1]. simpl.
  destruct err as [m | ].
  - match goal with
    | |- context [handleTaskError ?a ?b ?c ?d ?f ?g] =>
      pose proof (@handleTaskError_stats a b c d f g) as Hs;
      destruct (handleTaskError a b c d f g) as [o w2]
    end.
    simpl in *. rewrite Hs. destruct result; reflexivity.
  - destruct result as [r | ]; [ | reflexivity].
    match goal with
    | |- context [sendResult ?a ?b ?c ?d] =>
      pose proof (sendResult_stats a b c d) as Hs;
      destruct (sendResult a b c d) as [o w2]
    end.
    simpl in *. rewrite Hs. reflexivity.
Qed.

(** X5. [processTask] leaves the active-worker gauge where it found it on
    every path (error, success, panic on a nil result): the increment at
    entry is undone by the deferred decrement. It never changes the submitted
    counter or the running flag of the statistics. *)
Theorem processTask_gauge_balanced :
  forall w ctx task duration now pick e,
    0 <= Stats.activeWorkers (stats w) < u32_max ->
    let w' := snd (fst (processTask w ctx task duration now pick e)) in
    Stats.activeWorkers (stats w') = Stats.activeWorkers (stats w) /\
    Stats.tasksSubmitted (stats w') = Stats.tasksSubmitted (stats w) /\
    Stats.running (stats w') = Stats.running (stats w).
Proof.
  intros w ctx task duration now pick e Hr w'. subst w'.
  rewrite processTask_stats.
  assert (Hg : to_u32 (to_u32 (Stats.activeWorkers (stats w) + 1)
                       + (u32_max - 1))
               = Stats.activeWorkers (stats w)).
  { unfold to_u32. apply mod_inc_dec; [reflexivity | exact Hr]. }
  destruct (fst (executeTask w task e)) as [[r | ] [m | ]];
    try destruct (Retries task >? 0);
    unfold Stats.DecrementActive, Stats.RecordRetry, Stats.RecordFailed,
      Stats.RecordProcessed, Stats.IncrementActive;
    cbn [Stats.tasksSubmitted Stats.tasksProcessed Stats.tasksFailed
         Stats.tasksRetried Stats.totalProcessTime Stats.activeWorkers
         Stats.running];
    rewrite Hg; repeat split; reflexivity.
Qed.

(** [executeTask] when all three collaborator calls succeed. *)
Lemma executeTask_succeeds w task e wd1 res wd2 wd3 :
  UpdateStatus (repo w) (ID task) TaskStatusProcessing (world e)
  = (None, wd1) ->
  Execute (executor w) task wd1 = ((res, None), wd2) ->
  UpdateStatus (repo w) (ID task) TaskStatusCompleted wd2 = (None, wd3) ->
  executeTask w task e
  = ((res, None),
     mkEnv wd3 (calls e
                ++ [CallUpdateStatus (ID task) TaskStatusProcessing;
                    CallExecute task;
                    CallUpdateStatus (ID task) TaskStatusCompleted])%list).
Proof.
  intros H1 H2 H3. unfold executeTask, updateTaskStatus, bind, call, ret.
  rewrite H1. simpl. rewrite H2. simpl. rewrite H3. simpl.
  rewrite <- !app_assoc. reflexivity.
Qed.

(** [executeTask] when [Execute] fails: the status goes to Failed, and the
    outcome of that update is ignored. *)
Lemma executeTask_execute_fails w task e wd1 res m wd2 :
  UpdateStatus (repo w) (ID task) TaskStatusProcessing (world e)
  = (None, wd1) ->
  Execute (executor w) task wd1 = ((res, Some m), wd2) ->
  executeTask w task e
  = ((None, Some (wrapf "execute task" m)),
     mkEnv (snd (UpdateStatus (repo w) (ID task) TaskStatusFailed wd2))
           (calls e
            ++ [CallUpdateStatus (ID task) TaskStatusProcessing;
                CallExecute task;
                CallUpdateStatus (ID task) TaskStatusFailed])%list).
Proof.
  intros H1 H2. unfold executeTask, updateTaskStatus, bind, call, ret.
  rewrite H1. simpl. rewrite H2. simpl.
  destruct (UpdateStatus (repo w) (ID task) TaskStatusFailed wd2)
    as [[m' | ] wd3]; simpl; rewrite <- !app_assoc; reflexivity.
Qed.

(** X6. When the two status updates and [Execute] succeed and [Execute]
    returns a result, [processTask] makes exactly these three collaborator
    calls in this order, counts the task as processed with its duration
    added to the total time, leaves the failed and retried counters alone,
    and hands the executor's result, its [Duration] set to the measured one,
    to [sendResult]; with a live context and room in the open result channel
    that result is queued last. *)
Theorem processTask_success :
  forall w ctx task duration now pick e wd1 r wd2 wd3 out w' e',
    UpdateStatus (repo w) (ID task) TaskStatusProcessing (world e)
    = (None, wd1) ->
    Execute (executor w) task wd1 = ((Some r, None), wd2) ->
    UpdateStatus (repo w) (ID task) TaskStatusCompleted wd2 = (None, wd3) ->
    processTask w ctx task duration now pick e = (out, w', e') ->
    newCalls e e'
    = [CallUpdateStatus (ID task) TaskStatusProcessing;
       CallExecute task;
       CallUpdateStatus (ID task) TaskStatusCompleted] /\
    world e' = wd3 /\
    Stats.tasksProcessed (stats w')
    = to_u64 (Stats.tasksProcessed (stats w) + 1) /\
    Stats.totalProcessTime (stats w')
    = to_u64 (Stats.totalProcessTime (stats w) + to_u64 duration) /\
    Stats.tasksFailed (stats w') = Stats.tasksFailed (stats w) /\
    Stats.tasksRetried (stats w') = Stats.tasksRetried (stats w) /\
    out = fst (sendResult w ctx (withDuration r duration) pick) /\
    resultChan w'
    = resultChan (snd (sendResult w ctx (withDuration r duration) pick)) /\
    (ctxDone ctx = false ->
     Chan.closed (resultChan w) = false ->
     Chan.sendReady (resultChan w) = true ->
     out = Returns tt /\
     Chan.buf (resultChan w')
     = (Chan.buf (resultChan w) ++ [withDuration r duration])%list).
Proof.
  intros w ctx task duration now pick e wd1 r wd2 wd3 out w' e'
         H1 H2 H3 Hp.
  pose proof (processTask_stats w ctx task duration now pick e) as Hst.
  rewrite Hp in Hst. simpl in Hst.
  rewrite (@executeTask_succeeds w task e wd1 (Some r) wd2 wd3 H1 H2 H3)
    in Hst. simpl in Hst.
  unfold processTask in Hp. cbv zeta in Hp.
  rewrite (@executeTask_succeeds
             (withStats w (Stats.IncrementActive (stats w)))
             task e wd1 (Some r) wd2 wd3 H1 H2 H3) in Hp.
  match type of Hp with
  | context [sendResult ?a ?b ?c ?d] =>
    assert (Hs : fst (sendResult a b c d)
                 = fst (sendResult w ctx (withDuration r duration) pick) /\
                 resultChan (snd (sendResult a b c d))
                 = resultChan
                     (snd (sendResult w ctx (withDuration r duration) pick)))
      by (rewrite !sendResult_withStats_out, !sendResult_withStats_chan;
          split; reflexivity);
    destruct (sendResult a b c d) as [o w2]
  end.
  simpl in Hs. destruct Hs as [Ho Hr].
  inversion Hp; subst out w' e'; clear Hp.
  split.
  { erewrite newCalls_app by reflexivity. reflexivity. }
  split; [reflexivity | ].
  rewrite Hst. simpl.
  repeat (split; [reflexivity | ]).
  split; [exact Ho | ]. split; [exact Hr | ].
  intros Hc Hopen Hroom. rewrite Ho, Hr.
  apply sendResult_delivers; assumption.
Qed.

(** X7. When [Execute] returns an error, [processTask] sets the status to
    Failed and never to Completed, whatever that second update returns;
    the task is counted as failed, not as processed; the retried counter
    goes up exactly when the task's [Retries] is positive; and the result
    handed to [sendResult] has [Success = false] and the error text
    "execute task: " followed by the executor's. *)
Theorem processTask_execute_fails :
  forall w ctx task duration now pick e wd1 res m wd2 out w' e',
    UpdateStatus (repo w) (ID task) TaskStatusProcessing (world e)
    = (None, wd1) ->
    Execute (executor w) task wd1 = ((res, Some m), wd2) ->
    processTask w ctx task duration now pick e = (out, w', e') ->
    let failure :=
      mkTaskResult [] now (ID task) (wrapf "execute task" m) 0 false in
    newCalls e e'
    = [CallUpdateStatus (ID task) TaskStatusProcessing;
       CallExecute task;
       CallUpdateStatus (ID task) TaskStatusFailed] /\
    Stats.tasksFailed (stats w') = to_u64 (Stats.tasksFailed (stats w) + 1) /\
    Stats.tasksProcessed (stats w') = Stats.tasksProcessed (stats w) /\
    Stats.totalProcessTime (stats w') = Stats.totalProcessTime (stats w) /\
    Stats.tasksRetried (stats w')
    = (if Retries task >? 0
       then to_u64 (Stats.tasksRetried (stats w) + 1)
       else Stats.tasksRetried (stats w)) /\
    out = fst (sendResult w ctx failure pick) /\
    resultChan w' = resultChan (snd (sendResult w ctx failure pick)).
Proof.
  intros w ctx task duration now pick e wd1 res m wd2 out w' e'
         H1 H2 Hp failure.
  pose proof (processTask_stats w ctx task duration now pick e) as Hst.
  rewrite Hp in Hst. simpl in Hst.
  rewrite (@executeTask_execute_fails w task e wd1 res m wd2 H1 H2) in Hst.
  simpl in Hst.
  unfold processTask in Hp. cbv zeta in Hp.
  rewrite (@executeTask_execute_fails
             (withStats w (Stats.IncrementActive (stats w)))
             task e wd1 res m wd2 H1 H2) in Hp.
  match type of Hp with
  | context [handleTaskError ?a ?b ?c ?d ?f ?g] =>
    assert (Hs : fst (handleTaskError a b c d f g)
                 = fst (sendResult w ctx failure pick) /\
                 resultChan (snd (handleTaskError a b c d f g))
                 = resultChan (snd (sendResult w ctx failure pick)));
    [ | destruct (handleTaskError a b c d f g) as [o w2] ]
  end.
  { unfold handleTaskError. cbv zeta.
    destruct (Retries task >? 0); fold failure;
      rewrite !sendResult_withStats_out, !sendResult_withStats_chan;
      split; reflexivity. }
  simpl in Hs. destruct Hs as [Ho Hr].
  inversion Hp; subst out w' e'; clear Hp.
  split.
  { erewrite newCalls_app by reflexivity. reflexivity. }
  rewrite Hst.
  destruct (Retries task >? 0); simpl;
    repeat (split; [reflexivity | ]); split; assumption.
Qed.

End ProcessingPaths.

Lemma processTask_gauge_balanced_witness :
  Stats.activeWorkers
    (stats (snd (fst (processTask (startedWorker [] 10) Background task1
                                  5 7 0 env0)))) = 0.
Proof.
  apply (@processTask_gauge_balanced unit (startedWorker [] 10) Background
                                     task1 5 7 0%nat env0).
  vm_compute. split; [discriminate | reflexivity].
Defined.

Lemma processTask_success_witness :
  let r := processTask (startedWorker [] 10) Background task1 5 7 0 env0 in
  newCalls env0 (snd r)
  = [CallUpdateStatus "task-1" TaskStatusProcessing;
     CallExecute task1;
     CallUpdateStatus "task-1" TaskStatusCompleted] /\
  Stats.tasksProcessed (stats (snd (fst r))) = 1 /\
  Stats.totalProcessTime (stats (snd (fst r))) = 5 /\
  Chan.buf (resultChan (snd (fst r)))
  = [mkTaskResult [] 0 "task-1" "" 5 true].
Proof.
  intro r.
  destruct (@processTask_success
              unit (startedWorker [] 10) Background task1 5 7 0%nat env0 tt
              (mkTaskResult [] 0 "task-1" "" 0 true) tt tt
              (fst (fst r)) (snd (fst r)) (snd r)
              eq_refl eq_refl eq_refl eq_refl)
    as (Hcalls & _ & Hproc & Htotal & _ & _ & _ & _ & Hbuf).
  split; [exact Hcalls | ]. split; [exact Hproc | ]. split; [exact Htotal | ].
  exact (proj2 (Hbuf eq_refl eq_refl eq_refl)).
Defined.

Lemma processTask_execute_fails_witness :
  let r := processTask (failingWorker [TaskStatusFailed] 10) Background
                       retriedTask 5 7 0 env0 in
  newCalls env0 (snd r)
  = [CallUpdateStatus "task-3" TaskStatusProcessing;
     CallExecute retriedTask;
     CallUpdateStatus "task-3" TaskStatusFailed] /\
  Stats.tasksFailed (stats (snd (fst r))) = 1 /\
  Stats.tasksProcessed (stats (snd (fst r))) = 0 /\
  Stats.tasksRetried (stats (snd (fst r))) = 1 /\
  Chan.buf (resultChan (snd (fst r)))
  = [mkTaskResult [] 7 "task-3" "execute task: boom" 0 false].
Proof.
  intro r.
  destruct (@processTask_execute_fails
              unit (failingWorker [TaskStatusFailed] 10) Background
              retriedTask 5 7 0%nat env0 tt None "boom" tt
              (fst (fst r)) (snd (fst r)) (snd r)
              eq_refl eq_refl eq_refl)
    as (Hcalls & Hfail & Hproc & _ & Hretry & _ & Hchan).
  split; [exact Hcalls | ]. split; [exact Hfail | ]. split; [exact Hproc | ].
  split; [exact Hretry | ]. rewrite Hchan. reflexivity.
Defined.

(** ** Admission in sequence, shutdown and restart *)

Section Lifecycle.

Context {W : Type}.
Implicit Types (w : Worker W) (ctx : Context) (task : Task) (pick : nat).

Lemma selectCase_second_ready (a b : bool) pick k :
  selectCase [a; b] pick = Some (S k) -> b = true.
Proof.
  destruct b; [reflexivity | ].
  destruct a.
  - rewrite selectCase_first_only. discriminate.
  - assert (E : selectCase [false; false] pick = None)
      by (apply selectCase_none; tauto).
    rewrite E. discriminate.
Qed.

Lemma selectCase_first_ready (a b : bool) pick :
  selectCase [a; b] pick = Some O -> a = true.
Proof.
  destruct a; [reflexivity | ].
  destruct b.
  - rewrite selectCase_second_only. discriminate.
  - assert (E : selectCase [false; false] pick = None)
      by (apply selectCase_none; tauto).
    rewrite E. discriminate.
Qed.

(** One accepted submission: live context, open queue with room. *)
Lemma SubmitTask_accepts w ctx task pick :
  running w = true ->
  ctxDone ctx = false ->
  Chan.closed (taskChan w) = false ->
  Chan.len (taskChan w) < Chan.cap (taskChan w) ->
  SubmitTask w ctx task pick
  = (Returns None,
     withTaskChan (withStats w (Stats.RecordSubmission (stats w)))
                  (Chan.mk (Chan.buf (taskChan w) ++ [task])%list
                           (Chan.cap (taskChan w)) false)).
Proof.
  intros Hr Hc Hopen Hroom. unfold SubmitTask. rewrite Hr. simpl.
  assert (Hs : Chan.sendReady (taskChan w) = true).
  { unfold Chan.sendReady. rewrite Hopen. simpl. apply Z.ltb_lt. exact Hroom. }
  destruct (@submitSelect_determined
              W (withStats w (Stats.RecordSubmission (stats w))) ctx task pick
              Hopen) as (Hsend & _ & _).
  exact (Hsend Hc Hs).
Qed.

(** One submission to a full open queue, live context. *)
Lemma SubmitTask_queue_full w ctx task pick :
  running w = true ->
  ctxDone ctx = false ->
  Chan.closed (taskChan w) = false ->
  Chan.cap (taskChan w) <= Chan.len (taskChan w) ->
  SubmitTask w ctx task pick
  = (Returns (Some ErrTaskQueueFull),
     withStats w (Stats.RecordSubmission (stats w))).
Proof.
  intros Hr Hc Hopen Hfull. unfold SubmitTask. rewrite Hr. simpl.
  assert (Hs : Chan.sendReady (taskChan w) = false).
  { unfold Chan.sendReady. rewrite Hopen. simpl. apply Z.ltb_ge. exact Hfull. }
  destruct (@submitSelect_determined
              W (withStats w (Stats.RecordSubmission (stats w))) ctx task pick
              Hopen) as (_ & Hfullcase & _).
  exact (Hfullcase Hc Hs).
Qed.

(** X8. Backpressure and order. With a live context and nobody draining, a
    running pool accepts tasks one after the other as long as the open queue
    has room: every call returns no error, the tasks are queued behind the
    ones already there in submission order, and each call adds one to the
    submitted counter. Once the queue holds as many tasks as its capacity,
    the next call returns "task queue full" and leaves the queue as it is. *)
Theorem submitAll_fills_queue_in_order :
  forall (tasks : list Task) w ctx (picks : list nat),
    running w = true ->
    ctxDone ctx = false ->
    Chan.closed (taskChan w) = false ->
    0 <= Stats.tasksSubmitted (stats w) < u64_max ->
    Chan.len (taskChan w) + Z.of_nat (List.length tasks)
    <= Chan.cap (taskChan w) ->
    let w' := snd (submitAll w ctx tasks picks) in
    fst (submitAll w ctx tasks picks)
    = map (fun _ => Returns None) tasks /\
    taskChan w'
    = Chan.mk (Chan.buf (taskChan w) ++ tasks)%list
              (Chan.cap (taskChan w)) false /\
    Stats.tasksSubmitted (stats w')
    = to_u64 (Stats.tasksSubmitted (stats w) + Z.of_nat (List.length tasks)) /\
    running w' = true /\
    (Chan.len (taskChan w) + Z.of_nat (List.length tasks)
     = Chan.cap (taskChan w) ->
     forall extra pick,
       fst (SubmitTask w' ctx extra pick) = Returns (Some ErrTaskQueueFull) /\
       taskChan (snd (SubmitTask w' ctx extra pick)) = taskChan w').
Proof.
  induction tasks as [ | task rest IH];
    intros w ctx picks Hr Hc Hopen Hsub Hroom w'; subst w'.
  - cbn [submitAll fst snd map List.length Z.of_nat].
    rewrite app_nil_r, !Z.add_0_r.
    split; [reflexivity | ].
    split.
    { destruct (taskChan w) as [b c cl]. cbn in Hopen |- *. rewrite Hopen.
      reflexivity. }
    split; [symmetry; apply to_u64_small; exact Hsub | ].
    split; [exact Hr | ].
    intros Hfull extra pick.
    rewrite (@SubmitTask_queue_full w ctx extra pick Hr Hc Hopen) by lia.
    split; reflexivity.
  - change (List.length (task :: rest)) with (S (List.length rest)) in *.
    rewrite Nat2Z.inj_succ in *.
    assert (Hlt : Chan.len (taskChan w) < Chan.cap (taskChan w)) by lia.
    cbn [submitAll].
    rewrite (@SubmitTask_accepts w ctx task (hd O picks) Hr Hc Hopen Hlt).
    set (w1 := withTaskChan (withStats w (Stats.RecordSubmission (stats w)))
                            (Chan.mk (Chan.buf (taskChan w) ++ [task])%list
                                     (Chan.cap (taskChan w)) false)).
    assert (Hlen1 : Chan.len (taskChan w1) = Chan.len (taskChan w) + 1).
    { unfold w1, Chan.len. cbn. rewrite length_app. cbn. lia. }
    assert (Hsub1 : 0 <= Stats.tasksSubmitted (stats w1) < u64_max).
    { unfold w1. cbn. apply Z.mod_pos_bound. reflexivity. }
    specialize (IH w1 ctx (tl picks) Hr Hc eq_refl Hsub1).
    assert (Hroom1 : Chan.len (taskChan w1) + Z.of_nat (List.length rest)
                     <= Chan.cap (taskChan w1)).
    { rewrite Hlen1. unfold w1. cbn. lia. }
    specialize (IH Hroom1). cbv zeta in IH.
    destruct (submitAll w1 ctx rest (tl picks)) as [outs w2].
    cbn [fst snd] in IH |- *.
    destruct IH as (Houts & Hchan & Hcount & Hrun & Hnext).
    split; [cbn [map]; rewrite Houts; reflexivity | ].
    split.
    { rewrite Hchan. unfold w1. cbn. rewrite <- app_assoc. reflexivity. }
    split.
    { rewrite Hcount. unfold w1. cbn.
      unfold to_u64. rewrite Zplus_mod_idemp_l. f_equal. lia. }
    split; [exact Hrun | ].
    intros Hfull extra pick. apply Hnext.
    rewrite Hlen1. unfold w1. cbn. lia.
Qed.

End Lifecycle.

Lemma submitAll_fills_queue_in_order_witness :
  let w' := snd (submitAll (startedWorker [] 2) Background [task1; task2] []) in
  fst (submitAll (startedWorker [] 2) Background [task1; task2] [])
  = [Returns None; Returns None] /\
  Chan.buf (taskChan w') = [task1; task2] /\
  Stats.tasksSubmitted (stats w') = 2 /\
  fst (SubmitTask w' Background retriedTask 0)
  = Returns (Some ErrTaskQueueFull).
Proof.
  intro w'.
  destruct (@submitAll_fills_queue_in_order
              unit [task1; task2] (startedWorker [] 2) Background []
              eq_refl eq_refl eq_refl)
    as (Houts & Hchan & Hcount & _ & Hnext).
  - vm_compute. split; [discriminate | reflexivity].
  - vm_compute. discriminate.
  - split; [exact Houts | ].
    split; [fold w' in Hchan; rewrite Hchan; reflexivity | ].
    split; [exact Hcount | ].
    exact (proj1 (Hnext eq_refl retriedTask 0%nat)).
Defined.

Section ShutdownFacts.

Context {W : Type}.
Implicit Types (w : Worker W) (ctx : Context) (task : Task) (pick : nat).

(** What [Shutdown] does to a running pool whose channels are open.
    When the goroutines finish in time it returns no error and leaves the
    pool not running, both channels closed, the statistics stopped, and the
    queued tasks and all counters as they were. When the shutdown context
    ends first it returns "shutdown timeout: " followed by the context's
    error; the pool is not running and the task channel is closed, but the
    result channel is still open and the statistics still run. *)
Lemma Shutdown_of_running_pool :
  forall w,
    running w = true ->
    Chan.closed (taskChan w) = false ->
    (Chan.closed (resultChan w) = false ->
     Shutdown w None
     = (Returns None,
        mkWorker (repo w) (executor w) (publisher w) (Stats.Stop (stats w))
                 (workerCount w)
                 (Chan.mk (Chan.buf (taskChan w)) (Chan.cap (taskChan w)) true)
                 (Chan.mk (Chan.buf (resultChan w)) (Chan.cap (resultChan w))
                          true)
                 (shutdownTimeout w) (processTimeout w) false)) /\
    (forall e,
        Shutdown w (Some e)
        = (Returns (Some (wrapf "shutdown timeout" e)),
           mkWorker (repo w) (executor w) (publisher w) (stats w)
                    (workerCount w)
                    (Chan.mk (Chan.buf (taskChan w)) (Chan.cap (taskChan w))
                             true)
                    (resultChan w)
                    (shutdownTimeout w) (processTimeout w) false)).
Proof.
  intros w Hr Hopen. split.
  - intro Hres. unfold Shutdown, Chan.close. rewrite Hr. cbn.
    rewrite Hopen, Hres. reflexivity.
  - intro e. unfold Shutdown, Chan.close. rewrite Hr. cbn.
    rewrite Hopen. reflexivity.
Qed.

(** X9. After any [Shutdown] call that returns (with or without an error),
    [SubmitTask] is rejected with "worker not running" and changes nothing:
    it does not count the task and does not touch the closed channel. *)
Theorem SubmitTask_after_Shutdown :
  forall w wait err w',
    Shutdown w wait = (Returns err, w') ->
    forall ctx task pick,
      SubmitTask w' ctx task pick = (Returns (Some ErrWorkerNotRunning), w').
Proof.
  intros w wait err w' Hs ctx task pick.
  assert (Hr : running w' = false).
  { unfold Shutdown in Hs. destruct (running w) eqn:Hrw; cbn [negb] in Hs.
    - destruct (Chan.close (taskChan (withRunning w false))) as [tc | msg];
        [ | discriminate Hs].
      destruct wait as [e | ]; [inversion Hs; reflexivity | ].
      match type of Hs with
      | context [Chan.close ?c] =>
        destruct (Chan.close c) as [rc | msg]; [ | discriminate Hs]
      end.
      inversion Hs. reflexivity.
    - inversion Hs; subst. exact Hrw. }
  unfold SubmitTask. rewrite Hr. reflexivity.
Qed.

(** X10. A pool cannot be restarted. After a [Shutdown] of a running pool
    that returned, [Start] succeeds again, but the task channel stays
    closed: the next [SubmitTask] with a live context panics with "send on
    closed channel" (after counting the task), and the next [Shutdown]
    panics with "close of closed channel". *)
Theorem restart_after_Shutdown_panics :
  forall w wait err w1,
    running w = true ->
    Shutdown w wait = (Returns err, w1) ->
    let w2 := snd (Start w1) in
    fst (Start w1) = None /\
    running w2 = true /\
    (forall ctx task pick,
        ctxDone ctx = false ->
        SubmitTask w2 ctx task pick
        = (Panics "send on closed channel",
           withStats w2 (Stats.RecordSubmission (stats w2)))) /\
    (forall wait',
        Shutdown w2 wait'
        = (Panics "close of closed channel", withRunning w2 false)).
Proof.
  intros w wait err w1 Hr Hs w2.
  assert (H1 : running w1 = false /\ Chan.closed (taskChan w1) = true).
  { unfold Shutdown, Chan.close in Hs. rewrite Hr in Hs. cbn [negb] in Hs.
    cbn in Hs.
    destruct (Chan.closed (taskChan w)); [discriminate Hs | ].
    destruct wait as [e | ]; [inversion Hs; split; reflexivity | ].
    cbn in Hs.
    destruct (Chan.closed (resultChan w)); [discriminate Hs | ].
    inversion Hs. split; reflexivity. }
  destruct H1 as [Hr1 Hc1].
  assert (E2 : Start w1 = (None, withRunning w1 true)).
  { unfold Start. rewrite Hr1. reflexivity. }
  subst w2. rewrite E2. cbn [fst snd].
  split; [reflexivity | ]. split; [reflexivity | ].
  split.
  - intros ctx task pick Hlive.
    unfold SubmitTask. cbn. unfold submitSelect. cbn.
    unfold Chan.sendReady. rewrite Hlive, Hc1. cbn [orb].
    rewrite selectCase_second_only. unfold Chan.send. cbn. rewrite Hc1.
    reflexivity.
  - intro wait'. unfold Shutdown, Chan.close. cbn. rewrite Hc1. reflexivity.
Qed.

(** The [select] of a worker loop. With a live context it receives the
    oldest queued task, also from a closed channel, so tasks queued before
    [Shutdown] are still drained in order; on a closed and empty channel it
    returns; on an open and empty one it blocks. With a done context and an
    empty open channel it returns. *)
Lemma processTasksLoopSelect_cases :
  forall w ctx pick,
    (ctxDone ctx = false ->
     forall task rest,
       Chan.buf (taskChan w) = task :: rest ->
       processTasksLoopSelect w ctx pick
       = Some (Some task,
               withTaskChan w (Chan.mk rest (Chan.cap (taskChan w))
                                       (Chan.closed (taskChan w))))) /\
    (ctxDone ctx = false ->
     Chan.buf (taskChan w) = [] -> Chan.closed (taskChan w) = true ->
     processTasksLoopSelect w ctx pick = Some (None, w)) /\
    (ctxDone ctx = false ->
     Chan.buf (taskChan w) = [] -> Chan.closed (taskChan w) = false ->
     processTasksLoopSelect w ctx pick = None) /\
    (ctxDone ctx = true ->
     Chan.buf (taskChan w) = [] ->
     processTasksLoopSelect w ctx pick = Some (None, w)).
Proof.
  intros w ctx pick.
  unfold processTasksLoopSelect, Chan.recvReady, Chan.recv.
  repeat split.
  - intros Hc task rest Hb. rewrite Hc, Hb.
    rewrite selectCase_second_only. reflexivity.
  - intros Hc Hb Hcl. rewrite Hc, Hb, Hcl.
    rewrite selectCase_second_only. reflexivity.
  - intros Hc Hb Hcl. rewrite Hc, Hb, Hcl.
    assert (E : selectCase [false; false] pick = None)
      by (apply selectCase_none; tauto).
    rewrite E. reflexivity.
  - intros Hc Hb. rewrite Hc, Hb.
    destruct (Chan.closed (taskChan w)).
    + destruct (selectCase [true; true] pick) as [[ | k] | ] eqn:E;
        [reflexivity | reflexivity | ].
      apply selectCase_none in E. destruct E; discriminate.
    + rewrite selectCase_first_only. reflexivity.
Qed.

End ShutdownFacts.

(** ** A worker loop on a closed channel *)

Section Draining.

Context {W : Type}.
Implicit Types (w : Worker W) (ctx : Context) (e : Env W).

Lemma processTask_taskChan w ctx task duration now pick e :
  taskChan (snd (fst (processTask w ctx task duration now pick e)))
  = taskChan w.
Proof.
  destruct (processTask w ctx task duration now pick e) as [[out w'] e'] eqn:E.
  destruct (processTask_counters _ _ _ _ _ _ _ E) as (_ & Hq & _).
  exact Hq.
Qed.

(** X11. Draining. On a closed task channel and with a live context a
    worker loop never blocks and needs no more turns than there are queued
    tasks plus one: it takes the queued tasks in queue order, runs
    [processTask] on each, and returns once the queue is empty (or stops at
    the task whose processing panics, having taken the tasks before it). So
    tasks queued before [Shutdown] are not lost. *)
Theorem processTasksLoop_drains_closed_queue :
  forall (queued : list Task) (fuel : nat) w ctx (turns : list Turn) e,
    ctxDone ctx = false ->
    Chan.closed (taskChan w) = true ->
    Chan.buf (taskChan w) = queued ->
    (List.length queued < fuel)%nat ->
    let '(ending, taken, w', e') := processTasksLoop fuel w ctx turns e in
    (ending = LoopReturned /\ taken = queued /\
     Chan.buf (taskChan w') = [] /\ Chan.closed (taskChan w') = true) \/
    (exists msg rest,
        ending = LoopPanicked msg /\ taken <> [] /\
        queued = (taken ++ rest)%list).
Proof.
  induction queued as [ | task rest IH];
    intros fuel w ctx turns e Hlive Hclosed Hbuf Hfuel.
  - destruct fuel as [ | fuel']; [inversion Hfuel | ].
    cbn [processTasksLoop].
    destruct (@processTasksLoopSelect_cases W w ctx
                                            (selectPick (hd turn0 turns)))
      as (_ & Hexit & _).
    rewrite (Hexit Hlive Hbuf Hclosed).
    left. repeat split; assumption.
  - destruct fuel as [ | fuel']; [inversion Hfuel | ].
    cbn [processTasksLoop].
    destruct (@processTasksLoopSelect_cases W w ctx
                                            (selectPick (hd turn0 turns)))
      as (Hrecv & _).
    rewrite (Hrecv Hlive task rest Hbuf).
    match goal with
    | |- context [processTask ?a ?b ?c ?d ?f ?g ?h] =>
      pose proof (@processTask_taskChan a b c d f g h) as Hq;
      destruct (processTask a b c d f g h) as [[out w2] e2]
    end.
    cbn [fst snd] in Hq. cbn [taskChan withTaskChan] in Hq.
    destruct out as [[] | msg].
    + assert (Hc2 : Chan.closed (taskChan w2) = true)
        by (rewrite Hq; exact Hclosed).
      assert (Hb2 : Chan.buf (taskChan w2) = rest) by (rewrite Hq; reflexivity).
      assert (Hf2 : (List.length rest < fuel')%nat) by (simpl in Hfuel; lia).
      specialize (IH fuel' w2 ctx (tl turns) e2 Hlive Hc2 Hb2 Hf2).
      destruct (processTasksLoop fuel' w2 ctx (tl turns) e2)
        as [[[ending taken] w3] e3].
      destruct IH as [(He & Ht & Hb & Hc) | (msg & rest' & He & Hne & Hq')].
      * left. subst. repeat split; assumption.
      * right. exists msg, rest'. subst rest.
        split; [exact He | ]. split; [discriminate | reflexivity].
    + right. exists msg, rest. split; [reflexivity | ].
      split; [discriminate | reflexivity].
Qed.

End Draining.

Lemma processTasksLoop_drains_closed_queue_witness :
  let '(ending, taken, w', e') :=
    processTasksLoop 3 drainingWorker Background [] env0 in
  (ending = LoopReturned /\ taken = [task1; task2] /\
   Chan.buf (taskChan w') = [] /\ Chan.closed (taskChan w') = true) \/
  (exists msg rest,
      ending = LoopPanicked msg /\ taken <> [] /\
      [task1; task2] = (taken ++ rest)%list).
Proof.
  exact (@processTasksLoop_drains_closed_queue
           unit [task1; task2] 3%nat drainingWorker Background [] env0
           eq_refl eq_refl eq_refl (Nat.lt_succ_diag_r 2)).
Defined.

(** ** The channels stay within their capacity *)

Section ChannelBounds.

Context {W : Type}.
Implicit Types (w : Worker W) (ctx : Context) (e : Env W) (p : Pool W).

Lemma send_bounded {A : Type} (c c' : Chan.t A) (x : A) :
  Chan.sendReady c = true ->
  Chan.send c x = Returns c' ->
  Chan.cap c' = Chan.cap c /\ Chan.len c' <= Chan.cap c.
Proof.
  unfold Chan.sendReady, Chan.send.
  destruct (Chan.closed c); cbn [orb]; intros Hroom H; cbv iota in H;
    [discriminate H | ].
  inversion H; subst c'; clear H.
  apply Z.ltb_lt in Hroom. unfold Chan.len in *. cbn.
  rewrite length_app. cbn. split; [reflexivity | lia].
Qed.

Lemma sendResult_bounded cap0 w ctx result pick :
  wBounded cap0 w -> wBounded cap0 (snd (sendResult w ctx result pick)).
Proof.
  intros (Ht & Hr & Hlt & Hlr). unfold sendResult.
  destruct (selectCase _ pick) as [[ | k] | ] eqn:E;
    try (repeat split; assumption).
  apply selectCase_second_ready in E.
  destruct (Chan.send (resultChan w) result) as [c | msg] eqn:Hs;
    [ | repeat split; assumption].
  destruct (send_bounded _ _ E Hs) as [Hc Hl].
  unfold wBounded. cbn. rewrite Hc. repeat split; try assumption. lia.
Qed.

Lemma submitSelect_bounded cap0 w ctx task pick :
  wBounded cap0 w -> wBounded cap0 (snd (submitSelect w ctx task pick)).
Proof.
  intros (Ht & Hr & Hlt & Hlr). unfold submitSelect.
  destruct (selectCase _ pick) as [[ | k] | ] eqn:E;
    try (repeat split; assumption).
  apply selectCase_second_ready in E.
  destruct (Chan.send (taskChan w) task) as [c | msg] eqn:Hs;
    [ | repeat split; assumption].
  destruct (send_bounded _ _ E Hs) as [Hc Hl].
  unfold wBounded. cbn. rewrite Hc. repeat split; try assumption. lia.
Qed.

Lemma withStats_bounded cap0 w s :
  wBounded cap0 w <-> wBounded cap0 (withStats w s).
Proof. unfold wBounded. cbn. tauto. Qed.

Lemma processTask_bounded cap0 w ctx task duration now pick e :
  wBounded cap0 w ->
  wBounded cap0 (snd (fst (processTask w ctx task duration now pick e))).
Proof.
  intro Hb. unfold processTask. cbv zeta.
  destruct (executeTask _ task e) as [[result err] e1].
  assert (H1 : wBounded cap0 (withStats w (Stats.IncrementActive (stats w))))
    by (apply withStats_bounded; exact Hb).
  destruct err as [m | ].
  - unfold handleTaskError. cbv zeta.
    match goal with
    | |- context [sendResult ?a ?b ?c ?d] =>
      assert (H2 : wBounded cap0 (snd (sendResult a b c d)));
      [ apply sendResult_bounded;
        destruct (Retries task >? 0); repeat apply withStats_bounded;
        exact Hb
      | destruct (sendResult a b c d) as [o w2] ]
    end.
    cbn in *. apply withStats_bounded. exact H2.
  - destruct result as [r | ].
    + match goal with
      | |- context [sendResult ?a ?b ?c ?d] =>
        assert (H2 : wBounded cap0 (snd (sendResult a b c d)));
        [ apply sendResult_bounded; repeat apply withStats_bounded; exact Hb
        | destruct (sendResult a b c d) as [o w2] ]
      end.
      cbn in *. apply withStats_bounded. exact H2.
    + cbn. repeat apply withStats_bounded. exact Hb.
Qed.

Lemma recv_bounded {A : Type} (c c' : Chan.t A) (x : option A) :
  Chan.recv c = (x, c') ->
  Chan.cap c' = Chan.cap c /\ Chan.len c' <= Chan.len c.
Proof.
  unfold Chan.recv, Chan.len.
  destruct (Chan.buf c) as [ | y rest] eqn:Hb; intro H; inversion H; subst.
  - rewrite Hb. cbn. split; [reflexivity | lia].
  - cbn. split; [reflexivity | lia].
Qed.

Lemma processTasksLoopSelect_bounded cap0 w ctx pick r w' :
  processTasksLoopSelect w ctx pick = Some (r, w') ->
  wBounded cap0 w -> wBounded cap0 w'.
Proof.
  unfold processTasksLoopSelect.
  destruct (selectCase _ pick) as [[ | k] | ]; try discriminate.
  - intro H. inversion H; subst. tauto.
  - destruct (Chan.recv (taskChan w)) as [[t | ] c] eqn:Hr;
      intro H; inversion H; subst; [ | tauto].
    destruct (recv_bounded _ Hr) as [Hc Hl].
    intros (Ht & Hres & Hlt & Hlr). unfold wBounded. cbn.
    rewrite Hc. repeat split; try assumption. lia.
Qed.

Lemma processResultsLoopSelect_bounded cap0 w ctx pick r w' :
  processResultsLoopSelect w ctx pick = Some (r, w') ->
  wBounded cap0 w -> wBounded cap0 w'.
Proof.
  unfold processResultsLoopSelect.
  destruct (selectCase _ pick) as [[ | k] | ]; try discriminate.
  - intro H. inversion H; subst. tauto.
  - destruct (Chan.recv (resultChan w)) as [[t | ] c] eqn:Hr;
      intro H; inversion H; subst; [ | tauto].
    destruct (recv_bounded _ Hr) as [Hc Hl].
    intros (Ht & Hres & Hlt & Hlr). unfold wBounded. cbn.
    rewrite Hc. repeat split; try assumption. lia.
Qed.

Lemma step_chansBounded cap0 p l p' :
  chansBounded cap0 p -> step p l p' -> chansBounded cap0 p'.
Proof.
  intros Hb Hstep. change (wBounded cap0 (worker p)) in Hb.
  change (wBounded cap0 (worker p')).
  inversion Hstep; subst; clear Hstep; cbn [worker].
  - match goal with H : Start _ = _ |- _ => unfold Start in H end.
    destruct (running (worker p)); [discriminate | ].
    match goal with H : (_, _) = (_, _) |- _ => inversion H; subst end.
    exact Hb.
  - exact Hb.
  - apply withStats_bounded. exact Hb.
  - match goal with
    | H : submitSelect ?a ?b ?c ?d = _ |- _ =>
      pose proof (@submitSelect_bounded cap0 a b c d Hb) as H2;
      rewrite H in H2
    end. exact H2.
  - eapply processTasksLoopSelect_bounded; eassumption.
  - eapply processTasksLoopSelect_bounded; eassumption.
  - match goal with
    | H : processTask ?a ?b ?c ?d ?f ?g ?h = _ |- _ =>
      pose proof (@processTask_bounded cap0 a b c d f g h Hb) as H2;
      rewrite H in H2
    end. exact H2.
  - eapply processResultsLoopSelect_bounded; eassumption.
  - eapply processResultsLoopSelect_bounded; eassumption.
  - unfold Chan.close. destruct (Chan.closed (taskChan (worker p)));
      exact Hb.
  - unfold Chan.close. destruct (Chan.closed (resultChan (worker p)));
      [exact Hb | ].
    apply withStats_bounded. exact Hb.
Qed.

Lemma NewWorker_channels (cfg : WorkerConfig W) w :
  NewWorker cfg = inr w ->
  taskChan w = Chan.make (Chan.cap (taskChan w)) /\
  resultChan w = Chan.make (Chan.cap (taskChan w)) /\
  0 < Chan.cap (taskChan w).
Proof.
  unfold NewWorker.
  destruct (cfgRepository cfg); [ | discriminate].
  destruct (cfgExecutor cfg); [ | discriminate].
  destruct (cfgPublisher cfg); [ | discriminate].
  intro H. inversion H; subst w; clear H. cbn.
  split; [reflexivity | ]. split; [reflexivity | ].
  unfold orDefault, DefaultBufferSize.
  destruct (Z.leb_spec (cfgBufferSize cfg) 0); lia.
Qed.

(** X12. In every state a pool built by [NewWorker] reaches, by any
    interleaving of its steps, both channels still have the capacity chosen
    at construction (which is positive) and neither holds more elements than
    that: no [SubmitTask] and no [sendResult] ever overfills a channel. *)
Theorem channels_stay_bounded :
  forall (cfg : WorkerConfig W) w e (tr : list Label) p,
    NewWorker cfg = inr w ->
    run (newPool w e) tr p ->
    0 < Chan.cap (taskChan w) /\
    chansBounded (Chan.cap (taskChan w)) p.
Proof.
  intros cfg w e tr p Hnew Hrun.
  destruct (@NewWorker_channels cfg w Hnew) as (Htc & Hrc & Hcap).
  split; [exact Hcap | ].
  induction Hrun as [ | tr p l p' Hrun IH Hstep].
  - assert (Hb1 : Chan.buf (taskChan w) = []) by (rewrite Htc; reflexivity).
    assert (Hb2 : Chan.buf (resultChan w) = [] /\
                  Chan.cap (resultChan w) = Chan.cap (taskChan w))
      by (rewrite Hrc; split; reflexivity).
    destruct Hb2 as [Hb2 Hc2].
    unfold chansBounded, wBounded, newPool, Chan.len. cbn [worker].
    rewrite Hb1, Hb2, Hc2. cbn. repeat split; lia.
  - exact (step_chansBounded IH Hstep).
Qed.

End ChannelBounds.

Lemma channels_stay_bounded_witness :
  0 < 1 /\ chansBounded 1 demoPool6.
Proof.
  exact (@channels_stay_bounded unit (stubConfig [] 1) (stubWorker [] 1) env0
                                demoTrace demoPool6 eq_refl demo_run).
Defined.

Lemma SubmitTask_after_Shutdown_witness :
  SubmitTask (snd (Shutdown (startedWorker [] 1) None)) Background task1 0
  = (Returns (Some ErrWorkerNotRunning),
     snd (Shutdown (startedWorker [] 1) None)).
Proof.
  apply (@SubmitTask_after_Shutdown
           unit (startedWorker [] 1) None None
           (snd (Shutdown (startedWorker [] 1) None))).
  reflexivity.
Defined.

Lemma restart_after_Shutdown_panics_witness :
  let w2 := snd (Start (snd (Shutdown (startedWorker [] 1) None))) in
  fst (SubmitTask w2 Background task1 0) = Panics "send on closed channel" /\
  fst (Shutdown w2 None) = Panics "close of closed channel".
Proof.
  intro w2.
  destruct (@restart_after_Shutdown_panics
              unit (startedWorker [] 1) None None
              (snd (Shutdown (startedWorker [] 1) None)) eq_refl eq_refl)
    as (_ & _ & Hsubmit & Hshut).
  split.
  - fold w2 in Hsubmit. rewrite (Hsubmit Background task1 0%nat eq_refl).
    reflexivity.
  - fold w2 in Hshut. rewrite (Hshut None). reflexivity.
Defined.

(** ** Failures and retries under interleaving *)

Section Retries.

Context {W : Type}.
Implicit Types (w : Worker W) (p : Pool W).

Lemma processings_cons (l : Label) (tr : list Label) :
  processings (l :: tr) = processCount l (processings tr).
Proof. destruct l; reflexivity. Qed.

Lemma processings_nonneg (tr : list Label) : 0 <= processings tr.
Proof.
  induction tr as [ | l tr IH]; [simpl; lia | ].
  destruct l; cbn [processings]; lia.
Qed.

Lemma step_failuresCounted p l p' (n : Z) :
  failuresCounted n p -> step p l p' ->
  failuresCounted (processCount l n) p'.
Proof.
  intros (nf & nr & Hnr & Hle & Hn & Hf & Hr) Hstep.
  inversion Hstep; subst; clear Hstep; unfold processCount.
  - match goal with H : Start _ = _ |- _ => unfold Start in H end.
    destruct (running (worker p)); [discriminate | ].
    match goal with H : (_, _) = (_, _) |- _ => inversion H; subst end.
    exists nf, nr. cbn. tauto.
  - exists nf, nr. cbn. tauto.
  - exists nf, nr. cbn. tauto.
  - match goal with
    | H : submitSelect _ _ _ _ = _ |- _ =>
      destruct (submitSelect_queue _ _ _ _ H) as [Hst _]
    end.
    exists nf, nr. cbn. rewrite Hst. tauto.
  - match goal with
    | H : processTasksLoopSelect _ _ _ = _ |- _ =>
      destruct (processTasksLoopSelect_spec _ _ _ H) as [Hst _]
    end.
    exists nf, nr. cbn. rewrite Hst. tauto.
  - match goal with
    | H : processTasksLoopSelect _ _ _ = _ |- _ =>
      destruct (processTasksLoopSelect_spec _ _ _ H) as [Hst _]
    end.
    exists nf, nr. cbn. rewrite Hst. tauto.
  - match goal with
    | H : processTask ?a ?b ?c ?d ?f ?g ?h = _ |- _ =>
      pose proof (@processTask_stats W a b c d f g h) as Hst;
      rewrite H in Hst; cbn [fst snd] in Hst
    end.
    unfold failuresCounted. cbn [worker].
    destruct (fst (executeTask (worker p) task (env p))) as [[r | ] [m | ]];
      try destruct (Retries task >? 0);
      rewrite Hst;
      unfold Stats.DecrementActive, Stats.RecordRetry, Stats.RecordFailed,
        Stats.RecordProcessed, Stats.IncrementActive;
      cbn [Stats.tasksSubmitted Stats.tasksProcessed Stats.tasksFailed
           Stats.tasksRetried Stats.totalProcessTime Stats.activeWorkers
           Stats.running];
      rewrite ?Hf, ?Hr, ?to_u64_succ;
      first [ exists (nf + 1), (nr + 1); repeat split; (reflexivity || lia)
            | exists (nf + 1), nr; repeat split; (reflexivity || lia)
            | exists nf, nr; repeat split; (reflexivity || lia) ].
  - match goal with
    | H : processResultsLoopSelect _ _ _ = _ |- _ =>
      destruct (processResultsLoopSelect_spec _ _ _ H) as [Hst _]
    end.
    exists nf, nr. cbn. rewrite Hst. tauto.
  - match goal with
    | H : processResultsLoopSelect _ _ _ = _ |- _ =>
      destruct (processResultsLoopSelect_spec _ _ _ H) as [Hst _]
    end.
    exists nf, nr. cbn. rewrite Hst. tauto.
  - exists nf, nr. unfold Chan.close.
    destruct (Chan.closed (taskChan (worker p))); cbn; tauto.
  - exists nf, nr. unfold Chan.close.
    destruct (Chan.closed (resultChan (worker p))); cbn; tauto.
Qed.

(** X13. From a pool built by [NewWorker] with fresh statistics, in every
    state reached by any interleaving the retried counter does not exceed
    the failed counter, and the failed counter does not exceed the number of
    tasks processed so far, as long as fewer than 2^64 tasks were processed
    (no counter has wrapped): a retry is only ever recorded together with a
    failure. *)
Theorem retried_le_failed :
  forall (cfg : WorkerConfig W) w (e : Env W) (tr : list Label) p,
    cfgStats cfg = None ->
    NewWorker cfg = inr w ->
    run (newPool w e) tr p ->
    processings tr < u64_max ->
    Stats.tasksRetried (stats (worker p))
    <= Stats.tasksFailed (stats (worker p)) /\
    Stats.tasksFailed (stats (worker p)) <= processings tr.
Proof.
  intros cfg w e tr p Hfresh Hnew Hrun Hbound.
  assert (H0 : failuresCounted 0 (newPool w e)).
  { unfold NewWorker in Hnew. rewrite Hfresh in Hnew.
    destruct (cfgRepository cfg); [ | discriminate].
    destruct (cfgExecutor cfg); [ | discriminate].
    destruct (cfgPublisher cfg); [ | discriminate].
    inversion Hnew; subst w. exists 0, 0. cbn.
    repeat split; try reflexivity; lia. }
  assert (Hinv : failuresCounted (processings tr) p).
  { clear Hbound. induction Hrun as [ | tr p l p' Hrun IH Hstep].
    - exact H0.
    - rewrite processings_cons. exact (step_failuresCounted IH Hstep). }
  destruct Hinv as (nf & nr & Hnr & Hle & Hn & Hf & Hr).
  rewrite Hf, Hr.
  rewrite (to_u64_small (x := nf)) by lia.
  rewrite (to_u64_small (x := nr)) by lia.
  lia.
Qed.

End Retries.

Lemma retried_le_failed_witness :
  Stats.tasksRetried (stats (worker demoPool6))
  <= Stats.tasksFailed (stats (worker demoPool6)) /\
  Stats.tasksFailed (stats (worker demoPool6)) <= processings demoTrace.
Proof.
  apply (@retried_le_failed
           unit (stubConfig [] 1) (stubWorker [] 1) env0 demoTrace demoPool6).
  - reflexivity.
  - reflexivity.
  - exact demo_run.
  - reflexivity.
Defined.

(** ** Statuses and flags *)

Lemma IsValidStatus_iff (s : TaskStatus) :
  IsValidStatus s = true <-> In s validStatuses.
Proof.
  unfold IsValidStatus. rewrite existsb_exists. split.
  - intros (x & Hin & Heq). apply String.eqb_eq in Heq. subst x. exact Hin.
  - intro Hin. exists s. split; [exact Hin | apply String.eqb_refl].
Qed.

(** X14. [IsValidStatus] accepts exactly the four defined statuses.
    [CanTransition] only ever allows a move between two valid statuses, and
    always to the next stage (pending, then processing, then completed or
    failed): so no status can move to itself, completed and failed allow no
    move at all, and no sequence of allowed moves has more than two steps or
    returns to a status it left. *)
Theorem CanTransition_follows_stages :
  forall (t : Task) (newStatus : TaskStatus),
    (IsValidStatus newStatus = true <-> In newStatus validStatuses) /\
    (CanTransition t newStatus = true ->
     IsValidStatus (Status t) = true /\ IsValidStatus newStatus = true /\
     exists k, statusRank (Status t) = Some k /\
               statusRank newStatus = Some (k + 1)) /\
    (CanTransition t newStatus = true ->
     forall s, CanTransition (withStatus t newStatus) s = true ->
               forall s', CanTransition (withStatus t s) s' = false).
Proof.
  intros t newStatus.
  split; [apply IsValidStatus_iff | ].
  assert (Hstage :
            forall a b, CanTransition (withStatus t a) b = true ->
                        (a = TaskStatusPending /\ b = TaskStatusProcessing) \/
                        (a = TaskStatusProcessing /\ b = TaskStatusCompleted) \/
                        (a = TaskStatusProcessing /\ b = TaskStatusFailed)).
  { intros a b. unfold CanTransition. cbn [Status withStatus].
    destruct (String.eqb_spec a TaskStatusPending) as [Ea | _].
    { intro H. apply String.eqb_eq in H. left. split; assumption. }
    destruct (String.eqb_spec a TaskStatusProcessing) as [Ea | _].
    { intro H. apply orb_true_iff in H.
      destruct H as [H | H]; apply String.eqb_eq in H;
        [right; left | right; right]; split; assumption. }
    destruct (String.eqb a TaskStatusCompleted || String.eqb a TaskStatusFailed);
      discriminate. }
  assert (Hsame : forall b, CanTransition (withStatus t (Status t)) b
                            = CanTransition t b) by reflexivity.
  split.
  - intro H. rewrite <- Hsame in H. apply Hstage in H.
    destruct H as [[Ea Eb] | [[Ea Eb] | [Ea Eb]]]; rewrite Ea, Eb;
      (split; [reflexivity | split; [reflexivity | ]]).
    + exists 0. split; reflexivity.
    + exists 1. split; reflexivity.
    + exists 1. split; reflexivity.
  - intros H1 s H2 s'.
    rewrite <- Hsame in H1. apply Hstage in H1. apply Hstage in H2.
    destruct (CanTransition (withStatus t s) s') eqn:H3; [ | reflexivity].
    apply Hstage in H3. exfalso.
    destruct H1 as [[E1 E1'] | [[E1 E1'] | [E1 E1']]];
      destruct H2 as [[E2 E2'] | [[E2 E2'] | [E2 E2']]];
      destruct H3 as [[E3 E3'] | [[E3 E3'] | [E3 E3']]];
      subst; discriminate.
Qed.

Lemma CanTransition_follows_stages_witness :
  IsValidStatus TaskStatusPending = true /\
  IsValidStatus TaskStatusProcessing = true.
Proof.
  destruct (@CanTransition_follows_stages task1 TaskStatusProcessing)
    as (_ & H & _).
  destruct (H eq_refl) as (Ha & Hb & _).
  split; [exact Ha | exact Hb].
Defined.

Lemma defined_flags_disjoint (f g : Z) :
  In f definedFlags -> In g definedFlags -> f <> g -> Z.land f g = 0.
Proof.
  unfold definedFlags. simpl.
  intros [Hf | [Hf | [Hf | [Hf | []]]]] [Hg | [Hg | [Hg | [Hg | []]]]] Hne;
    subst f g; try reflexivity; exfalso; apply Hne; reflexivity.
Qed.

Lemma land_pow2 (a n : Z) :
  0 <= n -> Z.land a (2 ^ n) = 0 \/ Z.land a (2 ^ n) = 2 ^ n.
Proof.
  intro Hn. destruct (Z.testbit a n) eqn:B; [right | left];
    apply Z.bits_inj'; intros k _;
      rewrite Z.land_spec, ?Z.bits_0, Z.pow2_bits_eqb by lia;
      destruct (Z.eqb_spec n k) as [<- | _];
      rewrite ?B, ?andb_false_r; reflexivity.
Qed.

(** X15. The four flags are independent bits. For two different flag
    constants [f] and [g], setting, clearing or toggling [f] leaves
    [HasFlag g] as it was; toggling [f] inverts [HasFlag f]; and setting a
    flag that is set, or clearing one that is clear, changes nothing. *)
Theorem flags_are_independent :
  forall (t : Task) (f g : Z),
    In f definedFlags -> In g definedFlags -> f <> g ->
    HasFlag (SetFlag t f) g = HasFlag t g /\
    HasFlag (ClearFlag t f) g = HasFlag t g /\
    HasFlag (ToggleFlag t f) g = HasFlag t g /\
    HasFlag (ToggleFlag t f) f = negb (HasFlag t f) /\
    (HasFlag t f = true -> SetFlag t f = t) /\
    (HasFlag t f = false -> ClearFlag t f = t).
Proof.
  intros t f g Hf Hg Hne.
  pose proof (defined_flags_disjoint Hf Hg Hne) as Hdis.
  pose proof (definedFlags_range Hf) as Hfr.
  destruct t as [data created updated id ty st retries maxr flags].
  unfold HasFlag, SetFlag, ClearFlag, ToggleFlag, withFlags.
  cbn [Flags Data CreatedAt UpdatedAt ID Type_ Status Retries MaxRetries].
  assert (Hbits : forall k, Z.testbit f k && Z.testbit g k = false).
  { intro k. rewrite <- Z.land_spec, Hdis. apply Z.bits_0. }
  assert (E1 : Z.land (Z.lor flags f) g = Z.land flags g).
  { apply Z.bits_inj'. intros k _.
    rewrite !Z.land_spec, Z.lor_spec. specialize (Hbits k).
    destruct (Z.testbit flags k), (Z.testbit f k), (Z.testbit g k);
      simpl in *; congruence. }
  assert (E2 : Z.land (Z.ldiff flags f) g = Z.land flags g).
  { apply Z.bits_inj'. intros k _.
    rewrite !Z.land_spec, Z.ldiff_spec. specialize (Hbits k).
    destruct (Z.testbit flags k), (Z.testbit f k), (Z.testbit g k);
      simpl in *; congruence. }
  assert (E3 : Z.land (Z.lxor flags f) g = Z.land flags g).
  { apply Z.bits_inj'. intros k _.
    rewrite !Z.land_spec, Z.lxor_spec. specialize (Hbits k).
    destruct (Z.testbit flags k), (Z.testbit f k), (Z.testbit g k);
      simpl in *; congruence. }
  rewrite E1, E2, E3.
  split; [reflexivity | ]. split; [reflexivity | ]. split; [reflexivity | ].
  assert (Hsingle : Z.land flags f = 0 \/ Z.land flags f = f).
  { unfold definedFlags in Hf. simpl in Hf.
    destruct Hf as [Hf | [Hf | [Hf | [Hf | []]]]]; subst f.
    - exact (@land_pow2 flags 0 (Z.le_refl 0)).
    - apply (@land_pow2 flags 1). lia.
    - apply (@land_pow2 flags 2). lia.
    - apply (@land_pow2 flags 3). lia. }
  split; [ | split].
  - assert (E4 : Z.land (Z.lxor flags f) f = Z.lxor (Z.land flags f) f).
    { apply Z.bits_inj'. intros k _.
      rewrite Z.land_spec, !Z.lxor_spec, Z.land_spec.
      destruct (Z.testbit flags k), (Z.testbit f k); reflexivity. }
    rewrite E4.
    destruct Hsingle as [E | E]; rewrite E.
    + rewrite Z.lxor_0_l.
      destruct (Z.eqb_spec f 0); [lia | reflexivity].
    + rewrite Z.lxor_nilpotent.
      destruct (Z.eqb_spec f 0); [lia | reflexivity].
  - intro Hset. f_equal.
    destruct Hsingle as [E | E]; rewrite E in Hset.
    + discriminate Hset.
    + apply Z.bits_inj'. intros k _. rewrite Z.lor_spec.
      assert (Hk : Z.testbit (Z.land flags f) k = Z.testbit f k)
        by (rewrite E; reflexivity).
      rewrite Z.land_spec in Hk.
      destruct (Z.testbit flags k), (Z.testbit f k); simpl in *; congruence.
  - intro Hclear. f_equal.
    destruct Hsingle as [E | E]; rewrite E in Hclear.
    + apply Z.bits_inj'. intros k _. rewrite Z.ldiff_spec.
      assert (Hk : Z.testbit (Z.land flags f) k = false)
        by (rewrite E; apply Z.bits_0).
      rewrite Z.land_spec in Hk.
      destruct (Z.testbit flags k), (Z.testbit f k); simpl in *; congruence.
    + destruct (Z.eqb_spec f 0); [lia | discriminate Hclear].
Qed.

Lemma flags_are_independent_witness :
  HasFlag (SetFlag task1 TaskFlagUrgent) TaskFlagRetryable
  = HasFlag task1 TaskFlagRetryable /\
  HasFlag (ToggleFlag task1 TaskFlagUrgent) TaskFlagUrgent
  = negb (HasFlag task1 TaskFlagUrgent) /\
  ClearFlag task1 TaskFlagUrgent = task1.
Proof.
  assert (Hf : In TaskFlagUrgent definedFlags) by (simpl; tauto).
  assert (Hg : In TaskFlagRetryable definedFlags) by (simpl; tauto).
  assert (Hne : TaskFlagUrgent <> TaskFlagRetryable) by discriminate.
  destruct (@flags_are_independent task1 TaskFlagUrgent TaskFlagRetryable
                                   Hf Hg Hne)
    as (Hset & _ & _ & Htoggle & _ & Hclear).
  split; [exact Hset | ]. split; [exact Htoggle | ].
  apply Hclear. reflexivity.
Defined.

(** ** Request validation *)

(** X16. [Validate] accepts a request exactly when its type is not empty,
    its data map is not nil and its retry budget lies between 0 and
    [MaxRetryLimit] (10); the flags play no part. The checks run in that
    order, so a request with several faults reports the first: the missing
    type before the missing data, the data before the retry budget. *)
Theorem Validate_accepts_iff :
  forall r : CreateTaskRequest,
    (Validate r = None <->
     reqType r <> "" /\ reqData r <> None /\
     0 <= reqMaxRetries r <= MaxRetryLimit) /\
    (reqType r = "" -> Validate r = Some ErrInvalidTaskType) /\
    (reqType r <> "" -> reqData r = None ->
     Validate r = Some ErrInvalidTaskData) /\
    (forall flags,
        Validate (mkRequest (reqData r) (reqType r) (reqMaxRetries r) flags)
        = Validate r).
Proof.
  intro r. unfold Validate, MaxRetryLimit.
  destruct r as [data ty retries flags]. cbn.
  destruct (String.eqb_spec ty "") as [Ety | Ety].
  - repeat split; try (intros; reflexivity); try discriminate.
    + intros (H & _). contradiction.
    + intro H. contradiction.
  - destruct data as [d | ].
    + destruct (Z.ltb_spec retries 0); [ | destruct (Z.gtb_spec retries 10)];
        repeat split; try discriminate; try lia; try assumption;
          try (intros; reflexivity); try (intro; contradiction);
          try (intros (_ & _ & H'); lia); try (intros; discriminate).
    + repeat split; try discriminate; try (intros; reflexivity);
        try (intro; contradiction).
      intros (_ & H & _). contradiction.
Qed.

Lemma Validate_accepts_iff_witness :
  Validate (mkRequest (Some []) "email" DefaultMaxRetries TaskFlagDefault)
  = None /\
  Validate (mkRequest None "" (-1) 0) = Some ErrInvalidTaskType /\
  Validate (mkRequest None "email" 11 0) = Some ErrInvalidTaskData.
Proof.
  split; [ | split].
  - apply (proj1 (Validate_accepts_iff
                    (mkRequest (Some []) "email" DefaultMaxRetries
                               TaskFlagDefault))).
    cbn. repeat split; try discriminate.
  - apply (proj1 (proj2 (Validate_accepts_iff (mkRequest None "" (-1) 0)))).
    reflexivity.
  - apply (proj1 (proj2 (proj2 (Validate_accepts_iff
                                   (mkRequest None "email" 11 0))))).
    + discriminate.
    + reflexivity.
Defined.

(** ** Iterators *)

Section Iterators.

Implicit Types (tasks : list Task) (predicate : Task -> bool).

Lemma forEach_collect {V : Type} (l acc : list V) :
  forEach l collectBody acc = (true, (acc ++ l)%list).
Proof.
  revert acc. induction l as [ | x rest IH]; intro acc; cbn.
  - rewrite app_nil_r. reflexivity.
  - rewrite IH, <- app_assoc. reflexivity.
Qed.

Lemma IterateTasks_collect tasks :
  CollectIterator (IterateTasks tasks) = tasks.
Proof.
  unfold CollectIterator, IterateTasks. rewrite forEach_collect. reflexivity.
Qed.

Lemma IterateTasks_count tasks :
  CountIterator (IterateTasks tasks) = Z.of_nat (List.length tasks).
Proof.
  unfold CountIterator, IterateTasks.
  assert (H : forall l (c : Z),
             snd (forEach (V := Task) l (fun _ count => (true, count + 1)) c)
             = c + Z.of_nat (List.length l)).
  { induction l as [ | x rest IH]; intro c; cbn [forEach List.length].
    - cbn. lia.
    - rewrite IH. rewrite Nat2Z.inj_succ. lia. }
  rewrite H. lia.
Qed.

(** X17. Round trip and early exit of the basic iterator. Collecting
    [IterateTasks tasks] gives back [tasks] in order and counting it gives
    their number; and a consumer that breaks is obeyed: the loop body runs on
    the elements up to and including the first one at which it breaks, and
    on none after it. *)
Theorem IterateTasks_round_trip :
  forall tasks,
    CollectIterator (IterateTasks tasks) = tasks /\
    CountIterator (IterateTasks tasks) = Z.of_nat (List.length tasks) /\
    (forall stop : Task -> bool,
        IterateTasks tasks nat (countUntil stop) O = runsUntil stop tasks /\
        (runsUntil stop tasks <= List.length tasks)%nat).
Proof.
  intro tasks. split; [ | split].
  - apply IterateTasks_collect.
  - apply IterateTasks_count.
  - intro stop. unfold IterateTasks.
    assert (H : forall l (c : nat),
               snd (forEach (V := Task) l (countUntil stop) c)
               = (c + runsUntil stop l)%nat).
    { induction l as [ | x rest IH]; intro c; cbn [forEach runsUntil].
      - cbn. lia.
      - unfold countUntil at 1. destruct (stop x); cbn [negb].
        + cbn. lia.
        + rewrite IH. lia. }
    split; [rewrite H; reflexivity | ].
    induction tasks as [ | x rest IH]; cbn; [lia | ].
    destruct (stop x); lia.
Qed.

(** X18. For every consumer, also one that breaks, [FilterTasks] behaves
    like [IterateTasks] over the tasks that satisfy the predicate, in their
    original order; so collecting [FilterByStatus tasks status] gives the
    tasks with that status, and when every task has one of the four defined
    statuses the counts of [IteratePending], [IterateProcessing],
    [IterateCompleted] and [IterateFailed] add up to the number of tasks. *)
Theorem FilterTasks_is_filter :
  forall tasks predicate,
    (forall (St : Type) (yield : Task -> St -> bool * St) (s : St),
        FilterTasks tasks predicate St yield s
        = IterateTasks (filter predicate tasks) St yield s) /\
    (forall status,
        CollectIterator (FilterByStatus tasks status)
        = filter (fun t => String.eqb (Status t) status) tasks) /\
    (Forall (fun t => IsValidStatus (Status t) = true) tasks ->
     CountIterator (IteratePending tasks)
     + CountIterator (IterateProcessing tasks)
     + CountIterator (IterateCompleted tasks)
     + CountIterator (IterateFailed tasks)
     = Z.of_nat (List.length tasks)).
Proof.
  intros tasks predicate.
  assert (Hgen : forall p l (St : Type) (yield : Task -> St -> bool * St) (s : St),
             FilterTasks l p St yield s = IterateTasks (filter p l) St yield s).
  { intros p l St yield. unfold FilterTasks, IterateTasks.
    induction l as [ | x rest IH]; intro s; cbn [filterLoop filter].
    - reflexivity.
    - destruct (p x); [ | apply IH].
      cbn [forEach]. destruct (yield x s) as [go s'].
      destruct go; [apply IH | reflexivity]. }
  assert (Hcount : forall p l,
             CountIterator (FilterTasks l p)
             = Z.of_nat (List.length (filter p l))).
  { intros p l. unfold CountIterator. rewrite Hgen.
    apply IterateTasks_count. }
  split; [apply Hgen | ]. split.
  - intro status. unfold CollectIterator, FilterByStatus. rewrite Hgen.
    apply IterateTasks_collect.
  - intro Hvalid.
    unfold IteratePending, IterateProcessing, IterateCompleted,
      IterateFailed, FilterByStatus.
    rewrite !Hcount. rewrite <- !Nat2Z.inj_add. f_equal.
    induction Hvalid as [ | t rest Ht Hrest IH]; [reflexivity | ].
    apply IsValidStatus_iff in Ht. simpl in Ht.
    cbn [filter].
    destruct Ht as [E | [E | [E | [E | []]]]]; rewrite <- E; simpl; lia.
Qed.

Lemma takeLoop_spec tasks (n : Z) :
  forall (count : Z) (St : Type) (yield : Task -> St -> bool * St) (s : St),
    takeLoop tasks n count yield s
    = snd (forEach (firstn (Z.to_nat (n - count)) tasks) yield s).
Proof.
  induction tasks as [ | x rest IH]; intros count St yield s.
  - cbn. rewrite firstn_nil. reflexivity.
  - cbn [takeLoop].
    destruct (Z.geb_spec count n) as [Hge | Hlt].
    + replace (Z.to_nat (n - count)) with O by lia. reflexivity.
    + replace (Z.to_nat (n - count)) with (S (Z.to_nat (n - (count + 1))))
        by lia.
      cbn [firstn forEach]. destruct (yield x s) as [go s'].
      destruct go; [apply IH | reflexivity].
Qed.

Lemma skipLoop_spec tasks (n : Z) :
  forall (i : Z) (St : Type) (yield : Task -> St -> bool * St) (s : St),
    skipLoop tasks n i yield s
    = snd (forEach (skipn (Z.to_nat (n - i)) tasks) yield s).
Proof.
  induction tasks as [ | x rest IH]; intros i St yield s.
  - cbn. rewrite skipn_nil. reflexivity.
  - cbn [skipLoop].
    destruct (Z.ltb_spec i n) as [Hlt | Hge].
    + replace (Z.to_nat (n - i)) with (S (Z.to_nat (n - (i + 1)))) by lia.
      cbn [skipn]. apply IH.
    + replace (Z.to_nat (n - i)) with O by lia.
      cbn [skipn forEach]. destruct (yield x s) as [go s'].
      destruct go; [ | reflexivity].
      rewrite IH. replace (Z.to_nat (n - (i + 1))) with O by lia.
      reflexivity.
Qed.

(** X19. For every consumer, [TakeTasks tasks n] behaves like
    [IterateTasks] over the first [n] tasks and [SkipTasks tasks n] like
    [IterateTasks] over the tasks after the first [n]; a count that is zero
    or negative takes nothing and skips nothing, a count beyond the length
    takes all and skips all. So what the one takes followed by what the
    other leaves is always the whole slice. *)
Theorem TakeTasks_SkipTasks_split :
  forall tasks (n : Z),
    (forall (St : Type) (yield : Task -> St -> bool * St) (s : St),
        TakeTasks tasks n St yield s
        = IterateTasks (firstn (Z.to_nat n) tasks) St yield s) /\
    (forall (St : Type) (yield : Task -> St -> bool * St) (s : St),
        SkipTasks tasks n St yield s
        = IterateTasks (skipn (Z.to_nat n) tasks) St yield s) /\
    (CollectIterator (TakeTasks tasks n)
     ++ CollectIterator (SkipTasks tasks n))%list = tasks /\
    (n <= 0 ->
     CollectIterator (TakeTasks tasks n) = [] /\
     CollectIterator (SkipTasks tasks n) = tasks) /\
    (Z.of_nat (List.length tasks) <= n ->
     CollectIterator (TakeTasks tasks n) = tasks /\
     CollectIterator (SkipTasks tasks n) = []).
Proof.
  intros tasks n.
  assert (Ht : forall (St : Type) (yield : Task -> St -> bool * St) (s : St),
             TakeTasks tasks n St yield s
             = IterateTasks (firstn (Z.to_nat n) tasks) St yield s).
  { intros St yield s. unfold TakeTasks, IterateTasks.
    rewrite takeLoop_spec, Z.sub_0_r. reflexivity. }
  assert (Hs : forall (St : Type) (yield : Task -> St -> bool * St) (s : St),
             SkipTasks tasks n St yield s
             = IterateTasks (skipn (Z.to_nat n) tasks) St yield s).
  { intros St yield s. unfold SkipTasks, IterateTasks.
    rewrite skipLoop_spec, Z.sub_0_r. reflexivity. }
  assert (Ct : CollectIterator (TakeTasks tasks n)
               = firstn (Z.to_nat n) tasks).
  { unfold CollectIterator. rewrite Ht.
    apply IterateTasks_collect. }
  assert (Cs : CollectIterator (SkipTasks tasks n)
               = skipn (Z.to_nat n) tasks).
  { unfold CollectIterator. rewrite Hs.
    apply IterateTasks_collect. }
  split; [exact Ht | ]. split; [exact Hs | ].
  rewrite Ct, Cs.
  split; [apply firstn_skipn | ]. split.
  - intro Hn. replace (Z.to_nat n) with O by lia. split; reflexivity.
  - intro Hn. split.
    + apply firstn_all2. lia.
    + apply skipn_all2. lia.
Qed.

Lemma TakeTasks_SkipTasks_split_witness :
  CollectIterator (TakeTasks [task1; task2] (-1)) = [] /\
  CollectIterator (SkipTasks [task1; task2] (-1)) = [task1; task2] /\
  CollectIterator (TakeTasks [task1; task2] 5) = [task1; task2] /\
  CollectIterator (SkipTasks [task1; task2] 5) = [].
Proof.
  destruct (TakeTasks_SkipTasks_split [task1; task2] (-1))
    as (_ & _ & _ & Hneg & _).
  destruct (TakeTasks_SkipTasks_split [task1; task2] 5)
    as (_ & _ & _ & _ & Hbig).
  destruct Hneg as [H1 H2]; [discriminate | ].
  destruct Hbig as [H3 H4]; [discriminate | ].
  repeat split; assumption.
Defined.

Lemma chainLoop_spec (taskSlices : list (list Task)) :
  forall (St : Type) (yield : Task -> St -> bool * St) (s : St),
    chainLoop taskSlices yield s = snd (forEach (List.concat taskSlices) yield s).
Proof.
  assert (Happ : forall (l1 l2 : list Task) (St : Type)
                        (yield : Task -> St -> bool * St) (s : St),
             forEach (l1 ++ l2) yield s
             = (let (go, s') := forEach l1 yield s in
                if go then forEach l2 yield s' else (false, s'))).
  { induction l1 as [ | x rest IH]; intros l2 St yield s; cbn [app forEach].
    - reflexivity.
    - destruct (yield x s) as [go s']. destruct go; [apply IH | reflexivity]. }
  induction taskSlices as [ | l more IH]; intros St yield s;
    cbn [chainLoop List.concat].
  - reflexivity.
  - rewrite Happ. destruct (forEach l yield s) as [go s'].
    destruct go; [apply IH | reflexivity].
Qed.

(** X20. For every consumer, [ChainTasks] behaves like [IterateTasks] over
    the slices joined in order (a break inside one slice ends the whole
    iteration), and [MapTasks] hands the consumer the mapped values of the
    tasks in order; so collecting [TaskIDs] gives the task ids in order. *)
Theorem ChainTasks_MapTasks_compose :
  forall (taskSlices : list (list Task)),
    (forall (St : Type) (yield : Task -> St -> bool * St) (s : St),
        ChainTasks taskSlices St yield s
        = IterateTasks (List.concat taskSlices) St yield s) /\
    CollectIterator (ChainTasks taskSlices) = List.concat taskSlices /\
    (forall (T : Type) (mapper : Task -> T) tasks (St : Type)
            (yield : T -> St -> bool * St) (s : St),
        MapTasks tasks mapper yield s
        = snd (forEach (map mapper tasks) yield s)) /\
    (forall tasks,
        TaskIDs tasks (list string) collectBody [] = map ID tasks).
Proof.
  intro taskSlices.
  assert (Hc : forall (St : Type) (yield : Task -> St -> bool * St) (s : St),
             ChainTasks taskSlices St yield s
             = IterateTasks (List.concat taskSlices) St yield s).
  { intros St yield s. unfold ChainTasks, IterateTasks. apply chainLoop_spec. }
  assert (Hm : forall (T : Type) (mapper : Task -> T) tasks (St : Type)
                      (yield : T -> St -> bool * St) (s : St),
             MapTasks tasks mapper yield s
             = snd (forEach (map mapper tasks) yield s)).
  { intros T mapper tasks St yield. unfold MapTasks.
    induction tasks as [ | x rest IH]; intro s; cbn [map forEach].
    - reflexivity.
    - destruct (yield (mapper x) s) as [go s'].
      destruct go; [apply IH | reflexivity]. }
  split; [exact Hc | ]. split.
  - unfold CollectIterator. rewrite Hc.
    apply IterateTasks_collect.
  - split; [exact Hm | ].
    intro tasks. unfold TaskIDs. rewrite Hm, forEach_collect. reflexivity.
Qed.

Lemma indexLoop_collect tasks :
  forall (i : Z) (acc : list (Z * Task)),
    indexLoop tasks i collectPair acc = (acc ++ indexedFrom i tasks)%list.
Proof.
  induction tasks as [ | x rest IH]; intros i acc; cbn.
  - rewrite app_nil_r. reflexivity.
  - rewrite IH, <- app_assoc. reflexivity.
Qed.

Lemma backwardLoop_collect (reversed : list Task) :
  forall (i : Z) (acc : list (Z * Task)),
    backwardLoop reversed i collectPair acc
    = (acc ++ rev (indexedFrom (i - Z.of_nat (List.length reversed) + 1)
                               (rev reversed)))%list.
Proof.
  induction reversed as [ | x rest IH]; intros i acc.
  - cbn. rewrite app_nil_r. reflexivity.
  - cbn [backwardLoop collectPair]. rewrite IH.
    cbn [rev List.length]. rewrite Nat2Z.inj_succ.
    replace (i - 1 - Z.of_nat (List.length rest) + 1)
      with (i - Z.succ (Z.of_nat (List.length rest)) + 1) by lia.
    set (j := i - Z.succ (Z.of_nat (List.length rest)) + 1).
    assert (Happ : forall (l : list Task) (k : Z) (y : Task),
               indexedFrom k (l ++ [y])
               = (indexedFrom k l ++ [(k + Z.of_nat (List.length l), y)])%list).
    { induction l as [ | z l' IHl]; intros k y; cbn [app indexedFrom List.length].
      - rewrite Z.add_0_r. reflexivity.
      - rewrite IHl. rewrite Nat2Z.inj_succ.
        replace (k + 1 + Z.of_nat (List.length l'))
          with (k + Z.succ (Z.of_nat (List.length l'))) by lia.
        reflexivity. }
    rewrite Happ, rev_app_distr. cbn [rev app].
    rewrite length_rev.
    replace (j + Z.of_nat (List.length rest)) with i by (unfold j; lia).
    rewrite <- app_assoc. reflexivity.
Qed.

(** X21. [IterateTasksWithIndex] hands out every task with its index in the
    slice, from 0 up; [IterateBackward] hands out exactly the same
    (index, task) pairs in the opposite order, from the last index down
    to 0. *)
Theorem IterateBackward_reverses_indexed :
  forall tasks,
    IterateTasksWithIndex tasks (list (Z * Task)) collectPair []
    = indexedFrom 0 tasks /\
    IterateBackward tasks (list (Z * Task)) collectPair []
    = rev (IterateTasksWithIndex tasks (list (Z * Task)) collectPair []) /\
    map snd (indexedFrom 0 tasks) = tasks.
Proof.
  intro tasks.
  assert (H1 : IterateTasksWithIndex tasks (list (Z * Task)) collectPair []
               = indexedFrom 0 tasks).
  { unfold IterateTasksWithIndex. rewrite indexLoop_collect. reflexivity. }
  split; [exact H1 | ]. split.
  - rewrite H1. unfold IterateBackward. rewrite backwardLoop_collect.
    cbn [app]. rewrite length_rev, rev_involutive.
    replace (Z.of_nat (List.length tasks) - 1 - Z.of_nat (List.length tasks) + 1)
      with 0 by lia.
    reflexivity.
  - clear H1. generalize 0.
    induction tasks as [ | x rest IH]; intro k; cbn [indexedFrom map snd].
    + reflexivity.
    + rewrite IH. reflexivity.
Qed.

(** X22. The three searching consumers over a slice: [AnyMatch] is true
    exactly when some task satisfies the predicate, [AllMatch] exactly when
    every task does (true for an empty slice), and [FirstMatch] returns the
    first task in order that satisfies it, or nothing. [AllMatch] of a
    predicate is the negation of [AnyMatch] of its complement. *)
Theorem searching_consumers :
  forall tasks predicate,
    AnyMatch (IterateTasks tasks) predicate = existsb predicate tasks /\
    AllMatch (IterateTasks tasks) predicate = forallb predicate tasks /\
    FirstMatch (IterateTasks tasks) predicate = find predicate tasks /\
    AllMatch (IterateTasks tasks) predicate
    = negb (AnyMatch (IterateTasks tasks) (fun t => negb (predicate t))).
Proof.
  intros tasks predicate.
  assert (Hany : forall (p : Task -> bool) (l : list Task) (b : bool),
             snd (forEach (V := Task) (S := bool) l
                          (fun task _ => if p task then (false, true)
                                         else (true, false)) b)
             = match l with [] => b | _ => existsb p l end).
  { intros p l. induction l as [ | x rest IH]; intro b; cbn [forEach existsb].
    - reflexivity.
    - destruct (p x); [reflexivity | ]. rewrite IH.
      destruct rest; reflexivity. }
  assert (Hall : forall (p : Task -> bool) (l : list Task) (b : bool),
             snd (forEach (V := Task) (S := bool) l
                          (fun task _ => if negb (p task) then (false, false)
                                         else (true, true)) b)
             = match l with [] => b | _ => forallb p l end).
  { intros p l. induction l as [ | x rest IH]; intro b; cbn [forEach forallb].
    - reflexivity.
    - destruct (p x); cbn [negb andb]; [ | reflexivity]. rewrite IH.
      destruct rest; reflexivity. }
  assert (Hfirst : forall (p : Task -> bool) (l : list Task) (o : option Task),
             snd (forEach (V := Task) (S := option Task) l
                          (fun task _ => if p task then (false, Some task)
                                         else (true, None)) o)
             = match l with [] => o | _ => find p l end).
  { intros p l. induction l as [ | x rest IH]; intro o; cbn [forEach find].
    - reflexivity.
    - destruct (p x); [reflexivity | ]. rewrite IH.
      destruct rest; reflexivity. }
  assert (E1 : AnyMatch (IterateTasks tasks) predicate
               = existsb predicate tasks).
  { unfold AnyMatch, IterateTasks. rewrite Hany. destruct tasks; reflexivity. }
  assert (E2 : AllMatch (IterateTasks tasks) predicate
               = forallb predicate tasks).
  { unfold AllMatch, IterateTasks. rewrite Hall. destruct tasks; reflexivity. }
  split; [exact E1 | ]. split; [exact E2 | ]. split.
  - unfold FirstMatch, IterateTasks. rewrite Hfirst.
    destruct tasks; reflexivity.
  - rewrite E2.
    assert (E3 : AnyMatch (IterateTasks tasks) (fun t => negb (predicate t))
                 = existsb (fun t => negb (predicate t)) tasks).
    { unfold AnyMatch, IterateTasks. rewrite Hany.
      destruct tasks; reflexivity. }
    rewrite E3. clear.
    induction tasks as [ | x rest IH]; [reflexivity | ].
    cbn [forallb existsb]. destruct (predicate x); cbn [negb andb orb].
    + exact IH.
    + reflexivity.
Qed.

End Iterators.

Lemma FilterTasks_is_filter_witness :
  CountIterator (IteratePending [task1; task2])
  + CountIterator (IterateProcessing [task1; task2])
  + CountIterator (IterateCompleted [task1; task2])
  + CountIterator (IterateFailed [task1; task2]) = 2.
Proof.
  apply (proj2 (proj2 (FilterTasks_is_filter [task1; task2] (fun _ => true)))).
  repeat constructor.
Defined.

(** ** Chunks *)

Section Chunks.

Implicit Types (tasks : list Task) (chunkSize : Z).

Lemma chunkLoop_collects (fuel : nat) :
  forall tasks chunkSize (i : Z) (acc : list (list Task)),
    0 < chunkSize -> 0 <= i ->
    (Z.to_nat (Z.of_nat (List.length tasks) - i) <= fuel)%nat ->
    exists chunks,
      chunkLoop fuel tasks chunkSize i collectBody acc
      = Some (Returns (acc ++ chunks)%list) /\
      List.concat chunks = skipn (Z.to_nat i) tasks /\
      Forall (fun c => 0 < Z.of_nat (List.length c) <= chunkSize) chunks /\
      Forall (fun c => Z.of_nat (List.length c) = chunkSize)
             (removelast chunks).
Proof.
  induction fuel as [ | fuel IH]; intros tasks chunkSize i acc Hsize Hi Hfuel.
  - exists []. cbn [chunkLoop].
    destruct (Z.ltb_spec i (Z.of_nat (List.length tasks))) as [Hlt | Hge];
      [lia | ].
    rewrite app_nil_r. split; [reflexivity | ]. split.
    + cbn. symmetry. apply skipn_all2. lia.
    + split; constructor.
  - cbn [chunkLoop].
    destruct (Z.ltb_spec i (Z.of_nat (List.length tasks))) as [Hlt | Hge].
    + set (len := Z.of_nat (List.length tasks)) in *.
      set (stop := if i + chunkSize >? len then len else i + chunkSize).
      assert (Hstop : i < stop /\ stop <= len /\ stop <= i + chunkSize /\
                      (stop = len \/ stop = i + chunkSize)).
      { unfold stop. destruct (Z.gtb_spec (i + chunkSize) len); lia. }
      destruct Hstop as (Hs1 & Hs2 & Hs3 & Hs4).
      assert (Hb : (0 <=? i) && (i <=? stop) = true).
      { apply andb_true_iff. split; apply Z.leb_le; lia. }
      rewrite Hb. cbn [collectBody].
      destruct (IH tasks chunkSize (i + chunkSize)
                   (acc ++ [slice tasks i stop])%list Hsize)
        as (chunks & Hrun & Hcat & Hlen & Hfull); [lia | fold len; lia | ].
      exists (slice tasks i stop :: chunks).
      assert (Hslice : Z.of_nat (List.length (slice tasks i stop)) = stop - i).
      { unfold slice. rewrite length_firstn, length_skipn. fold len. lia. }
      assert (Hempty : len <= i + chunkSize -> chunks = []).
      { intro Hend.
        assert (Hnil : List.concat chunks = []).
        { rewrite Hcat. apply skipn_all2. fold len. lia. }
        destruct chunks as [ | c rest]; [reflexivity | exfalso].
        inversion Hlen as [ | ? ? Hc _]; subst.
        cbn in Hnil. apply app_eq_nil in Hnil. destruct Hnil as [Hc0 _].
        rewrite Hc0 in Hc. cbn in Hc. lia. }
      split; [ | split; [ | split]].
      * rewrite Hrun, <- app_assoc. reflexivity.
      * cbn [List.concat]. rewrite Hcat. unfold slice.
        destruct Hs4 as [E | E].
        -- rewrite Hempty in Hcat by lia. cbn in Hcat. rewrite <- Hcat.
           rewrite app_nil_r. apply firstn_all2.
           rewrite length_skipn. fold len. lia.
        -- replace (Z.to_nat (i + chunkSize))
             with (Z.to_nat (stop - i) + Z.to_nat i)%nat by lia.
           rewrite <- skipn_skipn. apply firstn_skipn.
      * constructor; [lia | exact Hlen].
      * destruct chunks as [ | c rest]; [constructor | ].
        cbn [removelast]. constructor; [ | exact Hfull].
        destruct Hs4 as [E | E]; [ | lia].
        assert (Habs : c :: rest = []) by (apply Hempty; lia).
        discriminate Habs.
    + exists []. rewrite app_nil_r. split; [reflexivity | ]. split.
      * cbn. symmetry. apply skipn_all2. lia.
      * split; constructor.
Qed.

(** X23. With a positive chunk size [ChunkTasks] ends without a panic
    within as many turns as there are tasks, and the chunks it yields, put
    together in order, are the tasks; no chunk is empty or longer than the
    chunk size, and every chunk but the last has exactly that size. An empty
    slice yields no chunk. *)
Theorem ChunkTasks_partitions :
  forall tasks chunkSize (fuel : nat),
    0 < chunkSize ->
    (List.length tasks <= fuel)%nat ->
    exists chunks,
      ChunkTasks fuel tasks chunkSize collectBody [] = Some (Returns chunks) /\
      List.concat chunks = tasks /\
      Forall (fun c => 0 < Z.of_nat (List.length c) <= chunkSize) chunks /\
      Forall (fun c => Z.of_nat (List.length c) = chunkSize)
             (removelast chunks) /\
      (tasks = [] -> chunks = []).
Proof.
  intros tasks chunkSize fuel Hsize Hfuel.
  destruct (@chunkLoop_collects fuel tasks chunkSize 0 [] Hsize (Z.le_refl 0))
    as (chunks & Hrun & Hcat & Hlen & Hfull); [lia | ].
  exists chunks. unfold ChunkTasks. rewrite Hrun. cbn in Hcat.
  repeat split; try assumption.
  intro He. rewrite He in Hcat.
  destruct chunks as [ | c rest]; [reflexivity | ].
  exfalso. inversion Hlen as [ | ? ? Hc _]; subst.
  cbn in Hcat. apply app_eq_nil in Hcat. destruct Hcat as [Hc0 _].
  rewrite Hc0 in Hc. cbn in Hc. lia.
Qed.

Lemma ChunkTasks_partitions_witness :
  exists chunks,
    ChunkTasks 3 [task1; task2; retriedTask] 2 collectBody []
    = Some (Returns chunks) /\
    List.concat chunks = [task1; task2; retriedTask].
Proof.
  destruct (@ChunkTasks_partitions [task1; task2; retriedTask] 2 3%nat)
    as (chunks & Hrun & Hcat & _).
  - reflexivity.
  - apply Nat.le_refl.
  - exists chunks. split; assumption.
Defined.

(** X24. The chunk sizes that are not positive, on a slice that is not
    empty. A negative size makes the first slice expression panic before
    anything is yielded. A size of zero makes the loop stand still: it
    yields the empty chunk again and again, and with a consumer that never
    breaks it has not returned after any number of turns. *)
Theorem ChunkTasks_bad_sizes :
  forall tasks chunkSize,
    tasks <> [] ->
    (chunkSize < 0 ->
     forall (fuel : nat) (St : Type) (yield : list Task -> St -> bool * St)
            (s : St),
       ChunkTasks (S fuel) tasks chunkSize yield s
       = Some (Panics "slice bounds out of range")) /\
    (chunkSize = 0 ->
     forall fuel : nat,
       ChunkTasks fuel tasks chunkSize collectBody [] = None /\
       ChunkTasks (S fuel) tasks chunkSize
                  (fun chunk (seen : list (list Task)) => (false, [chunk])) []
       = Some (Returns [[]])).
Proof.
  intros tasks chunkSize Hne.
  assert (Hlen : 0 < Z.of_nat (List.length tasks)).
  { destruct tasks; [contradiction | cbn [List.length]; lia]. }
  split.
  - intros Hneg fuel St yield s. unfold ChunkTasks. cbn [chunkLoop].
    destruct (Z.ltb_spec 0 (Z.of_nat (List.length tasks))); [ | lia].
    destruct (Z.gtb_spec (0 + chunkSize) (Z.of_nat (List.length tasks)));
      [lia | ].
    replace (0 <=? 0) with true by reflexivity. cbn [andb].
    destruct (Z.leb_spec 0 (0 + chunkSize)); [lia | reflexivity].
  - intros Hzero fuel. subst chunkSize. unfold ChunkTasks. split.
    + generalize (@nil (list Task)).
      induction fuel as [ | fuel IH]; intro acc; cbn [chunkLoop].
      * destruct (Z.ltb_spec 0 (Z.of_nat (List.length tasks)));
          [reflexivity | lia].
      * destruct (Z.ltb_spec 0 (Z.of_nat (List.length tasks))); [ | lia].
        destruct (Z.gtb_spec (0 + 0) (Z.of_nat (List.length tasks)));
          [lia | ].
        cbn. apply IH.
    + cbn [chunkLoop].
      destruct (Z.ltb_spec 0 (Z.of_nat (List.length tasks))); [ | lia].
      destruct (Z.gtb_spec (0 + 0) (Z.of_nat (List.length tasks)));
        [lia | ].
      cbn. reflexivity.
Qed.

Lemma ChunkTasks_bad_sizes_witness :
  ChunkTasks 1 [task1] (-1) collectBody []
  = Some (Panics "slice bounds out of range") /\
  ChunkTasks 50 [task1] 0 collectBody [] = None.
Proof.
  assert (Hne : [task1] <> []) by discriminate.
  destruct (@ChunkTasks_bad_sizes [task1] (-1) Hne) as [Hneg _].
  destruct (@ChunkTasks_bad_sizes [task1] 0 Hne) as [_ Hzero].
  split.
  - apply Hneg. reflexivity.
  - apply (Hzero eq_refl 50%nat).
Defined.

End Chunks.

(** ** Structures over sync.Map *)

Section StringKeys.

Variable V : Type.
Implicit Types (m : SyncMap.t string V) (key : string) (value : V).

Lemma Load_Store_same m key value :
  SyncMap.Load String.eqb (SyncMap.Store String.eqb m key value) key
  = Some value.
Proof.
  induction m as [ | [k v] rest IH]; cbn.
  - rewrite String.eqb_refl. reflexivity.
  - destruct (String.eqb k key) eqn:E; cbn; rewrite E; [reflexivity | exact IH].
Qed.

Lemma Load_Store_other m key other value :
  other <> key ->
  SyncMap.Load String.eqb (SyncMap.Store String.eqb m key value) other
  = SyncMap.Load String.eqb m other.
Proof.
  intro Hne. induction m as [ | [k v] rest IH]; cbn.
  - destruct (String.eqb_spec key other) as [E | _];
      [symmetry in E; contradiction | reflexivity].
  - destruct (String.eqb_spec k key) as [E | E]; cbn.
    + subst k. destruct (String.eqb_spec key other) as [E' | _];
        [symmetry in E'; contradiction | reflexivity].
    + destruct (String.eqb k other); [reflexivity | exact IH].
Qed.

Lemma Load_Delete_same m key :
  NoDup (map fst m) ->
  SyncMap.Load String.eqb (SyncMap.Delete String.eqb m key) key = None.
Proof.
  induction m as [ | [k v] rest IH]; intro Hnd; cbn; [reflexivity | ].
  inversion Hnd as [ | ? ? Hnotin Hrest]; subst.
  destruct (String.eqb_spec k key) as [E | E].
  - subst k. clear IH Hnd. induction rest as [ | [k' v'] rest' IH']; cbn;
      [reflexivity | ].
    cbn in Hnotin. inversion Hrest; subst.
    destruct (String.eqb_spec k' key) as [E' | _].
    + exfalso. apply Hnotin. left. exact E'.
    + apply IH'; [tauto | assumption].
  - cbn. destruct (String.eqb_spec k key); [contradiction | ].
    apply IH. exact Hrest.
Qed.

Lemma Load_Delete_other m key other :
  other <> key ->
  SyncMap.Load String.eqb (SyncMap.Delete String.eqb m key) other
  = SyncMap.Load String.eqb m other.
Proof.
  intro Hne. induction m as [ | [k v] rest IH]; cbn; [reflexivity | ].
  destruct (String.eqb_spec k key) as [E | E]; cbn.
  - subst k. destruct (String.eqb_spec key other) as [E' | _];
      [symmetry in E'; contradiction | reflexivity].
  - destruct (String.eqb k other); [reflexivity | exact IH].
Qed.

Lemma Delete_middle (kept rest : SyncMap.t string V) key value :
  ~ In key (map fst kept) ->
  SyncMap.Delete String.eqb (kept ++ (key, value) :: rest)%list key
  = (kept ++ rest)%list.
Proof.
  induction kept as [ | [k v] kept' IH]; intro Hnotin; cbn.
  - rewrite String.eqb_refl. reflexivity.
  - cbn in Hnotin. destruct (String.eqb_spec k key) as [E | _].
    + exfalso. apply Hnotin. left. exact E.
    + rewrite IH by tauto. reflexivity.
Qed.

(** [Store] and [Delete] keep the keys of the map distinct, so every map
    built from an empty one has distinct keys. *)
Lemma Store_keys m key value :
  NoDup (map fst m) -> NoDup (map fst (SyncMap.Store String.eqb m key value)).
Proof.
  assert (Hin : forall (m0 : SyncMap.t string V) k,
             In k (map fst (SyncMap.Store String.eqb m0 key value)) ->
             k = key \/ In k (map fst m0)).
  { induction m0 as [ | [k0 v0] rest IH]; intros k Hk; cbn in Hk.
    - destruct Hk as [E | []]. left. symmetry. exact E.
    - destruct (String.eqb k0 key); cbn in Hk |- *.
      + right. exact Hk.
      + destruct Hk as [E | Hk]; [right; left; exact E | ].
        destruct (IH k Hk) as [E | Hin']; [left; exact E | right; right; exact Hin']. }
  induction m as [ | [k v] rest IH]; intro Hnd; cbn.
  - repeat constructor. intros [].
  - inversion Hnd as [ | ? ? Hnotin Hrest]; subst.
    destruct (String.eqb_spec k key) as [E | E]; cbn.
    + constructor; assumption.
    + constructor; [ | apply IH; exact Hrest].
      intro Hk. destruct (Hin rest k Hk) as [E' | Hin']; contradiction.
Qed.

Lemma Delete_keys m key :
  NoDup (map fst m) -> NoDup (map fst (SyncMap.Delete String.eqb m key)).
Proof.
  assert (Hin : forall (m0 : SyncMap.t string V) k,
             In k (map fst (SyncMap.Delete String.eqb m0 key)) ->
             In k (map fst m0)).
  { induction m0 as [ | [k0 v0] rest IH]; intros k Hk; cbn in Hk |- *.
    - exact Hk.
    - destruct (String.eqb k0 key); cbn in Hk.
      + right. exact Hk.
      + destruct Hk as [E | Hk]; [left; exact E | right; apply IH; exact Hk]. }
  induction m as [ | [k v] rest IH]; intro Hnd; cbn.
  - constructor.
  - inversion Hnd as [ | ? ? Hnotin Hrest]; subst.
    destruct (String.eqb k key); [exact Hrest | ].
    cbn. constructor; [ | apply IH; exact Hrest].
    intro Hk. apply Hnotin. apply Hin. exact Hk.
Qed.

End StringKeys.

(** X25. The status index. [Increment] adds one to the counter of its
    status (creating it at 1) and [Decrement] subtracts one, each leaving
    the counters of the other statuses alone, so one undoes the other.
    [Decrement] of a status that was never incremented changes nothing and
    creates no counter; but once a counter exists it is not guarded: from 0
    it goes to 18446744073709551615. *)
Theorem StatusIndex_counts :
  forall (s : StatusIndex) (status : TaskStatus),
    StatusIndex_Get (StatusIndex_Increment s status) status
    = to_u64 (StatusIndex_Get s status + 1) /\
    (forall other,
        other <> status ->
        StatusIndex_Get (StatusIndex_Increment s status) other
        = StatusIndex_Get s other /\
        StatusIndex_Get (StatusIndex_Decrement s status) other
        = StatusIndex_Get s other) /\
    (SyncMap.Load String.eqb s status = None ->
     StatusIndex_Decrement s status = s) /\
    (0 < StatusIndex_Get s status < u64_max ->
     StatusIndex_Get (StatusIndex_Decrement s status) status
     = StatusIndex_Get s status - 1) /\
    (SyncMap.Load String.eqb s status = Some 0 ->
     StatusIndex_Get (StatusIndex_Decrement s status) status
     = 18446744073709551615) /\
    (0 <= StatusIndex_Get s status < u64_max - 1 ->
     StatusIndex_Get
       (StatusIndex_Decrement (StatusIndex_Increment s status) status) status
     = StatusIndex_Get s status).
Proof.
  intros s status.
  assert (Hinc : forall s0,
             StatusIndex_Get (StatusIndex_Increment s0 status) status
             = to_u64 (StatusIndex_Get s0 status + 1)).
  { intro s0. unfold StatusIndex_Get, StatusIndex_Increment,
                SyncMap.LoadOrStore.
    destruct (SyncMap.Load String.eqb s0 status) as [c | ];
      rewrite ?Load_Store_same; reflexivity. }
  assert (Hdec : forall s0 c,
             SyncMap.Load String.eqb s0 status = Some c ->
             StatusIndex_Get (StatusIndex_Decrement s0 status) status
             = to_u64 (c + (u64_max - 1))).
  { intros s0 c Hc. unfold StatusIndex_Get, StatusIndex_Decrement.
    rewrite Hc, Load_Store_same. reflexivity. }
  split; [apply Hinc | ]. split.
  - intros other Hne. split.
    + unfold StatusIndex_Get, StatusIndex_Increment, SyncMap.LoadOrStore.
      destruct (SyncMap.Load String.eqb s status) as [c | ];
        rewrite ?Load_Store_other by assumption; reflexivity.
    + unfold StatusIndex_Get, StatusIndex_Decrement.
      destruct (SyncMap.Load String.eqb s status) as [c | ];
        rewrite ?Load_Store_other by assumption; reflexivity.
  - split.
    { intro Hnone. unfold StatusIndex_Decrement. rewrite Hnone. reflexivity. }
    split.
    { intro Hpos. unfold StatusIndex_Get in Hpos |- *.
      destruct (SyncMap.Load String.eqb s status) as [c | ] eqn:Hc; [ | lia].
      fold (StatusIndex_Get (StatusIndex_Decrement s status) status).
      rewrite (Hdec s c Hc). unfold to_u64.
      apply mod_dec; [reflexivity | exact Hpos]. }
    split.
    { intro Hzero. rewrite (Hdec s 0 Hzero). reflexivity. }
    intro Hr.
    assert (Hload : SyncMap.Load String.eqb (StatusIndex_Increment s status)
                                 status
                    = Some (to_u64 (StatusIndex_Get s status + 1))).
    { unfold StatusIndex_Get, StatusIndex_Increment, SyncMap.LoadOrStore.
      destruct (SyncMap.Load String.eqb s status) as [c | ];
        rewrite Load_Store_same; reflexivity. }
    rewrite (Hdec _ _ Hload). unfold to_u64.
    apply mod_inc_dec; [reflexivity | ]. unfold u64_max in *. lia.
Qed.

Lemma StatusIndex_counts_witness :
  StatusIndex_Decrement NewStatusIndex TaskStatusPending = NewStatusIndex /\
  StatusIndex_Get
    (StatusIndex_Decrement
       (StatusIndex_Decrement
          (StatusIndex_Increment NewStatusIndex TaskStatusPending)
          TaskStatusPending)
       TaskStatusPending)
    TaskStatusPending = 18446744073709551615 /\
  StatusIndex_Get
    (StatusIndex_Decrement
       (StatusIndex_Increment
          (StatusIndex_Increment NewStatusIndex TaskStatusPending)
          TaskStatusPending)
       TaskStatusPending)
    TaskStatusPending = 1.
Proof.
  split; [ | split].
  - apply (proj1 (proj2 (proj2 (StatusIndex_counts NewStatusIndex
                                                   TaskStatusPending)))).
    reflexivity.
  - apply (proj1 (proj2 (proj2 (proj2 (proj2
             (StatusIndex_counts
                (StatusIndex_Decrement
                   (StatusIndex_Increment NewStatusIndex TaskStatusPending)
                   TaskStatusPending)
                TaskStatusPending)))))).
    reflexivity.
  - apply (proj2 (proj2 (proj2 (proj2 (proj2
             (StatusIndex_counts
                (StatusIndex_Increment NewStatusIndex TaskStatusPending)
                TaskStatusPending)))))).
    vm_compute. split; [discriminate | reflexivity].
Defined.

(** X26. The metrics collector. The first [Record] initialises the
    statistics and every [Record] counts one submission: after [n] calls on a
    new collector (fewer than 2^64) the submitted counter is [n], no call
    panics, and a later [Init] hands back the same statistics without
    resetting them. *)
Theorem MetricsCollector_counts_records :
  forall n : nat,
    Z.of_nat (S n) < u64_max ->
    exists s,
      recordTimes (S n) NewMetricsCollector
      = Returns (mkCollector (Some s) true true) /\
      Stats.GetSubmitted s = Z.of_nat (S n) /\
      Stats.IsRunning s = true /\
      MetricsCollector_Init (mkCollector (Some s) true true)
      = (Some s, mkCollector (Some s) true true).
Proof.
  assert (Hgen : forall (k : nat) (s : Stats.WorkerStats),
             0 <= Stats.tasksSubmitted s ->
             Stats.tasksSubmitted s + Z.of_nat k < u64_max ->
             exists s',
               recordTimes k (mkCollector (Some s) true true)
               = Returns (mkCollector (Some s') true true) /\
               Stats.tasksSubmitted s'
               = Stats.tasksSubmitted s + Z.of_nat k /\
               Stats.running s' = Stats.running s).
  { induction k as [ | k IH]; intros s Hlo Hhi.
    - exists s. cbn. repeat split; lia.
    - rewrite Nat2Z.inj_succ in Hhi. cbn [recordTimes].
      unfold MetricsCollector_Record, MetricsCollector_Init.
      cbn [mcInitDone mcStats mcEnabled].
      assert (E : Stats.tasksSubmitted (Stats.RecordSubmission s)
                  = Stats.tasksSubmitted s + 1).
      { cbn. apply to_u64_small. lia. }
      destruct (IH (Stats.RecordSubmission s)) as (s' & Hrun & Hsub & Hflag);
        [lia | lia | ].
      exists s'. split; [exact Hrun | ].
      rewrite Hsub, E, Nat2Z.inj_succ. split; [lia | exact Hflag]. }
  intros n Hn. rewrite Nat2Z.inj_succ in Hn.
  cbn [recordTimes]. unfold MetricsCollector_Record, MetricsCollector_Init.
  cbn [NewMetricsCollector mcInitDone mcStats mcEnabled].
  destruct (Hgen n (Stats.RecordSubmission Stats.NewWorkerStats))
    as (s & Hrun & Hsub & Hflag).
  - vm_compute. discriminate.
  - change (Stats.tasksSubmitted (Stats.RecordSubmission Stats.NewWorkerStats))
      with 1. lia.
  - exists s. split; [exact Hrun | ].
    unfold Stats.GetSubmitted, Stats.IsRunning. rewrite Hsub, Hflag.
    change (Stats.tasksSubmitted (Stats.RecordSubmission Stats.NewWorkerStats))
      with 1.
    rewrite Nat2Z.inj_succ. repeat split. lia.
Qed.

Lemma MetricsCollector_counts_records_witness :
  exists s,
    recordTimes 3 NewMetricsCollector
    = Returns (mkCollector (Some s) true true) /\
    Stats.GetSubmitted s = 3.
Proof.
  destruct (@MetricsCollector_counts_records 2%nat) as (s & Hrun & Hsub & _).
  - reflexivity.
  - exists s. split; assumption.
Defined.

(** X27. The route cache computes a route once. On a hit [GetOrCompute]
    returns the cached route and does not run [compute]; on a miss it runs
    [compute] once, returns and caches its result; so a second call for the
    same task type returns the same route without running its [compute],
    whatever that function is. Routes of other task types are not touched.
    After [Invalidate] of the type, or [InvalidateAll], the next call
    computes again. *)
Theorem GetOrCompute_computes_once :
  forall (St : Type) (c : RouteCache) (taskType : string)
         (compute : St -> Z * St) (st : St),
    let r := GetOrCompute c taskType compute st in
    let c1 := snd (fst r) in
    (forall cached,
        SyncMap.Load String.eqb c taskType = Some cached ->
        r = (cached, c, st)) /\
    (SyncMap.Load String.eqb c taskType = None ->
     fst (fst r) = fst (compute st) /\ snd r = snd (compute st)) /\
    SyncMap.Load String.eqb c1 taskType = Some (fst (fst r)) /\
    (forall (St' : Type) (compute' : St' -> Z * St') (st' : St'),
        GetOrCompute c1 taskType compute' st' = (fst (fst r), c1, st')) /\
    (forall other,
        other <> taskType ->
        SyncMap.Load String.eqb c1 other = SyncMap.Load String.eqb c other) /\
    (forall (St' : Type) (compute' : St' -> Z * St') (st' : St'),
        NoDup (map fst c1) ->
        fst (fst (GetOrCompute (Invalidate c1 taskType) taskType compute' st'))
        = fst (compute' st') /\
        fst (fst (GetOrCompute (InvalidateAll c1) taskType compute' st'))
        = fst (compute' st')).
Proof.
  intros St c taskType compute st r c1.
  assert (Hhit : forall (St' : Type) (c0 : RouteCache) v
                        (compute' : St' -> Z * St') (st' : St'),
             SyncMap.Load String.eqb c0 taskType = Some v ->
             GetOrCompute c0 taskType compute' st' = (v, c0, st')).
  { intros St' c0 v compute' st' Hv. unfold GetOrCompute. rewrite Hv.
    reflexivity. }
  assert (Hmiss : forall (St' : Type) (c0 : RouteCache)
                         (compute' : St' -> Z * St') (st' : St'),
             SyncMap.Load String.eqb c0 taskType = None ->
             GetOrCompute c0 taskType compute' st'
             = (fst (compute' st'),
                SyncMap.Store String.eqb c0 taskType (fst (compute' st')),
                snd (compute' st'))).
  { intros St' c0 compute' st' Hv.
    unfold GetOrCompute, SyncMap.LoadOrStore. rewrite Hv.
    destruct (compute' st') as [w st'']. reflexivity. }
  assert (Hc1 : SyncMap.Load String.eqb c1 taskType = Some (fst (fst r))).
  { subst c1 r.
    destruct (SyncMap.Load String.eqb c taskType) as [v | ] eqn:Hv.
    - rewrite (Hhit St c v compute st Hv). exact Hv.
    - rewrite (Hmiss St c compute st Hv). cbn [fst snd].
      apply Load_Store_same. }
  split; [intros cached Hv; subst r; apply Hhit; exact Hv | ].
  split.
  { intro Hv. subst r. rewrite (Hmiss St c compute st Hv). split; reflexivity. }
  split; [exact Hc1 | ].
  split; [intros St' compute' st'; apply Hhit; exact Hc1 | ].
  split.
  { intros other Hne. subst c1 r.
    destruct (SyncMap.Load String.eqb c taskType) as [v | ] eqn:Hv.
    - rewrite (Hhit St c v compute st Hv). reflexivity.
    - rewrite (Hmiss St c compute st Hv). cbn [fst snd].
      apply Load_Store_other. exact Hne. }
  intros St' compute' st' Hnd. split.
  - rewrite Hmiss; [reflexivity | ].
    unfold Invalidate. apply Load_Delete_same. exact Hnd.
  - rewrite Hmiss; reflexivity.
Qed.

Lemma GetOrCompute_computes_once_witness :
  let r := GetOrCompute NewRouteCache "email" (fun n : nat => (7, S n)) O in
  r = (7, [("email", 7)], 1%nat) /\
  GetOrCompute (snd (fst r)) "email" (fun n : nat => (9, S n)) 5%nat
  = (7, snd (fst r), 5%nat) /\
  fst (fst (GetOrCompute (Invalidate (snd (fst r)) "email") "email"
                         (fun n : nat => (9, S n)) 5%nat)) = 9.
Proof.
  intro r.
  destruct (@GetOrCompute_computes_once nat NewRouteCache "email"
                                        (fun n : nat => (7, S n)) O)
    as (_ & Hmiss & _ & Hagain & _ & Hinv).
  split; [reflexivity | ]. split.
  - exact (Hagain nat (fun n : nat => (9, S n)) 5%nat).
  - apply (Hinv nat (fun n : nat => (9, S n)) 5%nat).
    repeat constructor. intros [].
Defined.

Section Sessions.

Implicit Types (s : SessionStore) (session : Session) (now : Z).

Lemma cleanLoop_spec (entries : list (string * Session)) now :
  forall (kept : SessionStore) (removed : Z),
    NoDup (map fst (kept ++ entries)) ->
    cleanLoop entries now (kept ++ entries)%list removed
    = (removed
       + Z.of_nat (List.length
                     (filter (fun kv => expired now (snd kv)) entries)),
       (kept ++ filter (fun kv => negb (expired now (snd kv))) entries)%list).
Proof.
  induction entries as [ | [key session] rest IH]; intros kept removed Hnd.
  - cbn. rewrite Z.add_0_r. reflexivity.
  - cbn [cleanLoop filter snd].
    assert (Hnotin : ~ In key (map fst kept)).
    { rewrite map_app in Hnd. cbn in Hnd.
      apply NoDup_remove_2 in Hnd. intro Hin. apply Hnd.
      apply in_or_app. left. exact Hin. }
    destruct (expired now session); cbn [negb].
    + rewrite Delete_middle by exact Hnotin.
      rewrite IH.
      * cbn [List.length]. rewrite Nat2Z.inj_succ. f_equal. lia.
      * rewrite map_app in Hnd |- *. cbn in Hnd.
        apply NoDup_remove_1 in Hnd. exact Hnd.
    + replace (kept ++ (key, session) :: rest)%list
        with ((kept ++ [(key, session)]) ++ rest)%list
        by (rewrite <- app_assoc; reflexivity).
      rewrite IH.
      * rewrite <- app_assoc. reflexivity.
      * rewrite <- app_assoc. exact Hnd.
Qed.

(** X28. Sessions expire strictly after their [ExpiresAt]. [Load] returns a
    stored session up to and including that instant; later it returns
    nothing and removes the session, so that it stays gone even for a
    caller with an earlier clock. [CleanExpired] removes exactly the expired
    sessions, keeps the others in place and returns the number removed;
    a second [CleanExpired] at the same instant removes nothing. *)
Theorem SessionStore_expiry :
  forall s (sessionID : string) session now,
    NoDup (map fst s) ->
    SyncMap.Load String.eqb s sessionID = Some session ->
    (now <= ExpiresAt session ->
     SessionStore_Load s sessionID now = (Some session, s)) /\
    (ExpiresAt session < now ->
     fst (SessionStore_Load s sessionID now) = None /\
     forall earlier,
       SessionStore_Load (snd (SessionStore_Load s sessionID now))
                         sessionID earlier
       = (None, snd (SessionStore_Load s sessionID now))) /\
    CleanExpired s now
    = (Z.of_nat (List.length (filter (fun kv => expired now (snd kv)) s)),
       filter (fun kv => negb (expired now (snd kv))) s) /\
    fst (CleanExpired (snd (CleanExpired s now)) now) = 0.
Proof.
  intros s sessionID session now Hnd Hload.
  assert (Hclean : forall s0,
             NoDup (map fst s0) ->
             CleanExpired s0 now
             = (Z.of_nat (List.length
                            (filter (fun kv => expired now (snd kv)) s0)),
                filter (fun kv => negb (expired now (snd kv))) s0)).
  { intros s0 Hnd0. unfold CleanExpired.
    exact (@cleanLoop_spec s0 now [] 0 Hnd0). }
  split; [ | split; [ | split]].
  - intro Hlive. unfold SessionStore_Load, expired. rewrite Hload.
    destruct (Z.ltb_spec (ExpiresAt session) now); [lia | reflexivity].
  - intro Hdead.
    assert (E : SessionStore_Load s sessionID now
                = (None, SyncMap.Delete String.eqb s sessionID)).
    { unfold SessionStore_Load, expired. rewrite Hload.
      destruct (Z.ltb_spec (ExpiresAt session) now); [reflexivity | lia]. }
    rewrite E. cbn [fst snd]. split; [reflexivity | ].
    intro earlier. unfold SessionStore_Load.
    rewrite Load_Delete_same by exact Hnd. reflexivity.
  - apply Hclean. exact Hnd.
  - rewrite (Hclean s Hnd). cbn [snd].
    rewrite Hclean.
    + cbn [fst]. clear.
      induction s as [ | [k x] rest IH]; [reflexivity | ].
      cbn [filter snd]. destruct (expired now x) eqn:E; cbn [negb filter snd].
      * exact IH.
      * rewrite E. exact IH.
    + clear - Hnd. induction s as [ | [k x] rest IH]; [constructor | ].
      cbn in Hnd |- *. inversion Hnd as [ | ? ? Hnotin Hrest]; subst.
      destruct (negb (expired now x)); [ | apply IH; exact Hrest].
      cbn. constructor; [ | apply IH; exact Hrest].
      intro Hin. apply Hnotin.
      clear - Hin. induction rest as [ | [k' x'] rest' IH']; [exact Hin | ].
      cbn in Hin |- *. destruct (negb (expired now x')); cbn in Hin.
      * destruct Hin as [E | Hin]; [left; exact E | right; apply IH'; exact Hin].
      * right. apply IH'. exact Hin.
Qed.

End Sessions.

Lemma SessionStore_expiry_witness :
  let u := mkSession "alice" 100 [] in
  let s := SessionStore_Store NewSessionStore "sid" u in
  SessionStore_Load s "sid" 100 = (Some u, s) /\
  fst (SessionStore_Load s "sid" 101) = None /\
  CleanExpired s 101 = (1, []).
Proof.
  intros u s.
  assert (Hnd : NoDup (map fst s)) by (repeat constructor; intros []).
  destruct (@SessionStore_expiry s "sid" u 100 Hnd eq_refl) as (Hlive & _).
  destruct (@SessionStore_expiry s "sid" u 101 Hnd eq_refl)
    as (_ & Hdead & Hclean & _).
  split; [apply Hlive; discriminate | ].
  split; [apply Hdead; reflexivity | exact Hclean].
Defined.
